(** * DecryptingAudioDecoder: the decrypting audio decode stage

    A shallow embedding of [media/filters/decrypting_audio_decoder.cc].
    The object's members become a record, every member function becomes a
    computation in a small state / output / crash monad, and the calls the
    stage makes on its collaborators (the decryptor, the caller's callbacks,
    the task runner) are recorded as a list of events.  Callbacks bound to
    weak pointers are modelled as continuations that the outside world fires
    later; a continuation whose weak pointer has been invalidated is dropped.
    The audio buffers of a decryptor's answer are objects in a store, and
    the answer lists pointers to them: [EnqueueFrames] writes through the
    pointers, so that two pointers to one object share what is written.

    Not modelled: the thread assertions
    ([DCHECK(task_runner_->BelongsToCurrentThread())]; every member function
    runs on the one sequence) and the [DVLOG]/[DLOG] output together with
    [IsOutOfSync], which only guards a log line. *)

From Stdlib Require Import ZArith QArith List Bool Lia.
Import ListNotations.

Local Close Scope Q_scope.
Local Open Scope bool_scope.

(** ** Collaborator types *)

(** [base::TimeDelta].  [None] is the sentinel [kNoTimestamp()]; a real
    time is an exact number of seconds. *)
Definition TimeDelta : Type := option Q.
Definition kNoTimestamp : TimeDelta := None.

Definition is_kNoTimestamp (t : TimeDelta) : bool :=
  match t with None => true | Some _ => false end.




(** [PipelineStatus], the values this file uses. *)
Inductive PipelineStatus : Set :=
| PIPELINE_OK
| PIPELINE_ERROR_DECODE
| DECODER_ERROR_NOT_SUPPORTED.

(** [AudioDecoder::Status]. *)
Inductive AudioDecoderStatus : Set :=
| kOk
| kAborted
| kNotEnoughData
| kDecodeError.

(** [Decryptor::Status]. *)
Inductive DecryptorStatus : Set :=
| kSuccess
| kNoKey
| kNeedMoreData
| kError.

Inductive SampleFormat : Set :=
| kUnknownSampleFormat
| kSampleFormatU8
| kSampleFormatS16
| kSampleFormatS32
| kSampleFormatF32
| kSampleFormatPlanarS16
| kSampleFormatPlanarF32.

(** C enums kept as their integer codes. *)
Definition ChannelLayout : Type := Z.
Definition CHANNEL_LAYOUT_NONE : ChannelLayout := 0%Z.
Definition AudioCodec : Type := Z.

(** [Decryptor*]: the identity of a decryptor; a null pointer is [None]. *)
Definition Decryptor : Type := nat.

Module AudioDecoderConfig.

(** Modelled from the spec: [media/base/audio_decoder_config.h] is not part
    of the sources at hand.  The configuration carries the sample format
    family, channel layout, sample rate, encryption flag and extra codec
    parameters; [Initialize] stores its arguments. *)
Record t : Type := mk {
  codec : AudioCodec;
  sample_format : SampleFormat;
  channel_layout : ChannelLayout;
  samples_per_second : Z;
  extra_data : list Z;
  is_encrypted : bool;
  seek_preroll : TimeDelta;
  codec_delay : TimeDelta
}.

Definition extra_data_size (c : t) : nat := length (extra_data c).

Definition Initialize (codec : AudioCodec) (sample_format : SampleFormat)
    (channel_layout : ChannelLayout) (samples_per_second : Z)
    (extra_data : list Z) (extra_data_size : nat) (is_encrypted : bool)
    (record_stats : bool) (seek_preroll codec_delay : TimeDelta) : t :=
  {| codec := codec;
     sample_format := sample_format;
     channel_layout := channel_layout;
     samples_per_second := samples_per_second;
     extra_data := firstn extra_data_size extra_data;
     is_encrypted := is_encrypted;
     seek_preroll := seek_preroll;
     codec_delay := codec_delay |}.

(** The default-constructed configuration held before [Initialize]. *)
Definition default : t :=
  {| codec := 0%Z;
     sample_format := kUnknownSampleFormat;
     channel_layout := 0%Z;
     samples_per_second := 0%Z;
     extra_data := [];
     is_encrypted := false;
     seek_preroll := Some 0%Q;
     codec_delay := Some 0%Q |}.

End AudioDecoderConfig.

Module DecoderBuffer.

(** An encrypted input buffer: payload, presentation timestamp and the
    end-of-stream flag. *)
Record t : Type := mk {
  end_of_stream : bool;
  timestamp : TimeDelta;
  data : list Z
}.

Definition data_size (b : t) : Z := Z.of_nat (length (data b)).

End DecoderBuffer.

Module AudioBuffer.

(** A decoded frame: sample data, frame count, timestamp, duration. *)
Record t : Type := mk {
  end_of_stream : bool;
  frame_count : Z;
  timestamp : TimeDelta;
  duration : TimeDelta;
  samples : list Z
}.

Definition set_timestamp (ts : TimeDelta) (f : t) : t :=
  {| end_of_stream := end_of_stream f;
     frame_count := frame_count f;
     timestamp := ts;
     duration := duration f;
     samples := samples f |}.

Definition set_duration (du : TimeDelta) (f : t) : t :=
  {| end_of_stream := end_of_stream f;
     frame_count := frame_count f;
     timestamp := timestamp f;
     duration := du;
     samples := samples f |}.

(** Modelled from the spec: [AudioBuffer::CreateEOSBuffer] is declared in
    [media/base/audio_buffer.h], which is not part of the sources at hand.
    An end-of-stream frame is a sentinel frame with no payload. *)
Definition CreateEOSBuffer : t :=
  {| end_of_stream := true;
     frame_count := 0%Z;
     timestamp := kNoTimestamp;
     duration := kNoTimestamp;
     samples := [] |}.

End AudioBuffer.

Module AudioBuffers.

(** [Decryptor::AudioBuffers] is declared in [media/base/decryptor.h], which
    is not part of the sources at hand; the stage uses it as a list of
    [scoped_refptr<AudioBuffer>]: it copies it, iterates over it, takes its
    front and dereferences its elements.  The buffers are objects in a
    store, each at an address (its position in [store]), and the list holds
    the addresses in order.  Two pointers with the same address point to one
    object: what is written through one is read through the other.  An
    address at which the store holds no object is a null pointer. *)
Record t : Type := mk {
  store : list AudioBuffer.t;
  pointers : list nat
}.

(** [frames.empty()]. *)
Definition empty (frames : t) : bool :=
  match pointers frames with
  | [] => true
  | _ => false
  end.

(** The object a pointer refers to. *)
Definition object_at (objects : list AudioBuffer.t) (p : nat)
  : option AudioBuffer.t :=
  nth_error objects p.

(** The store after [f] has been written to the object at address [p]. *)
Fixpoint write (p : nat) (f : AudioBuffer.t) (objects : list AudioBuffer.t)
  : list AudioBuffer.t :=
  match objects, p with
  | [], _ => []
  | _ :: rest, O => f :: rest
  | g :: rest, S p' => g :: write p' f rest
  end.

(** The buffers a list of pointers refers to, in list order, each as it
    stands in the store. *)
Definition listed (objects : list AudioBuffer.t) (ps : list nat)
  : list AudioBuffer.t :=
  flat_map (fun p => match object_at objects p with
                     | Some f => [f]
                     | None => []
                     end) ps.

(** The list that points to each of the given buffers once, in order. *)
Definition of_list (buffers : list AudioBuffer.t) : t :=
  {| store := buffers; pointers := seq 0 (length buffers) |}.

End AudioBuffers.

Module AudioTimestampHelper.

(** Modelled from the spec: [media/base/audio_timestamp_helper.h] is not
    part of the sources at hand.  The helper derives continuous per-frame
    output timestamps and durations from a sample rate and a running frame
    count: the running timestamp is the base plus the frames counted so far
    divided by the sample rate, the duration of [n] frames is
    [n / sample_rate], and setting the base restarts the count. *)
Record t : Type := mk {
  samples_per_second : Z;
  base_timestamp : TimeDelta;
  frame_count : Z
}.

Definition new (samples_per_second : Z) : t :=
  {| samples_per_second := samples_per_second;
     base_timestamp := kNoTimestamp;
     frame_count := 0%Z |}.

Definition SetBaseTimestamp (base : TimeDelta) (h : t) : t :=
  {| samples_per_second := samples_per_second h;
     base_timestamp := base;
     frame_count := 0%Z |}.

Definition AddFrames (n : Z) (h : t) : t :=
  {| samples_per_second := samples_per_second h;
     base_timestamp := base_timestamp h;
     frame_count := (frame_count h + n)%Z |}.

(** [n / sample_rate] seconds. *)
Definition frames_to_seconds (h : t) (n : Z) : Q :=
  Qdiv (inject_Z n) (inject_Z (samples_per_second h)).

Definition GetTimestamp (h : t) : TimeDelta :=
  match base_timestamp h with
  | Some base => Some (Qplus base (frames_to_seconds h (frame_count h)))
  | None => kNoTimestamp
  end.

Definition GetFrameDuration (h : t) (n : Z) : TimeDelta :=
  Some (frames_to_seconds h n).

End AudioTimestampHelper.

(** ** Callbacks, weak pointers and continuations *)

(** A [base::Callback] handle: null, a callback supplied by the caller, or
    the wrapper [BindToCurrentLoop] builds around a callback. *)
Inductive Callback : Set :=
| NullCallback
| CallerCallback (id : nat)
| BoundToLoop (cb : Callback).

Definition is_null (cb : Callback) : bool :=
  match cb with NullCallback => true | _ => false end.

Definition BindToCurrentLoop (cb : Callback) : Callback := BoundToLoop cb.

(** A [base::WeakPtr] to the stage.  The factory counts its invalidations;
    a pointer remembers the count at which it was handed out and is valid
    only while the factory still shows that count.  The default-constructed
    pointer is [None]. *)
Definition WeakPtr : Type := option nat.

(** The member functions the stage binds to [weak_this_] and hands to its
    collaborators. *)
Inductive Continuation : Type :=
| KSetDecryptor (weak_this : WeakPtr)
| KFinishInitialization (weak_this : WeakPtr)
| KDeliverFrame (weak_this : WeakPtr) (buffer_size : Z)
| KOnKeyAdded (weak_this : WeakPtr).

(** What the stage does to the outside world, in program order. *)
Inductive Event : Type :=
| Run_init_cb (cb : Callback) (status : PipelineStatus)
| Run_decode_cb (cb : Callback) (status : AudioDecoderStatus)
    (frame : option AudioBuffer.t)
| Run_reset_cb (cb : Callback)
| Run_set_decryptor_ready_cb (cb : Callback)
    (decryptor_ready_cb : option Continuation)
| PostTask (closure : Callback)
| Decryptor_InitializeAudioDecoder (decryptor : Decryptor)
    (config : AudioDecoderConfig.t) (init_cb : Continuation)
| Decryptor_DecryptAndDecodeAudio (decryptor : Decryptor)
    (encrypted : DecoderBuffer.t) (audio_decode_cb : Continuation)
| Decryptor_ResetDecoder (decryptor : Decryptor)
| Decryptor_DeinitializeDecoder (decryptor : Decryptor)
| Decryptor_RegisterNewKeyCB (decryptor : Decryptor)
    (key_added_cb : Continuation).

(** ** The stage object *)

Inductive State : Set :=
| kUninitialized
| kDecryptorRequested
| kPendingDecoderInit
| kIdle
| kPendingDecode
| kWaitingForKey
| kDecodeFinished
| kStopped.

Definition State_eqb (a b : State) : bool :=
  match a, b with
  | kUninitialized, kUninitialized
  | kDecryptorRequested, kDecryptorRequested
  | kPendingDecoderInit, kPendingDecoderInit
  | kIdle, kIdle
  | kPendingDecode, kPendingDecode
  | kWaitingForKey, kWaitingForKey
  | kDecodeFinished, kDecodeFinished
  | kStopped, kStopped => true
  | _, _ => false
  end.

Definition kSupportedBitsPerChannel : Z := 16%Z.

Record DecryptingAudioDecoder : Type := mkDecoder {
  state_ : State;
  init_cb_ : Callback;
  decode_cb_ : Callback;
  reset_cb_ : Callback;
  set_decryptor_ready_cb_ : Callback;
  config_ : AudioDecoderConfig.t;
  decryptor_ : option Decryptor;
  pending_buffer_to_decode_ : option DecoderBuffer.t;
  key_added_while_decode_pending_ : bool;
  queued_audio_frames_ : list AudioBuffer.t;
  bits_per_channel_ : Z;
  channel_layout_ : ChannelLayout;
  samples_per_second_ : Z;
  timestamp_helper_ : option AudioTimestampHelper.t;
  weak_factory_ : nat;
  weak_this_ : WeakPtr
}.

(** The constructor's member initialisers. *)
Definition constructed (set_decryptor_ready_cb : Callback)
  : DecryptingAudioDecoder :=
  {| state_ := kUninitialized;
     init_cb_ := NullCallback;
     decode_cb_ := NullCallback;
     reset_cb_ := NullCallback;
     set_decryptor_ready_cb_ := set_decryptor_ready_cb;
     config_ := AudioDecoderConfig.default;
     decryptor_ := None;
     pending_buffer_to_decode_ := None;
     key_added_while_decode_pending_ := false;
     queued_audio_frames_ := [];
     bits_per_channel_ := 0%Z;
     channel_layout_ := CHANNEL_LAYOUT_NONE;
     samples_per_second_ := 0%Z;
     timestamp_helper_ := None;
     weak_factory_ := 0%nat;
     weak_this_ := None |}.

(** Assignments to single members. *)
Definition set_state (v : State) (d : DecryptingAudioDecoder) :=
  mkDecoder v (init_cb_ d) (decode_cb_ d) (reset_cb_ d)
    (set_decryptor_ready_cb_ d) (config_ d) (decryptor_ d)
    (pending_buffer_to_decode_ d) (key_added_while_decode_pending_ d)
    (queued_audio_frames_ d) (bits_per_channel_ d) (channel_layout_ d)
    (samples_per_second_ d) (timestamp_helper_ d) (weak_factory_ d)
    (weak_this_ d).

Definition set_init_cb (v : Callback) (d : DecryptingAudioDecoder) :=
  mkDecoder (state_ d) v (decode_cb_ d) (reset_cb_ d)
    (set_decryptor_ready_cb_ d) (config_ d) (decryptor_ d)
    (pending_buffer_to_decode_ d) (key_added_while_decode_pending_ d)
    (queued_audio_frames_ d) (bits_per_channel_ d) (channel_layout_ d)
    (samples_per_second_ d) (timestamp_helper_ d) (weak_factory_ d)
    (weak_this_ d).

Definition set_decode_cb (v : Callback) (d : DecryptingAudioDecoder) :=
  mkDecoder (state_ d) (init_cb_ d) v (reset_cb_ d)
    (set_decryptor_ready_cb_ d) (config_ d) (decryptor_ d)
    (pending_buffer_to_decode_ d) (key_added_while_decode_pending_ d)
    (queued_audio_frames_ d) (bits_per_channel_ d) (channel_layout_ d)
    (samples_per_second_ d) (timestamp_helper_ d) (weak_factory_ d)
    (weak_this_ d).

Definition set_reset_cb (v : Callback) (d : DecryptingAudioDecoder) :=
  mkDecoder (state_ d) (init_cb_ d) (decode_cb_ d) v
    (set_decryptor_ready_cb_ d) (config_ d) (decryptor_ d)
    (pending_buffer_to_decode_ d) (key_added_while_decode_pending_ d)
    (queued_audio_frames_ d) (bits_per_channel_ d) (channel_layout_ d)
    (samples_per_second_ d) (timestamp_helper_ d) (weak_factory_ d)
    (weak_this_ d).

Definition set_set_decryptor_ready_cb (v : Callback)
    (d : DecryptingAudioDecoder) :=
  mkDecoder (state_ d) (init_cb_ d) (decode_cb_ d) (reset_cb_ d)
    v (config_ d) (decryptor_ d)
    (pending_buffer_to_decode_ d) (key_added_while_decode_pending_ d)
    (queued_audio_frames_ d) (bits_per_channel_ d) (channel_layout_ d)
    (samples_per_second_ d) (timestamp_helper_ d) (weak_factory_ d)
    (weak_this_ d).

Definition set_config (v : AudioDecoderConfig.t)
    (d : DecryptingAudioDecoder) :=
  mkDecoder (state_ d) (init_cb_ d) (decode_cb_ d) (reset_cb_ d)
    (set_decryptor_ready_cb_ d) v (decryptor_ d)
    (pending_buffer_to_decode_ d) (key_added_while_decode_pending_ d)
    (queued_audio_frames_ d) (bits_per_channel_ d) (channel_layout_ d)
    (samples_per_second_ d) (timestamp_helper_ d) (weak_factory_ d)
    (weak_this_ d).

Definition set_decryptor (v : option Decryptor)
    (d : DecryptingAudioDecoder) :=
  mkDecoder (state_ d) (init_cb_ d) (decode_cb_ d) (reset_cb_ d)
    (set_decryptor_ready_cb_ d) (config_ d) v
    (pending_buffer_to_decode_ d) (key_added_while_decode_pending_ d)
    (queued_audio_frames_ d) (bits_per_channel_ d) (channel_layout_ d)
    (samples_per_second_ d) (timestamp_helper_ d) (weak_factory_ d)
    (weak_this_ d).

Definition set_pending_buffer_to_decode (v : option DecoderBuffer.t)
    (d : DecryptingAudioDecoder) :=
  mkDecoder (state_ d) (init_cb_ d) (decode_cb_ d) (reset_cb_ d)
    (set_decryptor_ready_cb_ d) (config_ d) (decryptor_ d)
    v (key_added_while_decode_pending_ d)
    (queued_audio_frames_ d) (bits_per_channel_ d) (channel_layout_ d)
    (samples_per_second_ d) (timestamp_helper_ d) (weak_factory_ d)
    (weak_this_ d).

Definition set_key_added_while_decode_pending (v : bool)
    (d : DecryptingAudioDecoder) :=
  mkDecoder (state_ d) (init_cb_ d) (decode_cb_ d) (reset_cb_ d)
    (set_decryptor_ready_cb_ d) (config_ d) (decryptor_ d)
    (pending_buffer_to_decode_ d) v
    (queued_audio_frames_ d) (bits_per_channel_ d) (channel_layout_ d)
    (samples_per_second_ d) (timestamp_helper_ d) (weak_factory_ d)
    (weak_this_ d).

Definition set_queued_audio_frames (v : list AudioBuffer.t)
    (d : DecryptingAudioDecoder) :=
  mkDecoder (state_ d) (init_cb_ d) (decode_cb_ d) (reset_cb_ d)
    (set_decryptor_ready_cb_ d) (config_ d) (decryptor_ d)
    (pending_buffer_to_decode_ d) (key_added_while_decode_pending_ d)
    v (bits_per_channel_ d) (channel_layout_ d)
    (samples_per_second_ d) (timestamp_helper_ d) (weak_factory_ d)
    (weak_this_ d).

Definition set_output_format (bits : Z) (layout : ChannelLayout) (rate : Z)
    (d : DecryptingAudioDecoder) :=
  mkDecoder (state_ d) (init_cb_ d) (decode_cb_ d) (reset_cb_ d)
    (set_decryptor_ready_cb_ d) (config_ d) (decryptor_ d)
    (pending_buffer_to_decode_ d) (key_added_while_decode_pending_ d)
    (queued_audio_frames_ d) bits layout rate
    (timestamp_helper_ d) (weak_factory_ d) (weak_this_ d).

Definition set_timestamp_helper (v : option AudioTimestampHelper.t)
    (d : DecryptingAudioDecoder) :=
  mkDecoder (state_ d) (init_cb_ d) (decode_cb_ d) (reset_cb_ d)
    (set_decryptor_ready_cb_ d) (config_ d) (decryptor_ d)
    (pending_buffer_to_decode_ d) (key_added_while_decode_pending_ d)
    (queued_audio_frames_ d) (bits_per_channel_ d) (channel_layout_ d)
    (samples_per_second_ d) v (weak_factory_ d) (weak_this_ d).

Definition set_weak_factory (v : nat) (d : DecryptingAudioDecoder) :=
  mkDecoder (state_ d) (init_cb_ d) (decode_cb_ d) (reset_cb_ d)
    (set_decryptor_ready_cb_ d) (config_ d) (decryptor_ d)
    (pending_buffer_to_decode_ d) (key_added_while_decode_pending_ d)
    (queued_audio_frames_ d) (bits_per_channel_ d) (channel_layout_ d)
    (samples_per_second_ d) (timestamp_helper_ d) v (weak_this_ d).

Definition set_weak_this (v : WeakPtr) (d : DecryptingAudioDecoder) :=
  mkDecoder (state_ d) (init_cb_ d) (decode_cb_ d) (reset_cb_ d)
    (set_decryptor_ready_cb_ d) (config_ d) (decryptor_ d)
    (pending_buffer_to_decode_ d) (key_added_while_decode_pending_ d)
    (queued_audio_frames_ d) (bits_per_channel_ d) (channel_layout_ d)
    (samples_per_second_ d) (timestamp_helper_ d) (weak_factory_ d) v.

(** [weak_factory_.GetWeakPtr()] and the validity test a bound callback
    makes before it runs. *)
Definition GetWeakPtr (d : DecryptingAudioDecoder) : WeakPtr :=
  Some (weak_factory_ d).

Definition weak_valid (w : WeakPtr) (d : DecryptingAudioDecoder) : bool :=
  match w with
  | Some n => Nat.eqb n (weak_factory_ d)
  | None => false
  end.

(** ** The monad of member functions *)

Inductive Fatal : Set :=
| DCheckFailure      (* a DCHECK that does not hold, in a build that checks *)
| CheckFailure       (* a CHECK that does not hold *)
| NullDereference.   (* a call through a null pointer or callback *)

Inductive Outcome (A : Type) : Type :=
| Returned (a : A) (d : DecryptingAudioDecoder) (out : list Event)
| Crashed (f : Fatal).

Arguments Returned {A} a d out.
Arguments Crashed {A} f.

Definition M (A : Type) : Type := DecryptingAudioDecoder -> Outcome A.

Definition ret {A : Type} (a : A) : M A := fun d => Returned a d [].

Definition bind {A B : Type} (m : M A) (k : A -> M B) : M B :=
  fun d =>
    match m d with
    | Crashed f => Crashed f
    | Returned a d1 out1 =>
        match k a d1 with
        | Crashed f => Crashed f
        | Returned b d2 out2 => Returned b d2 (out1 ++ out2)
        end
    end.

Notation "x <- m ;; k" := (bind m (fun x => k))
  (at level 61, m at next level, right associativity).
Notation "m ;; k" := (bind m (fun _ => k))
  (at level 61, right associativity).

Definition this : M DecryptingAudioDecoder := fun d => Returned d d [].

Definition assign (f : DecryptingAudioDecoder -> DecryptingAudioDecoder)
  : M unit := fun d => Returned tt (f d) [].

Definition emit (e : Event) : M unit := fun d => Returned tt d [e].

Definition crash {A : Type} (f : Fatal) : M A := fun _ => Crashed f.

Definition CHECK (cond : bool) : M unit :=
  if cond then ret tt else crash CheckFailure.

(** [p->...] on a pointer that may be null. *)
Definition deref {A : Type} (p : option A) : M A :=
  match p with
  | Some a => ret a
  | None => crash NullDereference
  end.

(** [base::ResetAndReturn(&cb_)]: hand out the member and leave it null. *)
Definition ResetAndReturn (get : DecryptingAudioDecoder -> Callback)
    (set : Callback -> DecryptingAudioDecoder -> DecryptingAudioDecoder)
  : M Callback :=
  d <- this ;;
  assign (set NullCallback) ;;
  ret (get d).

(** [cb.Run(...)]: running a null callback is fatal. *)
Definition Run (cb : Callback) (e : Callback -> Event) : M unit :=
  if is_null cb then crash NullDereference else emit (e cb).

(** ** Member functions *)

Section Stage.

(** Whether the build checks its DCHECKs ([DCHECK_IS_ON]); a CHECK is
    checked in every build. *)
Variable dcheck_is_on : bool.

(** [AudioDecoderConfig::IsValidConfig], defined in
    [media/base/audio_decoder_config.cc], which is not part of the sources
    at hand: taken as a parameter. *)
Variable IsValidConfig : AudioDecoderConfig.t -> bool.

Definition DCHECK (cond : bool) : M unit :=
  if dcheck_is_on && negb cond then crash DCheckFailure else ret tt.

Definition InitializeDecoder : M unit :=
  d <- this ;;
  (* Force to use S16 due to limitations of the CDM. *)
  assign (set_config
    (AudioDecoderConfig.Initialize
       (AudioDecoderConfig.codec (config_ d))
       kSampleFormatS16
       (AudioDecoderConfig.channel_layout (config_ d))
       (AudioDecoderConfig.samples_per_second (config_ d))
       (AudioDecoderConfig.extra_data (config_ d))
       (AudioDecoderConfig.extra_data_size (config_ d))
       (AudioDecoderConfig.is_encrypted (config_ d))
       false
       (Some 0%Q)
       (Some 0%Q))) ;;
  assign (set_state kPendingDecoderInit) ;;
  d <- this ;;
  decryptor <- deref (decryptor_ d) ;;
  emit (Decryptor_InitializeAudioDecoder decryptor (config_ d)
          (KFinishInitialization (weak_this_ d))).

Definition Initialize (config : AudioDecoderConfig.t) (status_cb : Callback)
  : M unit :=
  d <- this ;;
  DCHECK (is_null (decode_cb_ d)) ;;
  DCHECK (is_null (reset_cb_ d)) ;;
  assign (set_weak_this (GetWeakPtr d)) ;;
  assign (set_init_cb (BindToCurrentLoop status_cb)) ;;
  if negb (IsValidConfig config) then
    cb <- ResetAndReturn init_cb_ set_init_cb ;;
    Run cb (fun cb => Run_init_cb cb PIPELINE_ERROR_DECODE)
  else if negb (AudioDecoderConfig.is_encrypted config) then
    (* DecryptingAudioDecoder only accepts potentially encrypted stream. *)
    cb <- ResetAndReturn init_cb_ set_init_cb ;;
    Run cb (fun cb => Run_init_cb cb DECODER_ERROR_NOT_SUPPORTED)
  else
    assign (set_config config) ;;
    d <- this ;;
    if State_eqb (state_ d) kUninitialized then
      assign (set_state kDecryptorRequested) ;;
      Run (set_decryptor_ready_cb_ d)
        (fun cb => Run_set_decryptor_ready_cb cb
                     (Some (KSetDecryptor (weak_this_ d))))
    else
      (* Reinitialization (i.e. upon a config change) *)
      decryptor <- deref (decryptor_ d) ;;
      emit (Decryptor_DeinitializeDecoder decryptor) ;;
      InitializeDecoder.

Definition DecodePendingBuffer : M unit :=
  d <- this ;;
  DCHECK (State_eqb (state_ d) kPendingDecode) ;;
  pending <- deref (pending_buffer_to_decode_ d) ;;
  let buffer_size :=
    if negb (DecoderBuffer.end_of_stream pending)
    then DecoderBuffer.data_size pending
    else 0%Z in
  decryptor <- deref (decryptor_ d) ;;
  emit (Decryptor_DecryptAndDecodeAudio decryptor pending
          (KDeliverFrame (weak_this_ d) buffer_size)).

Definition Decode (buffer : option DecoderBuffer.t) (decode_cb : Callback)
  : M unit :=
  d <- this ;;
  DCHECK (State_eqb (state_ d) kIdle || State_eqb (state_ d) kDecodeFinished) ;;
  DCHECK (negb (is_null decode_cb)) ;;
  CHECK (is_null (decode_cb_ d)) ;;
  assign (set_decode_cb (BindToCurrentLoop decode_cb)) ;;
  (* Return empty (end-of-stream) frames if decoding has finished. *)
  if State_eqb (state_ d) kDecodeFinished then
    cb <- ResetAndReturn decode_cb_ set_decode_cb ;;
    Run cb (fun cb => Run_decode_cb cb kOk (Some AudioBuffer.CreateEOSBuffer))
  else
    match queued_audio_frames_ d with
    | front :: rest =>
        DCHECK (match buffer with None => true | Some _ => false end) ;;
        cb <- ResetAndReturn decode_cb_ set_decode_cb ;;
        Run cb (fun cb => Run_decode_cb cb kOk (Some front)) ;;
        assign (set_queued_audio_frames rest)
    | [] =>
        (* Seed the running timestamp from the first non-EOS buffer. *)
        helper <- deref (timestamp_helper_ d) ;;
        (if is_kNoTimestamp (AudioTimestampHelper.base_timestamp helper)
         then
           b <- deref buffer ;;
           if negb (DecoderBuffer.end_of_stream b) then
             assign (set_timestamp_helper
               (Some (AudioTimestampHelper.SetBaseTimestamp
                        (DecoderBuffer.timestamp b) helper)))
           else ret tt
         else ret tt) ;;
        assign (set_pending_buffer_to_decode buffer) ;;
        assign (set_state kPendingDecode) ;;
        DecodePendingBuffer
    end.

Definition GetDecodeOutput : M (option AudioBuffer.t) :=
  d <- this ;;
  match queued_audio_frames_ d with
  | [] => ret None
  | out :: rest =>
      assign (set_queued_audio_frames rest) ;;
      ret (Some out)
  end.

Definition DoReset : M unit :=
  d <- this ;;
  DCHECK (is_null (init_cb_ d)) ;;
  DCHECK (is_null (decode_cb_ d)) ;;
  helper <- deref (timestamp_helper_ d) ;;
  assign (set_timestamp_helper
    (Some (AudioTimestampHelper.SetBaseTimestamp kNoTimestamp helper))) ;;
  assign (set_state kIdle) ;;
  cb <- ResetAndReturn reset_cb_ set_reset_cb ;;
  Run cb Run_reset_cb.

Definition Reset (closure : Callback) : M unit :=
  d <- this ;;
  DCHECK (State_eqb (state_ d) kIdle ||
          State_eqb (state_ d) kPendingDecode ||
          State_eqb (state_ d) kWaitingForKey ||
          State_eqb (state_ d) kDecodeFinished) ;;
  DCHECK (is_null (init_cb_ d)) ;;  (* No Reset() during pending initialization. *)
  DCHECK (is_null (reset_cb_ d)) ;;
  assign (set_reset_cb (BindToCurrentLoop closure)) ;;
  decryptor <- deref (decryptor_ d) ;;
  emit (Decryptor_ResetDecoder decryptor) ;;
  (* Reset() cannot complete if the read callback is still pending: the
     resetting process is deferred until DeliverFrame(). *)
  if State_eqb (state_ d) kPendingDecode then
    DCHECK (negb (is_null (decode_cb_ d)))
  else
    (if State_eqb (state_ d) kWaitingForKey then
       DCHECK (negb (is_null (decode_cb_ d))) ;;
       assign (set_pending_buffer_to_decode None) ;;
       cb <- ResetAndReturn decode_cb_ set_decode_cb ;;
       Run cb (fun cb => Run_decode_cb cb kAborted None)
     else ret tt) ;;
    d <- this ;;
    DCHECK (is_null (decode_cb_ d)) ;;
    DoReset.

Definition Stop (closure : Callback) : M unit :=
  (* Invalidate all weak pointers so that pending callbacks won't be fired
     into this object. *)
  d <- this ;;
  assign (set_weak_factory (S (weak_factory_ d))) ;;
  match decryptor_ d with
  | Some decryptor =>
      emit (Decryptor_DeinitializeDecoder decryptor) ;;
      assign (set_decryptor None)
  | None => ret tt
  end ;;
  (if negb (is_null (set_decryptor_ready_cb_ d)) then
     cb <- ResetAndReturn set_decryptor_ready_cb_ set_set_decryptor_ready_cb ;;
     Run cb (fun cb => Run_set_decryptor_ready_cb cb None)
   else ret tt) ;;
  assign (set_pending_buffer_to_decode None) ;;
  (if negb (is_null (init_cb_ d)) then
     cb <- ResetAndReturn init_cb_ set_init_cb ;;
     Run cb (fun cb => Run_init_cb cb DECODER_ERROR_NOT_SUPPORTED)
   else ret tt) ;;
  (if negb (is_null (decode_cb_ d)) then
     cb <- ResetAndReturn decode_cb_ set_decode_cb ;;
     Run cb (fun cb => Run_decode_cb cb kAborted None)
   else ret tt) ;;
  (if negb (is_null (reset_cb_ d)) then
     cb <- ResetAndReturn reset_cb_ set_reset_cb ;;
     Run cb Run_reset_cb
   else ret tt) ;;
  assign (set_state kStopped) ;;
  emit (PostTask closure).

Definition bits_per_channel (d : DecryptingAudioDecoder) : Z :=
  bits_per_channel_ d.

Definition channel_layout (d : DecryptingAudioDecoder) : ChannelLayout :=
  channel_layout_ d.

Definition samples_per_second (d : DecryptingAudioDecoder) : Z :=
  samples_per_second_ d.

Definition SetDecryptor (decryptor : option Decryptor) : M unit :=
  d <- this ;;
  DCHECK (State_eqb (state_ d) kDecryptorRequested) ;;
  DCHECK (negb (is_null (init_cb_ d))) ;;
  DCHECK (negb (is_null (set_decryptor_ready_cb_ d))) ;;
  assign (set_set_decryptor_ready_cb NullCallback) ;;
  match decryptor with
  | None =>
      cb <- ResetAndReturn init_cb_ set_init_cb ;;
      Run cb (fun cb => Run_init_cb cb DECODER_ERROR_NOT_SUPPORTED) ;;
      assign (set_state kStopped)
  | Some _ =>
      assign (set_decryptor decryptor) ;;
      InitializeDecoder
  end.

Definition UpdateDecoderConfig : M unit :=
  d <- this ;;
  assign (set_output_format kSupportedBitsPerChannel
            (AudioDecoderConfig.channel_layout (config_ d))
            (AudioDecoderConfig.samples_per_second (config_ d))) ;;
  d <- this ;;
  assign (set_timestamp_helper
            (Some (AudioTimestampHelper.new (samples_per_second_ d)))).

Definition FinishInitialization (success : bool) : M unit :=
  d <- this ;;
  DCHECK (State_eqb (state_ d) kPendingDecoderInit) ;;
  DCHECK (negb (is_null (init_cb_ d))) ;;
  DCHECK (is_null (reset_cb_ d)) ;;   (* No Reset() before initialization finished. *)
  DCHECK (is_null (decode_cb_ d)) ;;  (* No Decode() before initialization finished. *)
  if negb success then
    cb <- ResetAndReturn init_cb_ set_init_cb ;;
    Run cb (fun cb => Run_init_cb cb DECODER_ERROR_NOT_SUPPORTED) ;;
    assign (set_state kStopped)
  else
    UpdateDecoderConfig ;;
    decryptor <- deref (decryptor_ d) ;;
    emit (Decryptor_RegisterNewKeyCB decryptor (KOnKeyAdded (weak_this_ d))) ;;
    assign (set_state kIdle) ;;
    cb <- ResetAndReturn init_cb_ set_init_cb ;;
    Run cb (fun cb => Run_init_cb cb PIPELINE_OK).

(** The loop of [EnqueueFrames].  It goes through the pointers in list
    order and writes timestamp and duration to the object each of them
    points to; it yields the objects as they stand after the loop.  A
    pointer that occurs again later in the list meets the object as the
    earlier turn left it and overwrites its stamps. *)
Fixpoint EnqueueFrames_loop (pointers : list nat)
    (objects : list AudioBuffer.t) : M (list AudioBuffer.t) :=
  match pointers with
  | [] => ret objects
  | p :: rest =>
      frame <- deref (AudioBuffers.object_at objects p) ;;
      DCHECK (negb (AudioBuffer.end_of_stream frame)) ;;
      DCHECK (0 <? AudioBuffer.frame_count frame)%Z ;;
      d <- this ;;
      helper <- deref (timestamp_helper_ d) ;;
      let current_time := AudioTimestampHelper.GetTimestamp helper in
      (* IsOutOfSync(current_time, frame->timestamp()) only guards a DVLOG. *)
      let frame1 := AudioBuffer.set_timestamp current_time frame in
      let frame2 :=
        AudioBuffer.set_duration
          (AudioTimestampHelper.GetFrameDuration helper
             (AudioBuffer.frame_count frame1)) frame1 in
      assign (set_timestamp_helper
        (Some (AudioTimestampHelper.AddFrames
                 (AudioBuffer.frame_count frame2) helper))) ;;
      EnqueueFrames_loop rest (AudioBuffers.write p frame2 objects)
  end.

(** The members hold every queued buffer as it stands when it is queued:
    [queued_audio_frames_] is read off the store before the loop and again
    after it, and the stage writes to a buffer nowhere but in the loop. *)
Definition EnqueueFrames (frames : AudioBuffers.t) : M unit :=
  assign (set_queued_audio_frames
            (AudioBuffers.listed (AudioBuffers.store frames)
               (AudioBuffers.pointers frames))) ;;
  objects <- EnqueueFrames_loop (AudioBuffers.pointers frames)
               (AudioBuffers.store frames) ;;
  assign (set_queued_audio_frames
            (AudioBuffers.listed objects (AudioBuffers.pointers frames))).

Definition DeliverFrame (buffer_size : Z) (status : DecryptorStatus)
    (frames : AudioBuffers.t) : M unit :=
  d <- this ;;
  DCHECK (State_eqb (state_ d) kPendingDecode) ;;
  DCHECK (negb (is_null (decode_cb_ d))) ;;
  DCHECK (match pending_buffer_to_decode_ d with
          | Some _ => true | None => false end) ;;
  DCHECK (match queued_audio_frames_ d with [] => true | _ => false end) ;;
  let need_to_try_again_if_nokey_is_returned :=
    key_added_while_decode_pending_ d in
  assign (set_key_added_while_decode_pending false) ;;
  let scoped_pending_buffer_to_decode := pending_buffer_to_decode_ d in
  assign (set_pending_buffer_to_decode None) ;;
  if negb (is_null (reset_cb_ d)) then
    cb <- ResetAndReturn decode_cb_ set_decode_cb ;;
    Run cb (fun cb => Run_decode_cb cb kAborted None) ;;
    DoReset
  else
    DCHECK (Bool.eqb (match status with kSuccess => true | _ => false end)
                     (negb (AudioBuffers.empty frames))) ;;
    match status with
    | kError =>
        assign (set_state kDecodeFinished) ;;
        cb <- ResetAndReturn decode_cb_ set_decode_cb ;;
        Run cb (fun cb => Run_decode_cb cb kDecodeError None)
    | kNoKey =>
        (* Set |pending_buffer_to_decode_| back as we need to try decoding
           the pending buffer again when new key is added. *)
        assign (set_pending_buffer_to_decode scoped_pending_buffer_to_decode) ;;
        if need_to_try_again_if_nokey_is_returned then
          (* The |state_| is still kPendingDecode. *)
          DecodePendingBuffer
        else
          assign (set_state kWaitingForKey)
    | kNeedMoreData =>
        pending <- deref scoped_pending_buffer_to_decode ;;
        if DecoderBuffer.end_of_stream pending then
          assign (set_state kDecodeFinished) ;;
          cb <- ResetAndReturn decode_cb_ set_decode_cb ;;
          Run cb (fun cb =>
                    Run_decode_cb cb kOk (Some AudioBuffer.CreateEOSBuffer))
        else
          assign (set_state kIdle) ;;
          cb <- ResetAndReturn decode_cb_ set_decode_cb ;;
          Run cb (fun cb => Run_decode_cb cb kNotEnoughData None)
    | kSuccess =>
        DCHECK (negb (AudioBuffers.empty frames)) ;;
        EnqueueFrames frames ;;
        assign (set_state kIdle) ;;
        d <- this ;;
        front <- deref (hd_error (queued_audio_frames_ d)) ;;
        cb <- ResetAndReturn decode_cb_ set_decode_cb ;;
        Run cb (fun cb => Run_decode_cb cb kOk (Some front)) ;;
        assign (set_queued_audio_frames (tl (queued_audio_frames_ d)))
    end.

Definition OnKeyAdded : M unit :=
  d <- this ;;
  if State_eqb (state_ d) kPendingDecode then
    assign (set_key_added_while_decode_pending true)
  else if State_eqb (state_ d) kWaitingForKey then
    assign (set_state kPendingDecode) ;;
    DecodePendingBuffer
  else ret tt.

(** A member function bound to a weak pointer: it runs only while the
    pointer is valid, otherwise the call is dropped. *)
Definition via_weak (w : WeakPtr) (m : M unit) : M unit :=
  fun d => if weak_valid w d then m d else Returned tt d [].

(** ** The stage among its collaborators

    The caller invokes the public member functions; the decryptor side fires
    the continuations it was handed.  A continuation can be fired only once
    it has been handed out; all but the key-added callback are one-shot. *)

Inductive Input : Type :=
| CallInitialize (config : AudioDecoderConfig.t) (status_cb : Callback)
| CallDecode (buffer : option DecoderBuffer.t) (decode_cb : Callback)
| CallGetDecodeOutput
| CallReset (closure : Callback)
| CallStop (closure : Callback)
| FireSetDecryptor (w : WeakPtr) (decryptor : option Decryptor)
| FireFinishInitialization (w : WeakPtr) (success : bool)
| FireDeliverFrame (w : WeakPtr) (buffer_size : Z)
    (status : DecryptorStatus) (frames : AudioBuffers.t)
| FireOnKeyAdded (w : WeakPtr).

Definition perform (i : Input) : M unit :=
  match i with
  | CallInitialize config status_cb => Initialize config status_cb
  | CallDecode buffer decode_cb => Decode buffer decode_cb
  | CallGetDecodeOutput => _ <- GetDecodeOutput ;; ret tt
  | CallReset closure => Reset closure
  | CallStop closure => Stop closure
  | FireSetDecryptor w decryptor => via_weak w (SetDecryptor decryptor)
  | FireFinishInitialization w success =>
      via_weak w (FinishInitialization success)
  | FireDeliverFrame w buffer_size status frames =>
      via_weak w (DeliverFrame buffer_size status frames)
  | FireOnKeyAdded w => via_weak w OnKeyAdded
  end.

Definition WeakPtr_eqb (a b : WeakPtr) : bool :=
  match a, b with
  | Some x, Some y => Nat.eqb x y
  | None, None => true
  | _, _ => false
  end.

Definition Continuation_eqb (a b : Continuation) : bool :=
  match a, b with
  | KSetDecryptor x, KSetDecryptor y => WeakPtr_eqb x y
  | KFinishInitialization x, KFinishInitialization y => WeakPtr_eqb x y
  | KDeliverFrame x n, KDeliverFrame y m => WeakPtr_eqb x y && Z.eqb n m
  | KOnKeyAdded x, KOnKeyAdded y => WeakPtr_eqb x y
  | _, _ => false
  end.

(** The continuations an event hands to a collaborator. *)
Definition handed_out (e : Event) : list Continuation :=
  match e with
  | Run_set_decryptor_ready_cb _ (Some k) => [k]
  | Decryptor_InitializeAudioDecoder _ _ k => [k]
  | Decryptor_DecryptAndDecodeAudio _ _ k => [k]
  | Decryptor_RegisterNewKeyCB _ k => [k]
  | _ => []
  end.

(** The continuation an input fires, if it is one. *)
Definition fired (i : Input) : option Continuation :=
  match i with
  | FireSetDecryptor w _ => Some (KSetDecryptor w)
  | FireFinishInitialization w _ => Some (KFinishInitialization w)
  | FireDeliverFrame w buffer_size _ _ => Some (KDeliverFrame w buffer_size)
  | FireOnKeyAdded w => Some (KOnKeyAdded w)
  | _ => None
  end.

Fixpoint remove_first (k : Continuation) (ks : list Continuation)
  : list Continuation :=
  match ks with
  | [] => []
  | k' :: rest =>
      if Continuation_eqb k k' then rest else k' :: remove_first k rest
  end.

Definition is_KDeliverFrame (k : Continuation) : bool :=
  match k with KDeliverFrame _ _ => true | _ => false end.

Definition is_KOnKeyAdded (k : Continuation) : bool :=
  match k with KOnKeyAdded _ => true | _ => false end.

Record World : Type := mkWorld {
  stage : DecryptingAudioDecoder;
  (* continuations handed out and still to be fired *)
  continuations : list Continuation;
  (* everything the stage did so far, oldest first *)
  history : list Event;
  (* the inputs that ran to completion so far, oldest first *)
  inputs : list Input
}.

Definition created (set_decryptor_ready_cb : Callback) : World :=
  {| stage := constructed set_decryptor_ready_cb;
     continuations := [];
     history := [];
     inputs := [] |}.

Definition enabled (i : Input) (w : World) : bool :=
  match fired i with
  | None => true
  | Some k => existsb (Continuation_eqb k) (continuations w)
  end.

Definition after_firing (i : Input) (ks : list Continuation)
  : list Continuation :=
  match fired i with
  | None => ks
  | Some k => if is_KOnKeyAdded k then ks else remove_first k ks
  end.

(** One input run to completion; [None] when the input is not enabled or
    the member function hits a fatal error. *)
Definition world_step (i : Input) (w : World) : option World :=
  if enabled i w then
    match perform i (stage w) with
    | Returned _ d out =>
        Some {| stage := d;
                continuations :=
                  after_firing i (continuations w) ++ flat_map handed_out out;
                history := history w ++ out;
                inputs := inputs w ++ [i] |}
    | Crashed _ => None
    end
  else None.

Inductive Reachable : World -> Prop :=
| Reachable_created (set_decryptor_ready_cb : Callback) :
    Reachable (created set_decryptor_ready_cb)
| Reachable_step (i : Input) (w w' : World) :
    Reachable w -> world_step i w = Some w' -> Reachable w'.

(** The decrypt requests the decryptor has not answered yet. *)
Definition outstanding_decrypts (w : World) : nat :=
  length (filter is_KDeliverFrame (continuations w)).

(** The decode callbacks run by a list of events, oldest first. *)
Definition decode_cbs_run (out : list Event) : list Callback :=
  flat_map (fun e => match e with
                     | Run_decode_cb cb _ _ => [cb]
                     | _ => []
                     end) out.

(** The decode callback still held by the stage, if any. *)
Definition decode_cb_held (d : DecryptingAudioDecoder) : list Callback :=
  if is_null (decode_cb_ d) then [] else [decode_cb_ d].

(** The callbacks of the [Decode] calls among a list of inputs, as the stage
    stores them. *)
Definition decode_cbs_given (calls : list Input) : list Callback :=
  flat_map (fun i => match i with
                     | CallDecode _ cb => [BindToCurrentLoop cb]
                     | _ => []
                     end) calls.

(** The decrypt requests among a list of events. *)
Definition decrypt_requests (out : list Event) : list DecoderBuffer.t :=
  flat_map (fun e => match e with
                     | Decryptor_DecryptAndDecodeAudio _ b _ => [b]
                     | _ => []
                     end) out.

(** Any call on the decryptor among a list of events. *)
Definition contacts_decryptor (e : Event) : bool :=
  match e with
  | Decryptor_InitializeAudioDecoder _ _ _
  | Decryptor_DecryptAndDecodeAudio _ _ _
  | Decryptor_ResetDecoder _
  | Decryptor_DeinitializeDecoder _
  | Decryptor_RegisterNewKeyCB _ _
  | Run_set_decryptor_ready_cb _ _ => true
  | _ => false
  end.

(** ** Auxiliary notions used by the statements *)

(** [n] consecutive calls of [GetDecodeOutput], collecting what they return. *)
Fixpoint GetDecodeOutput_repeatedly (n : nat)
  : M (list (option AudioBuffer.t)) :=
  match n with
  | O => ret []
  | S n' =>
      out <- GetDecodeOutput ;;
      outs <- GetDecodeOutput_repeatedly n' ;;
      ret (out :: outs)
  end.

(** The stage waits for the decryptor's answer to [buffer]: the state
    [DeliverFrame] checks on entry. *)
Definition awaiting_response (d : DecryptingAudioDecoder)
    (buffer : DecoderBuffer.t) : Prop :=
  state_ d = kPendingDecode /\
  is_null (decode_cb_ d) = false /\
  pending_buffer_to_decode_ d = Some buffer /\
  queued_audio_frames_ d = [].

(** The configuration [InitializeDecoder] builds from [config_]: the same
    codec, channel layout, sample rate, extra data and encryption flag, with
    the sample format replaced by [kSampleFormatS16]. *)
Definition forced_S16 (c : AudioDecoderConfig.t) : AudioDecoderConfig.t :=
  AudioDecoderConfig.Initialize
    (AudioDecoderConfig.codec c)
    kSampleFormatS16
    (AudioDecoderConfig.channel_layout c)
    (AudioDecoderConfig.samples_per_second c)
    (AudioDecoderConfig.extra_data c)
    (AudioDecoderConfig.extra_data_size c)
    (AudioDecoderConfig.is_encrypted c)
    false
    (Some 0%Q)
    (Some 0%Q).

(** The timestamp helper after [Decode] has looked at [buffer]: the base is
    set from the buffer when no base is set yet and the buffer is not an
    end-of-stream buffer. *)
Definition seeded (buffer : DecoderBuffer.t)
    (helper : AudioTimestampHelper.t) : AudioTimestampHelper.t :=
  if is_kNoTimestamp (AudioTimestampHelper.base_timestamp helper) &&
     negb (DecoderBuffer.end_of_stream buffer)
  then AudioTimestampHelper.SetBaseTimestamp
         (DecoderBuffer.timestamp buffer) helper
  else helper.

(** The [buffer_size] that [DecodePendingBuffer] binds into the answer. *)
Definition buffer_size_of (buffer : DecoderBuffer.t) : Z :=
  if negb (DecoderBuffer.end_of_stream buffer)
  then DecoderBuffer.data_size buffer
  else 0%Z.

(** The weak pointer a continuation is bound to. *)
Definition weak_of (k : Continuation) : WeakPtr :=
  match k with
  | KSetDecryptor w
  | KFinishInitialization w
  | KDeliverFrame w _
  | KOnKeyAdded w => w
  end.

(** A weak pointer that the factory can have handed out: null, or taken
    when the factory had been invalidated at most [gen] times. *)
Definition weak_issued (gen : nat) (w : WeakPtr) : Prop :=
  match w with
  | Some g => (g <= gen)%nat
  | None => True
  end.

Definition weak_ptrs_issued (w : World) : Prop :=
  weak_issued (weak_factory_ (stage w)) (weak_this_ (stage w)) /\
  Forall (fun k => weak_issued (weak_factory_ (stage w)) (weak_of k))
         (continuations w).

(** Several inputs in a row. *)
Fixpoint world_steps (inputs : list Input) (w : World) : option World :=
  match inputs with
  | [] => Some w
  | i :: rest =>
      match world_step i w with
      | Some w' => world_steps rest w'
      | None => None
      end
  end.

(** What [Stop] emits on a stage [d]: the decoder is deinitialised if a
    decryptor is set, then each callback that is still held is run once, in
    this order, and finally [closure] is posted. *)
Definition Stop_events (d : DecryptingAudioDecoder) (closure : Callback)
  : list Event :=
  match decryptor_ d with
  | Some dec => [Decryptor_DeinitializeDecoder dec]
  | None => []
  end ++
  (if is_null (set_decryptor_ready_cb_ d) then []
   else [Run_set_decryptor_ready_cb (set_decryptor_ready_cb_ d) None]) ++
  (if is_null (init_cb_ d) then []
   else [Run_init_cb (init_cb_ d) DECODER_ERROR_NOT_SUPPORTED]) ++
  (if is_null (decode_cb_ d) then []
   else [Run_decode_cb (decode_cb_ d) kAborted None]) ++
  (if is_null (reset_cb_ d) then []
   else [Run_reset_cb (reset_cb_ d)]) ++
  [PostTask closure].

(** The stage after [Stop]. *)
Definition stopped (d : DecryptingAudioDecoder) : DecryptingAudioDecoder :=
  set_state kStopped
    (set_reset_cb NullCallback
       (set_decode_cb NullCallback
          (set_init_cb NullCallback
             (set_pending_buffer_to_decode None
                (set_set_decryptor_ready_cb NullCallback
                   (set_decryptor None
                      (set_weak_factory (S (weak_factory_ d)) d))))))).

(** The decrypt requests among a list of continuations. *)
Definition decrypts (ks : list Continuation) : nat :=
  length (filter is_KDeliverFrame ks).

(** A continuation whose weak pointer is not valid on stage [d]. *)
Definition dead (d : DecryptingAudioDecoder) (k : Continuation) : Prop :=
  weak_valid (weak_of k) d = false.

(** A stage that has been stopped: the decryptor is released and every
    continuation handed out is dead. *)
Definition torn_down (d : DecryptingAudioDecoder)
    (ks : list Continuation) : Prop :=
  state_ d = kStopped /\
  decryptor_ d = None /\
  Forall (dead d) ks.

(** The single-flight invariant: at most one decrypt request is outstanding;
    while one is outstanding on a live stage, the decode callback is held,
    the stage does not wait for a key and nothing is queued; and a stage
    that waits for a key holds the decode callback and has nothing queued. *)
Definition single_flight (d : DecryptingAudioDecoder)
    (ks : list Continuation) : Prop :=
  (decrypts ks <= 1)%nat /\
  (decrypts ks = 1%nat ->
   torn_down d ks \/
   (is_null (decode_cb_ d) = false /\
    state_ d <> kWaitingForKey /\
    queued_audio_frames_ d = [])) /\
  (state_ d = kWaitingForKey ->
   is_null (decode_cb_ d) = false /\
   queued_audio_frames_ d = []).

(** What the CHECK of [Decode] relies on: a stage that accepts [Decode]
    holds no decode callback. *)
Definition accepts_decode (d : DecryptingAudioDecoder) : Prop :=
  state_ d = kIdle \/ state_ d = kDecodeFinished ->
  is_null (decode_cb_ d) = true.

(** ** Reconstructed timestamps *)


(** The helper after it has counted [frames]. *)
Fixpoint advanced (h : AudioTimestampHelper.t) (frames : list AudioBuffer.t)
  : AudioTimestampHelper.t :=
  match frames with
  | [] => h
  | f :: rest =>
      advanced
        (AudioTimestampHelper.AddFrames (AudioBuffer.frame_count f) h) rest
  end.

(** What [EnqueueFrames] asserts of every frame the decryptor returns. *)
Definition decoded_frame (f : AudioBuffer.t) : Prop :=
  AudioBuffer.end_of_stream f = false /\
  (0 < AudioBuffer.frame_count f)%Z.

(** A pointer to a frame that [EnqueueFrames] accepts. *)
Definition points_to_decoded (objects : list AudioBuffer.t) (p : nat)
  : Prop :=
  exists f, AudioBuffers.object_at objects p = Some f /\ decoded_frame f.

(** An answer all of whose pointers point to frames that [EnqueueFrames]
    accepts. *)
Definition decoded_answer (frames : AudioBuffers.t) : Prop :=
  Forall (points_to_decoded (AudioBuffers.store frames))
         (AudioBuffers.pointers frames).

(** An answer that lists no buffer twice: its pointers point to distinct
    objects. *)
Definition alias_free (frames : AudioBuffers.t) : Prop :=
  NoDup (AudioBuffers.pointers frames).

(** The frames of an answer in arrival order, as the decryptor hands them
    over. *)
Definition frames_in (frames : AudioBuffers.t) : list AudioBuffer.t :=
  AudioBuffers.listed (AudioBuffers.store frames)
    (AudioBuffers.pointers frames).

(** The frame [f] after the loop of [EnqueueFrames] has written the
    running timestamp and the duration of its frames to it. *)
Definition stamped (h : AudioTimestampHelper.t) (f : AudioBuffer.t)
  : AudioBuffer.t :=
  AudioBuffer.set_duration
    (AudioTimestampHelper.GetFrameDuration h (AudioBuffer.frame_count f))
    (AudioBuffer.set_timestamp (AudioTimestampHelper.GetTimestamp h) f).

(** A frame whose duration is [frame_count / sample_rate]. *)
Definition duration_by_count (rate : Z) (f : AudioBuffer.t) : Prop :=
  AudioBuffer.duration f =
  Some (Qdiv (inject_Z (AudioBuffer.frame_count f)) (inject_Z rate)).



(** Two frames that differ at most in the timestamp and duration the
    decryptor attached to them. *)
Definition same_payload (f g : AudioBuffer.t) : Prop :=
  AudioBuffer.end_of_stream f = AudioBuffer.end_of_stream g /\
  AudioBuffer.frame_count f = AudioBuffer.frame_count g /\
  AudioBuffer.samples f = AudioBuffer.samples g.






(** Every answer of a list of rounds carries at least one frame, and only
    frames [EnqueueFrames] accepts. *)
Definition answers_decoded
    (rounds : list (DecoderBuffer.t * AudioBuffers.t)) : Prop :=
  Forall (fun round => AudioBuffers.pointers (snd round) <> [] /\
                       decoded_answer (snd round))
         rounds.

(** No answer of a list of rounds lists a buffer twice. *)
Definition answers_alias_free
    (rounds : list (DecoderBuffer.t * AudioBuffers.t)) : Prop :=
  Forall (fun round => alias_free (snd round)) rounds.


(** ** Sample values

    A caller's configuration, buffers and frames, and the stage and its
    world at the points a normal run goes through. *)

Definition sample_config : AudioDecoderConfig.t :=
  {| AudioDecoderConfig.codec := 1%Z;
     AudioDecoderConfig.sample_format := kSampleFormatF32;
     AudioDecoderConfig.channel_layout := 3%Z;
     AudioDecoderConfig.samples_per_second := 48000%Z;
     AudioDecoderConfig.extra_data := [];
     AudioDecoderConfig.is_encrypted := true;
     AudioDecoderConfig.seek_preroll := Some 0%Q;
     AudioDecoderConfig.codec_delay := Some 0%Q |}.

Definition sample_clear_config : AudioDecoderConfig.t :=
  {| AudioDecoderConfig.codec := 1%Z;
     AudioDecoderConfig.sample_format := kSampleFormatF32;
     AudioDecoderConfig.channel_layout := 3%Z;
     AudioDecoderConfig.samples_per_second := 48000%Z;
     AudioDecoderConfig.extra_data := [];
     AudioDecoderConfig.is_encrypted := false;
     AudioDecoderConfig.seek_preroll := Some 0%Q;
     AudioDecoderConfig.codec_delay := Some 0%Q |}.

(** A validity test to run the samples with: the sample rate is positive. *)
Definition sample_IsValidConfig (c : AudioDecoderConfig.t) : bool :=
  (0 <? AudioDecoderConfig.samples_per_second c)%Z.

Definition sample_buffer (end_of_stream : bool) (seconds : Q)
  : DecoderBuffer.t :=
  {| DecoderBuffer.end_of_stream := end_of_stream;
     DecoderBuffer.timestamp := Some seconds;
     DecoderBuffer.data := [1; 2; 3]%Z |}.

(** A frame as a decryptor returns it, with a timestamp of its own. *)
Definition sample_frame (frame_count : Z) (seconds : Q) : AudioBuffer.t :=
  {| AudioBuffer.end_of_stream := false;
     AudioBuffer.frame_count := frame_count;
     AudioBuffer.timestamp := Some seconds;
     AudioBuffer.duration := Some 0%Q;
     AudioBuffer.samples := [] |}.



Definition sample_inputs_to_idle : list Input :=
  [CallInitialize sample_config (CallerCallback 1);
   FireSetDecryptor (Some 0%nat) (Some 7%nat);
   FireFinishInitialization (Some 0%nat) true].

(** The stage after [sample_inputs_to_idle]. *)
Definition sample_idle : DecryptingAudioDecoder :=
  {| state_ := kIdle;
     init_cb_ := NullCallback;
     decode_cb_ := NullCallback;
     reset_cb_ := NullCallback;
     set_decryptor_ready_cb_ := NullCallback;
     config_ := forced_S16 sample_config;
     decryptor_ := Some 7%nat;
     pending_buffer_to_decode_ := None;
     key_added_while_decode_pending_ := false;
     queued_audio_frames_ := [];
     bits_per_channel_ := 16%Z;
     channel_layout_ := 3%Z;
     samples_per_second_ := 48000%Z;
     timestamp_helper_ := Some (AudioTimestampHelper.new 48000%Z);
     weak_factory_ := 0%nat;
     weak_this_ := Some 0%nat |}.

(** The stage after [Decode] of a sample buffer on [sample_idle], with the
    key-added flag and the reset closure as given. *)
Definition sample_pending (end_of_stream key_added : bool)
    (reset_cb : Callback) : DecryptingAudioDecoder :=
  set_reset_cb reset_cb
    (set_key_added_while_decode_pending key_added
       (set_state kPendingDecode
          (set_pending_buffer_to_decode
             (Some (sample_buffer end_of_stream 0%Q))
             (set_timestamp_helper
                (Some (seeded (sample_buffer end_of_stream 0%Q)
                         (AudioTimestampHelper.new 48000%Z)))
                (set_decode_cb (BindToCurrentLoop (CallerCallback 2))
                   sample_idle))))).

(** ** Further member functions and notions *)

(** [~DecryptingAudioDecoder]: the destructor only asserts the state. *)
Definition Destructor : M unit :=
  d <- this ;;
  DCHECK (State_eqb (state_ d) kUninitialized ||
          State_eqb (state_ d) kStopped).

(** The states in which the stage decodes: [Reset] accepts exactly these. *)
Definition decoding_state (s : State) : bool :=
  match s with
  | kIdle | kPendingDecode | kWaitingForKey | kDecodeFinished => true
  | _ => false
  end.

(** The inputs that can change the output queue. *)
Definition touches_queue (i : Input) : bool :=
  match i with
  | CallDecode _ _ | CallGetDecodeOutput | FireDeliverFrame _ _ _ _ => true
  | _ => false
  end.

(** What the DCHECKs of the member functions rely on, as a property of the
    members alone.  While the stage decodes it has its timestamp helper and
    its decryptor and holds no [Initialize] callback; while a request is
    pending or waits for a key the decode callback and the buffer are held
    and nothing is queued; otherwise no decode callback is held; a reset
    closure is held only while a request is pending and an [Initialize]
    callback only while the stage initialises; and the key-added flag
    is set only while a request is pending, or left over on a stage that
    [Stop] has released. *)
Definition consistent (d : DecryptingAudioDecoder) : Prop :=
  (decoding_state (state_ d) = true ->
   timestamp_helper_ d <> None /\
   decryptor_ d <> None /\
   is_null (init_cb_ d) = true) /\
  (state_ d = kPendingDecode \/ state_ d = kWaitingForKey ->
   is_null (decode_cb_ d) = false /\
   pending_buffer_to_decode_ d <> None /\
   queued_audio_frames_ d = []) /\
  (is_null (decode_cb_ d) = false ->
   state_ d = kPendingDecode \/ state_ d = kWaitingForKey) /\
  (is_null (reset_cb_ d) = false -> state_ d = kPendingDecode) /\
  (is_null (init_cb_ d) = false ->
   state_ d = kDecryptorRequested \/ state_ d = kPendingDecoderInit) /\
  (key_added_while_decode_pending_ d = true ->
   state_ d = kPendingDecode \/
   (state_ d = kStopped /\ decryptor_ d = None)).

(** The weak pointer of a stage in use is valid, and a pending request has
    its answer on the way: a continuation bound to that weak pointer is
    among those handed out. *)
Definition request_outstanding (d : DecryptingAudioDecoder)
    (ks : list Continuation) : Prop :=
  (state_ d <> kUninitialized -> state_ d <> kStopped ->
   weak_valid (weak_this_ d) d = true) /\
  (state_ d = kPendingDecode ->
   exists buffer_size : Z, In (KDeliverFrame (weak_this_ d) buffer_size) ks).

(** The reset closures run by a list of events, oldest first. *)
Definition reset_cbs_run (out : list Event) : list Callback :=
  flat_map (fun e => match e with
                     | Run_reset_cb cb => [cb]
                     | _ => []
                     end) out.

(** The reset closure still held by the stage, if any. *)
Definition reset_cb_held (d : DecryptingAudioDecoder) : list Callback :=
  if is_null (reset_cb_ d) then [] else [reset_cb_ d].

(** The closures of the [Reset] calls among a list of inputs, as the stage
    stores them. *)
Definition reset_cbs_given (calls : list Input) : list Callback :=
  flat_map (fun i => match i with
                     | CallReset closure => [BindToCurrentLoop closure]
                     | _ => []
                     end) calls.

(** Once the weak pointers have been invalidated the stage is torn down and
    no longer holds the callback it asks for a decryptor with. *)
Definition released (d : DecryptingAudioDecoder)
    (ks : list Continuation) : Prop :=
  weak_factory_ d <> 0%nat ->
  torn_down d ks /\ is_null (set_decryptor_ready_cb_ d) = true.

(** The inputs that can change the timestamp helper. *)
Definition touches_timestamps (i : Input) : bool :=
  match i with
  | CallDecode _ _ | CallReset _
  | FireFinishInitialization _ _ | FireDeliverFrame _ _ _ _ => true
  | _ => false
  end.


(** ** Reasoning about member functions *)

Arguments AudioBuffers.empty : simpl never.
Arguments AudioBuffers.listed : simpl never.

Lemma DCHECK_true : DCHECK true = ret tt.
Proof. unfold DCHECK. rewrite andb_false_r. reflexivity. Qed.

(** ** The output queue *)

Lemma GetDecodeOutput_eq (d : DecryptingAudioDecoder) :
  GetDecodeOutput d =
  Returned (hd_error (queued_audio_frames_ d))
           (set_queued_audio_frames (tl (queued_audio_frames_ d)) d) [].
Proof.
  destruct d as [? ? ? ? ? ? ? ? ? q ? ? ? ? ? ?].
  destruct q; reflexivity.
Qed.

Lemma set_queued_audio_frames_same (d : DecryptingAudioDecoder) :
  set_queued_audio_frames (queued_audio_frames_ d) d = d.
Proof. destruct d; reflexivity. Qed.

Lemma set_queued_audio_frames_twice (q q' : list AudioBuffer.t)
    (d : DecryptingAudioDecoder) :
  set_queued_audio_frames q (set_queued_audio_frames q' d) =
  set_queued_audio_frames q d.
Proof. reflexivity. Qed.

Lemma GetDecodeOutput_repeatedly_empty (extra : nat)
    (d : DecryptingAudioDecoder) :
  queued_audio_frames_ d = [] ->
  GetDecodeOutput_repeatedly extra d = Returned (repeat None extra) d [].
Proof.
  intros E. induction extra as [|n IH]; [reflexivity|].
  cbn [GetDecodeOutput_repeatedly repeat].
  unfold bind at 1. rewrite GetDecodeOutput_eq, E. cbn [hd_error tl].
  rewrite <- E, set_queued_audio_frames_same.
  unfold bind at 1. rewrite IH. reflexivity.
Qed.

Lemma GetDecodeOutput_repeatedly_drains (q : list AudioBuffer.t) :
  forall (d : DecryptingAudioDecoder) (extra : nat),
    queued_audio_frames_ d = q ->
    GetDecodeOutput_repeatedly (length q + extra) d =
    Returned (map Some q ++ repeat None extra)
             (set_queued_audio_frames [] d) [].
Proof.
  induction q as [|f q IH]; intros d extra E.
  - cbn [length Nat.add map app].
    rewrite GetDecodeOutput_repeatedly_empty by exact E.
    rewrite <- E, set_queued_audio_frames_same. reflexivity.
  - cbn [length Nat.add map app GetDecodeOutput_repeatedly].
    unfold bind at 1. rewrite GetDecodeOutput_eq, E. cbn [hd_error tl].
    unfold bind at 1. rewrite IH by reflexivity.
    rewrite set_queued_audio_frames_twice. reflexivity.
Qed.

(** C10.  [GetDecodeOutput] returns null on an empty queue and otherwise
    removes and returns the front frame; no other member changes and nothing
    is emitted.  Called repeatedly it yields the queued frames in FIFO
    order and null from then on. *)
Theorem GetDecodeOutput_fifo :
  (forall d : DecryptingAudioDecoder,
     GetDecodeOutput d =
     Returned (hd_error (queued_audio_frames_ d))
              (set_queued_audio_frames (tl (queued_audio_frames_ d)) d) [])
  /\
  (forall (d : DecryptingAudioDecoder) (extra : nat),
     GetDecodeOutput_repeatedly (length (queued_audio_frames_ d) + extra) d =
     Returned (map Some (queued_audio_frames_ d) ++ repeat None extra)
              (set_queued_audio_frames [] d) []).
Proof.
  split; [exact GetDecodeOutput_eq|].
  intros d extra. apply GetDecodeOutput_repeatedly_drains. reflexivity.
Qed.

(** Unfolds the member functions and the monad, then computes. *)
Ltac unfold_stage :=
  cbv beta delta
    [Initialize InitializeDecoder Decode DecodePendingBuffer DoReset Reset
     Stop SetDecryptor UpdateDecoderConfig FinishInitialization EnqueueFrames
     DeliverFrame OnKeyAdded via_weak perform GetDecodeOutput
     DCHECK CHECK bind ret this assign emit crash deref ResetAndReturn Run].

(** One rewriting step with a boolean fact at hand. *)
Ltac fact_step :=
  first
    [ rewrite andb_false_r | rewrite andb_true_r
    | rewrite orb_false_r | rewrite orb_true_r
    | match goal with
      | F : ?x = ?v |- context [?x] =>
          lazymatch v with true => idtac | false => idtac end;
          lazymatch x with true => fail | false => fail | _ => idtac end;
          rewrite F
      end ].

Ltac compute_stage :=
  unfold_stage; cbn; repeat (fact_step; cbn).

Ltac fact_step_in H :=
  first
    [ rewrite andb_false_r in H | rewrite andb_true_r in H
    | rewrite orb_false_r in H | rewrite orb_true_r in H
    | match goal with
      | F : ?x = ?v |- _ =>
          lazymatch v with true => idtac | false => idtac end;
          lazymatch x with true => fail | false => fail | _ => idtac end;
          lazymatch type of H with context [x] => rewrite F in H end
      end ].

(** Runs the member function named in [H : m d = r] to its outcome. *)
Ltac eval_in H :=
  cbv beta delta
    [Initialize InitializeDecoder Decode DecodePendingBuffer DoReset Reset
     Stop SetDecryptor UpdateDecoderConfig FinishInitialization EnqueueFrames
     DeliverFrame OnKeyAdded via_weak perform GetDecodeOutput
     DCHECK CHECK bind ret this assign emit crash deref ResetAndReturn Run]
    in H;
  cbn in H; repeat (fact_step_in H; cbn in H).

(** Replaces the call [t] in the goal by its outcome. *)
Ltac run_call t :=
  let E := fresh "E" in
  destruct t as [[] ? ?|?] eqn:E; eval_in E;
  inversion E; subst; clear E.

Ltac run_first :=
  match goal with
  | |- context [?m ?d = Returned _ _ _] =>
      lazymatch type of d with
      | DecryptingAudioDecoder => run_call (m d)
      end
  end.

(** ** Answers of the decryptor *)

(** C5.  With no [Reset] pending, a [kNeedMoreData] answer to an
    end-of-stream buffer moves the stage to [kDecodeFinished] and runs the
    decode callback with an end-of-stream frame; for any other buffer it moves
    the stage to [kIdle] and runs the callback with [kNotEnoughData] and no
    frame.  Every [Decode] in [kDecodeFinished] runs its callback with an
    end-of-stream frame at once, emits nothing else and leaves the stage as
    it was. *)
Theorem NeedMoreData_then_DecodeFinished :
  (forall (d : DecryptingAudioDecoder) (buffer : DecoderBuffer.t)
          (buffer_size : Z) (frames : AudioBuffers.t),
     awaiting_response d buffer ->
     is_null (reset_cb_ d) = true ->
     AudioBuffers.empty frames = true ->
     DeliverFrame buffer_size kNeedMoreData frames d =
     if DecoderBuffer.end_of_stream buffer then
       Returned tt
         (set_decode_cb NullCallback
            (set_state kDecodeFinished
               (set_pending_buffer_to_decode None
                  (set_key_added_while_decode_pending false d))))
         [Run_decode_cb (decode_cb_ d) kOk
            (Some AudioBuffer.CreateEOSBuffer)]
     else
       Returned tt
         (set_decode_cb NullCallback
            (set_state kIdle
               (set_pending_buffer_to_decode None
                  (set_key_added_while_decode_pending false d))))
         [Run_decode_cb (decode_cb_ d) kNotEnoughData None])
  /\
  (forall (d : DecryptingAudioDecoder) (buffer : option DecoderBuffer.t)
          (decode_cb : Callback),
     state_ d = kDecodeFinished ->
     decode_cb_ d = NullCallback ->
     is_null decode_cb = false ->
     Decode buffer decode_cb d =
     Returned tt d
       [Run_decode_cb (BindToCurrentLoop decode_cb) kOk
          (Some AudioBuffer.CreateEOSBuffer)]).
Proof.
  split.
  - intros d buffer buffer_size frames (Hs & Hcb & Hp & Hq) Hr Hf.
    destruct d as [s i dc r sd c de p k q b cl sp th wf wt].
    cbn in *. subst.
    destruct (DecoderBuffer.end_of_stream buffer) eqn:He;
      compute_stage; reflexivity.
  - intros d buffer decode_cb Hs Hcb Hn.
    destruct d as [s i dc r sd c de p k q b cl sp th wf wt].
    cbn in *. subst.
    compute_stage. reflexivity.
Qed.

(** ** Case analysis along the paths of a member function *)

(** *** The store of audio buffers *)

Lemma length_write (p : nat) (f : AudioBuffer.t) :
  forall objects, length (AudioBuffers.write p f objects) = length objects.
Proof.
  induction p as [|p IH]; intros [|g objects]; cbn; auto.
Qed.

Lemma object_at_write_same (f : AudioBuffer.t) :
  forall (p : nat) (objects : list AudioBuffer.t),
    (p < length objects)%nat ->
    AudioBuffers.object_at (AudioBuffers.write p f objects) p = Some f.
Proof.
  unfold AudioBuffers.object_at.
  induction p as [|p IH]; intros [|g objects] Hp; cbn in *; try lia.
  - reflexivity.
  - apply IH. lia.
Qed.

Lemma object_at_write_other (f : AudioBuffer.t) :
  forall (p q : nat) (objects : list AudioBuffer.t),
    q <> p ->
    AudioBuffers.object_at (AudioBuffers.write p f objects) q =
    AudioBuffers.object_at objects q.
Proof.
  unfold AudioBuffers.object_at.
  induction p as [|p IH]; intros [|q] [|g objects] Hq; cbn;
    try reflexivity; try congruence.
  apply IH. congruence.
Qed.

Lemma object_at_Some (objects : list AudioBuffer.t) (p : nat)
    (f : AudioBuffer.t) :
  AudioBuffers.object_at objects p = Some f -> (p < length objects)%nat.
Proof.
  unfold AudioBuffers.object_at. intros H.
  apply nth_error_Some. congruence.
Qed.

Lemma listed_cons (objects : list AudioBuffer.t) (p : nat)
    (ps : list nat) (f : AudioBuffer.t) :
  AudioBuffers.object_at objects p = Some f ->
  AudioBuffers.listed objects (p :: ps) = f :: AudioBuffers.listed objects ps.
Proof. intros H. unfold AudioBuffers.listed. cbn. rewrite H. reflexivity. Qed.

Lemma listed_length (objects : list AudioBuffer.t) (ps : list nat) :
  Forall (fun p => (p < length objects)%nat) ps ->
  length (AudioBuffers.listed objects ps) = length ps.
Proof.
  induction 1 as [|p ps Hp Hps IH]; [reflexivity|].
  destruct (AudioBuffers.object_at objects p) as [f|] eqn:E.
  - rewrite (listed_cons _ _ _ _ E). cbn. rewrite IH. reflexivity.
  - unfold AudioBuffers.object_at in E. apply nth_error_None in E. lia.
Qed.


Lemma listed_of_list (buffers : list AudioBuffer.t) :
  AudioBuffers.listed buffers (seq 0 (length buffers)) = buffers.
Proof.
  assert (H : forall pre,
             AudioBuffers.listed (pre ++ buffers)
               (seq (length pre) (length buffers)) = buffers).
  { induction buffers as [|f rest IH]; intros pre; [reflexivity|].
    cbn [length seq].
    rewrite (listed_cons _ _ _ f).
    - f_equal.
      specialize (IH (pre ++ [f])).
      rewrite <- app_assoc, length_app, Nat.add_comm in IH. exact IH.
    - unfold AudioBuffers.object_at.
      rewrite nth_error_app2 by lia. rewrite Nat.sub_diag. reflexivity. }
  exact (H []).
Qed.

Lemma EnqueueFrames_loop_cons (p : nat) (rest : list nat)
    (objects : list AudioBuffer.t) :
  EnqueueFrames_loop (p :: rest) objects =
  (frame <- deref (AudioBuffers.object_at objects p) ;;
   DCHECK (negb (AudioBuffer.end_of_stream frame)) ;;
   DCHECK (0 <? AudioBuffer.frame_count frame)%Z ;;
   d <- this ;;
   helper <- deref (timestamp_helper_ d) ;;
   assign (set_timestamp_helper
     (Some (AudioTimestampHelper.AddFrames
              (AudioBuffer.frame_count frame) helper))) ;;
   EnqueueFrames_loop rest
     (AudioBuffers.write p
        (AudioBuffer.set_duration
           (AudioTimestampHelper.GetFrameDuration helper
              (AudioBuffer.frame_count frame))
           (AudioBuffer.set_timestamp
              (AudioTimestampHelper.GetTimestamp helper) frame))
        objects)).
Proof. reflexivity. Qed.

(** The loop emits nothing, changes the timestamp helper only, and leaves
    an object at every pointer of the list. *)
Lemma EnqueueFrames_loop_shape (pointers : list nat) :
  forall (objects objects' : list AudioBuffer.t)
         (d d' : DecryptingAudioDecoder) (out : list Event),
    EnqueueFrames_loop pointers objects d = Returned objects' d' out ->
    out = [] /\
    (exists h, d' = set_timestamp_helper h d) /\
    length objects' = length objects /\
    Forall (fun p => (p < length objects)%nat) pointers.
Proof.
  induction pointers as [|p rest IH]; intros objects objects' d d' out E.
  - cbn in E. inversion E; subst.
    repeat split; [|constructor].
    exists (timestamp_helper_ d'). destruct d'; reflexivity.
  - rewrite EnqueueFrames_loop_cons in E.
    cbv beta delta [DCHECK bind ret this assign crash deref] in E.
    destruct (AudioBuffers.object_at objects p) as [f|] eqn:Ef;
      [|discriminate].
    cbn in E.
    destruct (dcheck_is_on && negb (negb (AudioBuffer.end_of_stream f)));
      [discriminate|].
    cbn in E.
    destruct (dcheck_is_on && negb (0 <? AudioBuffer.frame_count f)%Z);
      [discriminate|].
    cbn in E.
    destruct (timestamp_helper_ d) as [h|] eqn:Eh; [|discriminate].
    cbn in E.
    match type of E with
    | context [EnqueueFrames_loop rest ?o1 ?d1] =>
        destruct (EnqueueFrames_loop rest o1 d1) as [q d2 o|] eqn:Er;
          [|discriminate]
    end.
    cbn in E. inversion E; subst.
    apply IH in Er. destruct Er as (-> & (h' & ->) & Hlen & Hin).
    rewrite length_write in Hlen, Hin.
    repeat split; cbn; try assumption.
    + exists h'. reflexivity.
    + constructor; [eapply object_at_Some; eassumption|assumption].
Qed.

Lemma EnqueueFrames_loop_effect (pointers : list nat) :
  forall (objects objects' : list AudioBuffer.t)
         (d d' : DecryptingAudioDecoder) (out : list Event),
    EnqueueFrames_loop pointers objects d = Returned objects' d' out ->
    out = [] /\
    (exists h, d' = set_timestamp_helper h d) /\
    length (AudioBuffers.listed objects' pointers) = length pointers.
Proof.
  intros objects objects' d d' out E.
  apply EnqueueFrames_loop_shape in E.
  destruct E as (Hout & Hd & Hlen & Hin).
  repeat split; try assumption.
  apply listed_length. rewrite Hlen. exact Hin.
Qed.

Arguments EnqueueFrames_loop : simpl never.

(** Splits on the innermost test a stuck computation in [H] waits for. *)
Ltac break_in H :=
  match type of H with
  | context [match EnqueueFrames_loop ?ps ?objects ?d1 with _ => _ end] =>
      let Hq := fresh "Hloop" in
      let h := fresh "h" in
      destruct (EnqueueFrames_loop ps objects d1) as [? ? ?|] eqn:Hq;
      [apply EnqueueFrames_loop_effect in Hq;
       destruct Hq as (-> & (h & ->) & Hq) | ]
  | context [match ?x with _ => _ end] =>
      lazymatch x with
      | context [match _ with _ => _ end] => fail
      | _ => destruct x eqn:?
      end
  end.

Ltac invert_run H :=
  cbv beta delta
    [Initialize InitializeDecoder Decode DecodePendingBuffer DoReset Reset
     Stop SetDecryptor UpdateDecoderConfig FinishInitialization EnqueueFrames
     DeliverFrame OnKeyAdded via_weak perform GetDecodeOutput
     DCHECK CHECK bind ret this assign emit crash deref ResetAndReturn Run]
    in H;
  cbn in H;
  repeat (first [ discriminate H
                | break_in H; cbn in H ]).

Ltac finish_run H := inversion H; subst; clear H; cbn in *.

(** ** Initialization *)

(** C6.  For a configuration that is invalid or not flagged as encrypted,
    [Initialize] runs its callback exactly once with an error status, emits
    nothing else (no decryptor is requested, no decoder initialised), and
    leaves every member but [init_cb_] (null again) and [weak_this_] as it
    was; in particular [state_] is unchanged. *)
Theorem Initialize_rejects_config (d : DecryptingAudioDecoder)
    (config : AudioDecoderConfig.t) (status_cb : Callback) :
  IsValidConfig config = false \/
  AudioDecoderConfig.is_encrypted config = false ->
  is_null (decode_cb_ d) = true ->
  is_null (reset_cb_ d) = true ->
  let d' := set_init_cb NullCallback (set_weak_this (GetWeakPtr d) d) in
  Initialize config status_cb d =
    Returned tt d'
      [Run_init_cb (BindToCurrentLoop status_cb)
         (if IsValidConfig config then DECODER_ERROR_NOT_SUPPORTED
          else PIPELINE_ERROR_DECODE)]
  /\ state_ d' = state_ d
  /\ config_ d' = config_ d
  /\ decryptor_ d' = decryptor_ d.
Proof.
  intros Hbad Hdc Hr d'. subst d'.
  destruct d as [s ic dc r sd c de p ka q b cl sp th wf wt].
  cbn in *.
  repeat split.
  destruct (IsValidConfig config) eqn:Ev.
  - destruct Hbad as [Hbad|Hbad]; [discriminate|].
    compute_stage. reflexivity.
  - compute_stage. reflexivity.
Qed.

Lemma InitializeAudioDecoder_always_S16 (i : Input)
    (d d' : DecryptingAudioDecoder) (u : unit) (out : list Event) :
  perform i d = Returned u d' out ->
  forall dec cfg k,
    In (Decryptor_InitializeAudioDecoder dec cfg k) out ->
    AudioDecoderConfig.sample_format cfg = kSampleFormatS16.
Proof.
  intros E dec cfg k Hin.
  destruct d as [s ic dc r sd c de p ka q b cl sp th wf wt].
  destruct i; invert_run E; finish_run E;
    repeat match goal with
           | H : _ \/ _ |- _ => destruct H
           | H : False |- _ => destruct H
           | H : _ = Decryptor_InitializeAudioDecoder _ _ _ |- _ =>
               first [discriminate H | inversion H; subst; clear H]
           end;
    reflexivity.
Qed.

(** C9.  Whatever sample format the caller's configuration asks for, every
    [InitializeAudioDecoder] call any member function makes carries a
    configuration whose sample format is [kSampleFormatS16], with the
    caller's channel layout and sample rate; after a successful
    initialisation (the first one, or a later one on an initialised stage)
    the stage reports 16 bits per channel and the channel layout and sample
    rate of the caller's configuration. *)
Theorem decoder_initialized_with_S16 :
  (forall (i : Input) (d d' : DecryptingAudioDecoder) (u : unit)
          (out : list Event),
     perform i d = Returned u d' out ->
     forall dec cfg k,
       In (Decryptor_InitializeAudioDecoder dec cfg k) out ->
       AudioDecoderConfig.sample_format cfg = kSampleFormatS16)
  /\
  (forall c : AudioDecoderConfig.t,
     AudioDecoderConfig.sample_format (forced_S16 c) = kSampleFormatS16 /\
     AudioDecoderConfig.channel_layout (forced_S16 c) =
       AudioDecoderConfig.channel_layout c /\
     AudioDecoderConfig.samples_per_second (forced_S16 c) =
       AudioDecoderConfig.samples_per_second c)
  /\
  (forall (set_decryptor_ready_cb status_cb : Callback)
          (config : AudioDecoderConfig.t) (dec : Decryptor),
     is_null set_decryptor_ready_cb = false ->
     IsValidConfig config = true ->
     AudioDecoderConfig.is_encrypted config = true ->
     exists d' : DecryptingAudioDecoder,
       (Initialize config status_cb ;;
        SetDecryptor (Some dec) ;;
        FinishInitialization true) (constructed set_decryptor_ready_cb) =
         Returned tt d'
           [Run_set_decryptor_ready_cb set_decryptor_ready_cb
              (Some (KSetDecryptor (Some 0%nat)));
            Decryptor_InitializeAudioDecoder dec (forced_S16 config)
              (KFinishInitialization (Some 0%nat));
            Decryptor_RegisterNewKeyCB dec (KOnKeyAdded (Some 0%nat));
            Run_init_cb (BindToCurrentLoop status_cb) PIPELINE_OK] /\
       state_ d' = kIdle /\
       bits_per_channel d' = 16%Z /\
       channel_layout d' = AudioDecoderConfig.channel_layout config /\
       samples_per_second d' = AudioDecoderConfig.samples_per_second config)
  /\
  (forall (d : DecryptingAudioDecoder) (status_cb : Callback)
          (config : AudioDecoderConfig.t) (dec : Decryptor),
     state_ d <> kUninitialized ->
     decryptor_ d = Some dec ->
     is_null (decode_cb_ d) = true ->
     is_null (reset_cb_ d) = true ->
     IsValidConfig config = true ->
     AudioDecoderConfig.is_encrypted config = true ->
     exists d' : DecryptingAudioDecoder,
       (Initialize config status_cb ;; FinishInitialization true) d =
         Returned tt d'
           [Decryptor_DeinitializeDecoder dec;
            Decryptor_InitializeAudioDecoder dec (forced_S16 config)
              (KFinishInitialization (GetWeakPtr d));
            Decryptor_RegisterNewKeyCB dec (KOnKeyAdded (GetWeakPtr d));
            Run_init_cb (BindToCurrentLoop status_cb) PIPELINE_OK] /\
       state_ d' = kIdle /\
       bits_per_channel d' = 16%Z /\
       channel_layout d' = AudioDecoderConfig.channel_layout config /\
       samples_per_second d' = AudioDecoderConfig.samples_per_second config).
Proof.
  split; [exact InitializeAudioDecoder_always_S16|].
  split; [intros c; repeat split|].
  split.
  - intros sdcb status_cb config dec Hsd Hv He.
    unfold constructed, forced_S16. rewrite He.
    run_first. eexists. split; [reflexivity|]. cbn. auto.
  - intros d status_cb config dec Hs Hde Hdc Hr Hv He.
    destruct d as [s ic dc r sd c de p ka q b cl sp th wf wt].
    cbn in *. subst.
    assert (Hu : State_eqb s kUninitialized = false)
      by (destruct s; try reflexivity; contradiction).
    unfold forced_S16. rewrite He.
    run_first. eexists. split; [reflexivity|]. cbn. auto.
Qed.

(** ** Submitting a buffer *)

(** [Decode] on an idle stage with nothing queued: the buffer becomes the
    pending buffer and is handed to the decryptor. *)
Lemma Decode_submits (d : DecryptingAudioDecoder) (buffer : DecoderBuffer.t)
    (decode_cb : Callback) (dec : Decryptor)
    (helper : AudioTimestampHelper.t) :
  state_ d = kIdle ->
  is_null (decode_cb_ d) = true ->
  queued_audio_frames_ d = [] ->
  timestamp_helper_ d = Some helper ->
  decryptor_ d = Some dec ->
  is_null decode_cb = false ->
  Decode (Some buffer) decode_cb d =
    Returned tt
      (set_state kPendingDecode
         (set_pending_buffer_to_decode (Some buffer)
            (set_timestamp_helper (Some (seeded buffer helper))
               (set_decode_cb (BindToCurrentLoop decode_cb) d))))
      [Decryptor_DecryptAndDecodeAudio dec buffer
         (KDeliverFrame (weak_this_ d) (buffer_size_of buffer))].
Proof.
  intros Hs Hdc Hq Hth Hde Hcb.
  destruct d as [s ic dc r sd c de p ka q b cl sp th wf wt].
  cbn in *. subst.
  unfold seeded, buffer_size_of.
  destruct (is_kNoTimestamp (AudioTimestampHelper.base_timestamp helper))
    eqn:Hb;
    destruct (DecoderBuffer.end_of_stream buffer) eqn:He;
    compute_stage; reflexivity.
Qed.

(** ** Reset *)

(** C2.  [Reset] during [kPendingDecode] only stores its closure and asks
    the decryptor to reset: the closure is not run and the state does not
    change.  When the decryptor's answer then arrives, whatever its status
    and frames, the decode callback is run with [kAborted] and no frame, the
    pending buffer is dropped, and after that the reset closure is run; the
    stage is then [kIdle] with the timestamp base cleared, so that the next
    accepted buffer seeds the base again with its own timestamp. *)
Theorem Reset_deferred_until_response :
  (forall (d : DecryptingAudioDecoder) (closure : Callback) (dec : Decryptor),
     state_ d = kPendingDecode ->
     is_null (decode_cb_ d) = false ->
     is_null (init_cb_ d) = true ->
     is_null (reset_cb_ d) = true ->
     decryptor_ d = Some dec ->
     Reset closure d =
       Returned tt (set_reset_cb (BindToCurrentLoop closure) d)
         [Decryptor_ResetDecoder dec])
  /\
  (forall (d : DecryptingAudioDecoder) (buffer : DecoderBuffer.t)
          (helper : AudioTimestampHelper.t)
          (buffer_size : Z) (status : DecryptorStatus)
          (frames : AudioBuffers.t),
     awaiting_response d buffer ->
     is_null (reset_cb_ d) = false ->
     is_null (init_cb_ d) = true ->
     timestamp_helper_ d = Some helper ->
     let d' :=
       set_reset_cb NullCallback
         (set_state kIdle
            (set_timestamp_helper
               (Some (AudioTimestampHelper.SetBaseTimestamp kNoTimestamp
                        helper))
               (set_decode_cb NullCallback
                  (set_pending_buffer_to_decode None
                     (set_key_added_while_decode_pending false d))))) in
     DeliverFrame buffer_size status frames d =
       Returned tt d'
         [Run_decode_cb (decode_cb_ d) kAborted None;
          Run_reset_cb (reset_cb_ d)]
     /\
     forall (next : DecoderBuffer.t) (decode_cb : Callback) (dec : Decryptor),
       DecoderBuffer.end_of_stream next = false ->
       is_null decode_cb = false ->
       decryptor_ d = Some dec ->
       exists d'' out,
         Decode (Some next) decode_cb d' = Returned tt d'' out /\
         timestamp_helper_ d'' =
           Some (AudioTimestampHelper.SetBaseTimestamp
                   (DecoderBuffer.timestamp next) helper)).
Proof.
  split.
  - intros d closure dec Hs Hdc Hi Hr Hde.
    destruct d as [s ic dc r sd c de p ka q b cl sp th wf wt].
    cbn in *. subst. compute_stage. reflexivity.
  - intros d buffer helper buffer_size status frames
           (Hs & Hdc & Hp & Hq) Hr Hi Hth d'.
    split.
    + subst d'.
      destruct d as [s ic dc r sd c de p ka q b cl sp th wf wt].
      cbn in * |-. subst.
      compute_stage. reflexivity.
    + intros next decode_cb dec Hn Hcb Hde.
      do 2 eexists. split.
      * apply Decode_submits with (dec := dec); try reflexivity; assumption.
      * cbn [timestamp_helper_ set_state set_pending_buffer_to_decode
             set_timestamp_helper].
        unfold seeded. cbn. rewrite Hn. reflexivity.
Qed.

(** ** One step of the stage among its collaborators *)

Lemma world_step_inv (i : Input) (w w' : World) :
  world_step i w = Some w' ->
  enabled i w = true /\
  exists u d' out,
    perform i (stage w) = Returned u d' out /\
    w' = {| stage := d';
            continuations :=
              after_firing i (continuations w) ++ flat_map handed_out out;
            history := history w ++ out;
            inputs := inputs w ++ [i] |}.
Proof.
  unfold world_step. intros H.
  destruct (enabled i w); [|discriminate].
  destruct (perform i (stage w)) as [u d' out|f] eqn:E; [|discriminate].
  inversion H; subst. split; [reflexivity|].
  exists u, d', out. split; reflexivity.
Qed.

Lemma decode_cbs_run_app (a b : list Event) :
  decode_cbs_run (a ++ b) = decode_cbs_run a ++ decode_cbs_run b.
Proof. unfold decode_cbs_run. apply flat_map_app. Qed.

Lemma decode_cbs_given_app (a b : list Input) :
  decode_cbs_given (a ++ b) = decode_cbs_given a ++ decode_cbs_given b.
Proof. unfold decode_cbs_given. apply flat_map_app. Qed.

(** Every member function hands back exactly the decode callbacks it was
    given or held, each once, oldest first. *)
Lemma perform_accounts_for_decode_cbs (i : Input)
    (d d' : DecryptingAudioDecoder) (u : unit) (out : list Event) :
  perform i d = Returned u d' out ->
  decode_cbs_run out ++ decode_cb_held d' =
  decode_cb_held d ++ decode_cbs_given [i].
Proof.
  intros E.
  destruct d as [s ic dc r sd c de p ka q b cl sp th wf wt].
  unfold decode_cb_held.
  destruct i; invert_run E; finish_run E;
    rewrite ?app_nil_r;
    repeat match goal with
           | H : is_null ?x = _ |- context [is_null ?x] => rewrite H
           | H : negb (is_null ?x) = true |- context [is_null ?x] =>
               apply negb_true_iff in H; rewrite H
           | H : negb (is_null ?x) = false |- context [is_null ?x] =>
               apply negb_false_iff in H; rewrite H
           end;
    try reflexivity.
Qed.

Lemma Reachable_accounts_for_decode_cbs (w : World) :
  Reachable w ->
  decode_cbs_run (history w) ++ decode_cb_held (stage w) =
  decode_cbs_given (inputs w).
Proof.
  induction 1 as [sd|i w w' Hw IH Hstep].
  - reflexivity.
  - apply world_step_inv in Hstep.
    destruct Hstep as (_ & u & d' & out & Hrun & ->).
    cbn [history stage inputs].
    rewrite decode_cbs_run_app, decode_cbs_given_app, <- app_assoc.
    rewrite (perform_accounts_for_decode_cbs _ _ _ _ _ Hrun).
    rewrite app_assoc, IH. reflexivity.
Qed.

(** ** Weak pointers *)

Lemma weak_issued_mono (g g' : nat) (w : WeakPtr) :
  g <= g' -> weak_issued g w -> weak_issued g' w.
Proof. destruct w; cbn; [lia|auto]. Qed.

Lemma weak_issued_stale (g : nat) (w : WeakPtr)
    (d : DecryptingAudioDecoder) :
  weak_issued g w -> g < weak_factory_ d -> weak_valid w d = false.
Proof.
  destruct w as [n|]; cbn; [|reflexivity].
  intros Hle Hlt. apply Nat.eqb_neq. lia.
Qed.

(** A continuation whose weak pointer is no longer valid does nothing. *)
Lemma stale_continuation_dropped (i : Input) (k : Continuation)
    (d : DecryptingAudioDecoder) :
  fired i = Some k ->
  weak_valid (weak_of k) d = false ->
  perform i d = Returned tt d [].
Proof.
  destruct i; cbn; intros Hk Hv; try discriminate;
    inversion Hk; subst; cbn in Hv; unfold via_weak; rewrite Hv; reflexivity.
Qed.

Lemma perform_issues_weak_ptrs (i : Input)
    (d d' : DecryptingAudioDecoder) (u : unit) (out : list Event) :
  perform i d = Returned u d' out ->
  weak_issued (weak_factory_ d) (weak_this_ d) ->
  weak_factory_ d <= weak_factory_ d' /\
  weak_issued (weak_factory_ d') (weak_this_ d') /\
  Forall (fun k => weak_issued (weak_factory_ d') (weak_of k))
         (flat_map handed_out out).
Proof.
  intros E Hw.
  destruct d as [s ic dc r sd c de p ka q b cl sp th wf wt].
  cbn in Hw.
  destruct i; invert_run E; finish_run E;
    repeat split; auto; try lia;
    try (eapply weak_issued_mono; [|eassumption]; lia);
    repeat constructor; cbn; auto.
Qed.

Lemma Forall_remove_first (P : Continuation -> Prop) (k : Continuation)
    (ks : list Continuation) :
  Forall P ks -> Forall P (remove_first k ks).
Proof.
  induction 1 as [|k' ks Hk Hks IH]; cbn; [constructor|].
  destruct (Continuation_eqb k k'); [assumption|constructor; assumption].
Qed.

Lemma Forall_after_firing (P : Continuation -> Prop) (i : Input)
    (ks : list Continuation) :
  Forall P ks -> Forall P (after_firing i ks).
Proof.
  intros H. unfold after_firing.
  destruct (fired i) as [k|]; [|assumption].
  destruct (is_KOnKeyAdded k); [assumption|].
  apply Forall_remove_first; assumption.
Qed.

Lemma world_step_issues_weak_ptrs (i : Input) (w w' : World) :
  world_step i w = Some w' ->
  weak_ptrs_issued w ->
  weak_factory_ (stage w) <= weak_factory_ (stage w') /\
  weak_ptrs_issued w'.
Proof.
  intros Hstep (Hthis & Hks).
  apply world_step_inv in Hstep.
  destruct Hstep as (_ & u & d' & out & Hrun & ->).
  destruct (perform_issues_weak_ptrs _ _ _ _ _ Hrun Hthis)
    as (Hle & Hthis' & Hnew).
  cbn [stage continuations].
  split; [assumption|]. split; [assumption|].
  apply Forall_app. split; [|assumption].
  apply Forall_after_firing.
  eapply Forall_impl; [|exact Hks].
  intros k Hk. eapply weak_issued_mono; eassumption.
Qed.

Lemma Reachable_weak_ptrs_issued (w : World) :
  Reachable w -> weak_ptrs_issued w.
Proof.
  induction 1 as [sd|i w w' Hw IH Hstep].
  - split; cbn; constructor.
  - eapply world_step_issues_weak_ptrs; eassumption.
Qed.

(** ** Stop *)

Lemma is_null_true (cb : Callback) : is_null cb = true -> cb = NullCallback.
Proof. destruct cb; cbn; congruence. Qed.

Lemma Stop_eq (d : DecryptingAudioDecoder) (closure : Callback) :
  Stop closure d = Returned tt (stopped d) (Stop_events d closure).
Proof.
  destruct d as [s ic dc r sd c de p ka q b cl sp th wf wt].
  unfold stopped, Stop_events. cbn.
  (destruct (is_null ic) eqn:Hic; [apply is_null_true in Hic; subst|]);
  (destruct (is_null dc) eqn:Hdc; [apply is_null_true in Hdc; subst|]);
  (destruct (is_null r) eqn:Hr; [apply is_null_true in Hr; subst|]);
  (destruct (is_null sd) eqn:Hsd; [apply is_null_true in Hsd; subst|]);
  destruct de as [dec|];
  compute_stage; reflexivity.
Qed.

Lemma world_steps_Reachable (inputs : list Input) :
  forall w w' : World,
    Reachable w -> world_steps inputs w = Some w' ->
    Reachable w' /\ weak_factory_ (stage w) <= weak_factory_ (stage w').
Proof.
  induction inputs as [|i rest IH]; intros w w' Hw Hrun; cbn in Hrun.
  - inversion Hrun; subst. split; [assumption|lia].
  - destruct (world_step i w) as [w1|] eqn:Hstep; [|discriminate].
    assert (Hw1 : Reachable w1) by (eapply Reachable_step; eassumption).
    destruct (world_step_issues_weak_ptrs _ _ _ Hstep
                (Reachable_weak_ptrs_issued _ Hw)) as (Hle & _).
    destruct (IH _ _ Hw1 Hrun) as (Hw' & Hle').
    split; [assumption|lia].
Qed.

(** C3.  [Stop] succeeds on every stage, whatever its state.  It emits, in
    this order: the decoder's deinitialisation if a decryptor is set; the
    cancellation of the decryptor-ready wait (the stored callback run with a
    null callback); the [Initialize] callback run with
    [DECODER_ERROR_NOT_SUPPORTED]; the decode callback run with [kAborted]
    and no frame; the reset closure run; each of these only if the callback
    is still held, and each once; and last the posting of [Stop]'s own
    closure.  Afterwards all four callbacks are null, the pending buffer is
    released, the state is [kStopped], and every continuation handed out
    before is dead: fired at any later time it changes nothing and emits
    nothing. *)
Theorem Stop_completes_and_cancels :
  (forall (d : DecryptingAudioDecoder) (closure : Callback),
     Stop closure d = Returned tt (stopped d) (Stop_events d closure) /\
     state_ (stopped d) = kStopped /\
     pending_buffer_to_decode_ (stopped d) = None /\
     set_decryptor_ready_cb_ (stopped d) = NullCallback /\
     init_cb_ (stopped d) = NullCallback /\
     decode_cb_ (stopped d) = NullCallback /\
     reset_cb_ (stopped d) = NullCallback)
  /\
  (forall (w w1 w2 : World) (closure : Callback) (later : list Input),
     Reachable w ->
     world_step (CallStop closure) w = Some w1 ->
     world_steps later w1 = Some w2 ->
     forall (i : Input) (k : Continuation),
       fired i = Some k ->
       In k (continuations w) \/ In k (continuations w1) ->
       perform i (stage w2) = Returned tt (stage w2) []).
Proof.
  split.
  - intros d closure. split; [apply Stop_eq|]. repeat split.
  - intros w w1 w2 closure later Hw Hstop Hlater i k Hk Hin.
    assert (Hw1 : Reachable w1) by (eapply Reachable_step; eassumption).
    destruct (world_steps_Reachable _ _ _ Hw1 Hlater) as (_ & Hle).
    pose proof (Reachable_weak_ptrs_issued _ Hw) as (_ & Hks).
    apply world_step_inv in Hstop.
    destruct Hstop as (_ & u & d' & out & Hrun & ->).
    cbn [perform] in Hrun. rewrite Stop_eq in Hrun.
    inversion Hrun; subst; clear Hrun.
    cbn [stage continuations] in *.
    assert (Hin' : In k (continuations w)).
    { destruct Hin as [Hin|Hin]; [assumption|].
      apply in_app_or in Hin. destruct Hin as [Hin|Hin]; [assumption|].
      exfalso. clear - Hin. unfold Stop_events in Hin.
      rewrite !flat_map_app in Hin.
      repeat (apply in_app_or in Hin; destruct Hin as [Hin|Hin]);
        repeat match type of Hin with
               | context [match ?x with _ => _ end] => destruct x
               end;
        cbn in Hin; tauto. }
    eapply stale_continuation_dropped; [eassumption|].
    eapply weak_issued_stale.
    + rewrite Forall_forall in Hks. apply Hks. exact Hin'.
    + cbn in Hle. lia.
Qed.

(** ** Single flight *)

Lemma decrypts_app (a b : list Continuation) :
  decrypts (a ++ b) = (decrypts a + decrypts b)%nat.
Proof. unfold decrypts. rewrite filter_app, length_app. reflexivity. Qed.

Lemma WeakPtr_eqb_eq (a b : WeakPtr) : WeakPtr_eqb a b = true -> a = b.
Proof.
  destruct a, b; cbn; try congruence.
  intros H. apply Nat.eqb_eq in H. congruence.
Qed.

Lemma Continuation_eqb_eq (a b : Continuation) :
  Continuation_eqb a b = true -> a = b.
Proof.
  destruct a, b; cbn; try congruence; intros H;
    try (apply WeakPtr_eqb_eq in H; congruence).
  apply andb_true_iff in H. destruct H as [H1 H2].
  apply WeakPtr_eqb_eq in H1. apply Z.eqb_eq in H2. congruence.
Qed.

Lemma existsb_Continuation_eqb (k : Continuation) (ks : list Continuation) :
  existsb (Continuation_eqb k) ks = true -> In k ks.
Proof.
  intros H. apply existsb_exists in H. destruct H as (k' & Hin & He).
  apply Continuation_eqb_eq in He. subst. assumption.
Qed.

Lemma decrypts_remove_other (k : Continuation) (ks : list Continuation) :
  is_KDeliverFrame k = false ->
  decrypts (remove_first k ks) = decrypts ks.
Proof.
  intros Hk. induction ks as [|k' ks IH]; [reflexivity|].
  cbn [remove_first].
  destruct (Continuation_eqb k k') eqn:He.
  - apply Continuation_eqb_eq in He. subst k'.
    unfold decrypts. cbn. rewrite Hk. reflexivity.
  - unfold decrypts in *. cbn. destruct (is_KDeliverFrame k'); cbn; congruence.
Qed.

Lemma decrypts_remove_deliver (k : Continuation) (ks : list Continuation) :
  is_KDeliverFrame k = true ->
  In k ks ->
  decrypts ks = S (decrypts (remove_first k ks)).
Proof.
  intros Hk. induction ks as [|k' ks IH]; [intros []|].
  intros Hin. cbn [remove_first].
  destruct (Continuation_eqb k k') eqn:He.
  - apply Continuation_eqb_eq in He. subst k'.
    unfold decrypts. cbn. rewrite Hk. reflexivity.
  - destruct Hin as [Hin|Hin].
    + subst k'. exfalso.
      assert (Continuation_eqb k k = true).
      { clear. destruct k as [[n|]|[n|]|[n|] z|[n|]]; cbn;
          rewrite ?Nat.eqb_refl, ?Z.eqb_refl; reflexivity. }
      congruence.
    + specialize (IH Hin). unfold decrypts in *. cbn.
      destruct (is_KDeliverFrame k'); cbn; congruence.
Qed.

Lemma dead_after_invalidation (gen : nat) (ks : list Continuation) :
  Forall (fun k => weak_issued gen (weak_of k)) ks ->
  Forall (fun k => match weak_of k with
                   | Some n => Nat.eqb n (S gen)
                   | None => false
                   end = false) ks.
Proof.
  apply Forall_impl. intros k. destruct (weak_of k) as [n|]; cbn; [|auto].
  intros H. apply Nat.eqb_neq. lia.
Qed.

Ltac sf_norm :=
  unfold single_flight, torn_down, dead, weak_valid, after_firing in *;
  cbn in *;
  rewrite ?app_nil_r, ?decrypts_app;
  rewrite ?decrypts_remove_other by reflexivity;
  repeat match goal with
         | H : In (KDeliverFrame ?w ?n) ?ks |- _ =>
             lazymatch goal with
             | _ : decrypts ks = S _ |- _ => fail
             | _ => pose proof (decrypts_remove_deliver
                                  (KDeliverFrame w n) ks eq_refl H)
             end
         end;
  change (decrypts []) with 0%nat;
  repeat match goal with
         | |- context [decrypts [?k]] =>
             let v := eval cbv in (decrypts [k]) in
             change (decrypts [k]) with v
         end.

Ltac sf_dead_contradiction :=
  match goal with
  | T : Forall _ ?ks, H : In ?k ?ks |- _ =>
      let D := fresh "D" in
      pose proof (proj1 (Forall_forall _ _) T _ H) as D;
      cbn in D; congruence
  end.

Ltac sf_torn_down :=
  repeat split; try reflexivity; try assumption;
  first [ apply Forall_remove_first; assumption
        | apply dead_after_invalidation; assumption
        | apply Forall_remove_first; apply dead_after_invalidation;
          assumption ].

Ltac sf_live :=
  repeat split; try reflexivity; try assumption; try discriminate;
  try congruence.

Ltac bool_facts :=
  repeat match goal with
         | H : negb _ = true |- _ => apply negb_true_iff in H
         | H : negb _ = false |- _ => apply negb_false_iff in H
         end.

(** Splits on the number of outstanding requests and on which side of the
    invariant holds. *)
Ltac sf_cases N F :=
  let Hn := fresh "Hn" in
  let T1 := fresh "T" in
  let T2 := fresh "T" in
  let T3 := fresh "T" in
  let L1 := fresh "L" in
  let L2 := fresh "L" in
  let L3 := fresh "L" in
  match type of N with
  | (?n <= 1)%nat =>
      assert (Hn : n = 0%nat \/ n = 1%nat) by lia;
      destruct Hn as [Hn|Hn];
      [ clear F
      | specialize (F Hn);
        destruct F as [(T1 & T2 & T3)|(L1 & L2 & L3)] ]
  end.

Ltac sf_contradiction :=
  first [ discriminate | congruence | lia | sf_dead_contradiction ].

(** One member function preserves the single-flight invariant. *)
Lemma perform_single_flight (i : Input) (d d' : DecryptingAudioDecoder)
    (u : unit) (out : list Event) (ks : list Continuation) :
  perform i d = Returned u d' out ->
  match fired i with Some k => In k ks | None => True end ->
  Forall (fun k => weak_issued (weak_factory_ d) (weak_of k)) ks ->
  single_flight d ks ->
  single_flight d' (after_firing i ks ++ flat_map handed_out out).
Proof.
  intros E Hen Hks SF.
  destruct d as [s ic dc r sd c de p ka q b cl sp th wf wt].
  destruct i; invert_run E; finish_run E; sf_norm; bool_facts;
    destruct SF as (N & F & K);
    destruct s; cbn in *; try discriminate;
    try (specialize (K eq_refl); destruct K as (K1 & K2));
    sf_cases N F; try sf_contradiction;
    (split; [try lia|split]);
    try assumption;
    intros G;
    try sf_contradiction;
    try solve [ left; sf_torn_down ];
    try solve [ right; sf_live ];
    solve [ sf_live ].
Qed.

Lemma Reachable_single_flight (w : World) :
  Reachable w -> single_flight (stage w) (continuations w).
Proof.
  induction 1 as [sd|i w w' Hw IH Hstep].
  - cbn. repeat split; cbn; try lia; discriminate.
  - pose proof (Reachable_weak_ptrs_issued _ Hw) as (_ & Hks).
    apply world_step_inv in Hstep.
    destruct Hstep as (Hen & u & d' & out & Hrun & ->).
    cbn [stage continuations].
    eapply perform_single_flight; try eassumption.
    unfold enabled in Hen. destruct (fired i) as [k|]; [|exact I].
    apply existsb_Continuation_eqb. assumption.
Qed.

(** In a build that checks its DCHECKs, a stage that accepts [Decode] holds
    no decode callback. *)
Lemma perform_accepts_decode (i : Input) (d d' : DecryptingAudioDecoder)
    (u : unit) (out : list Event) :
  dcheck_is_on = true ->
  perform i d = Returned u d' out ->
  accepts_decode d -> accepts_decode d'.
Proof.
  intros Hdbg E D.
  destruct d as [s ic dc r sd c de p ka q b cl sp th wf wt].
  unfold accepts_decode in *.
  destruct i; invert_run E; finish_run E;
    rewrite ?Hdbg in *; cbn in *; bool_facts;
    destruct s; cbn in *; try discriminate;
    intros [G|G]; try discriminate G;
    first [ reflexivity | assumption | congruence
          | apply D; auto ].
Qed.

Lemma Reachable_accepts_decode (w : World) :
  dcheck_is_on = true -> Reachable w -> accepts_decode (stage w).
Proof.
  intros Hdbg. induction 1 as [sd|i w w' Hw IH Hstep].
  - intros _. reflexivity.
  - apply world_step_inv in Hstep.
    destruct Hstep as (_ & u & d' & out & Hrun & ->).
    cbn [stage]. eapply perform_accepts_decode; eassumption.
Qed.

Lemma Decode_overlapping (d : DecryptingAudioDecoder)
    (buffer : option DecoderBuffer.t) (decode_cb : Callback) :
  is_null (decode_cb_ d) = false ->
  exists f, Decode buffer decode_cb d = Crashed f.
Proof.
  intros Hdc.
  destruct d as [s ic dc r sd c de p ka q b cl sp th wf wt].
  cbn in Hdc.
  destruct (Decode buffer decode_cb _) as [[] d' out|f] eqn:E;
    [|exists f; reflexivity].
  exfalso. invert_run E; congruence.
Qed.

(** C7.  On every reachable world at most one decrypt request is
    outstanding, and while one is outstanding on a stage that still has its
    decryptor the decode callback is held.  [Decode] while a decode callback
    is held is fatal in every build: the CHECK fails (or, in a build that
    checks them, a DCHECK before it).  In a build that checks its DCHECKs,
    [Decode] outside [kIdle] and [kDecodeFinished] is fatal, and every
    reachable stage in [kIdle] or [kDecodeFinished] holds no decode callback,
    so that a [Decode] which meets the state precondition never fails the
    CHECK. *)
Theorem single_flight_decode :
  (forall w : World,
     Reachable w ->
     (outstanding_decrypts w <= 1)%nat /\
     (outstanding_decrypts w = 1%nat ->
      decryptor_ (stage w) <> None ->
      is_null (decode_cb_ (stage w)) = false))
  /\
  (forall (d : DecryptingAudioDecoder) (buffer : option DecoderBuffer.t)
          (decode_cb : Callback),
     is_null (decode_cb_ d) = false ->
     (exists f, Decode buffer decode_cb d = Crashed f) /\
     ((state_ d = kIdle \/ state_ d = kDecodeFinished) ->
      is_null decode_cb = false ->
      Decode buffer decode_cb d = Crashed CheckFailure))
  /\
  (dcheck_is_on = true ->
   forall (d : DecryptingAudioDecoder) (buffer : option DecoderBuffer.t)
          (decode_cb : Callback),
     state_ d <> kIdle -> state_ d <> kDecodeFinished ->
     Decode buffer decode_cb d = Crashed DCheckFailure)
  /\
  (dcheck_is_on = true ->
   forall (w : World) (buffer : option DecoderBuffer.t)
          (decode_cb : Callback),
     Reachable w ->
     state_ (stage w) = kIdle \/ state_ (stage w) = kDecodeFinished ->
     is_null (decode_cb_ (stage w)) = true /\
     Decode buffer decode_cb (stage w) <> Crashed CheckFailure).
Proof.
  split; [|split; [|split]].
  - intros w Hw.
    destruct (Reachable_single_flight _ Hw) as (N & F & _).
    split; [exact N|].
    intros Hn Hde. destruct (F Hn) as [(_ & T & _)|(L & _)]; congruence.
  - intros d buffer decode_cb Hdc.
    split; [apply Decode_overlapping; assumption|].
    intros Hs Hcb.
    destruct d as [s ic dc r sd c de p ka q b cl sp th wf wt].
    cbn in *.
    destruct Hs as [Hs|Hs]; subst; compute_stage; reflexivity.
  - intros Hdbg d buffer decode_cb Hi Hf.
    destruct d as [s ic dc r sd c de p ka q b cl sp th wf wt].
    cbn in *.
    destruct s; try contradiction; unfold_stage; rewrite Hdbg; reflexivity.
  - intros Hdbg w buffer decode_cb Hw Hs.
    pose proof (Reachable_accepts_decode _ Hdbg Hw Hs) as Hnull.
    split; [assumption|].
    destruct (stage w) as [s ic dc r sd c de p ka q b cl sp th wf wt].
    cbn in *. intros E.
    destruct Hs as [Hs|Hs]; subst; invert_run E; congruence.
Qed.

(** ** The output queue and the decryptor *)

Lemma Decode_pops (d : DecryptingAudioDecoder) (front : AudioBuffer.t)
    (rest : list AudioBuffer.t) (decode_cb : Callback) :
  state_ d = kIdle ->
  decode_cb_ d = NullCallback ->
  queued_audio_frames_ d = front :: rest ->
  is_null decode_cb = false ->
  Decode None decode_cb d =
    Returned tt (set_queued_audio_frames rest d)
      [Run_decode_cb (BindToCurrentLoop decode_cb) kOk (Some front)].
Proof.
  intros Hs Hdc Hq Hcb.
  destruct d as [s ic dc r sd c de p ka q b cl sp th wf wt].
  cbn in *. subst. compute_stage. reflexivity.
Qed.

Lemma submission_finds_queue_empty (i : Input)
    (d d' : DecryptingAudioDecoder) (u : unit) (out : list Event)
    (ks : list Continuation) :
  perform i d = Returned u d' out ->
  match fired i with Some k => In k ks | None => True end ->
  single_flight d ks ->
  decrypt_requests out <> [] ->
  queued_audio_frames_ d = [] /\ queued_audio_frames_ d' = [].
Proof.
  intros E Hen SF Hreq.
  destruct d as [s ic dc r sd c de p ka q b cl sp th wf wt].
  destruct i; invert_run E; finish_run E;
    try congruence;
    sf_norm; bool_facts;
    destruct SF as (N & F & K);
    try (split; reflexivity);
    destruct s; cbn in *; try discriminate;
    try (specialize (K eq_refl); destruct K as (K1 & K2));
    try (split; assumption);
    sf_cases N F; try sf_contradiction;
    split; assumption.
Qed.

Lemma DeliverFrame_checks_queue (d : DecryptingAudioDecoder)
    (buffer_size : Z) (status : DecryptorStatus)
    (frames : AudioBuffers.t) :
  dcheck_is_on = true ->
  queued_audio_frames_ d <> [] ->
  DeliverFrame buffer_size status frames d = Crashed DCheckFailure.
Proof.
  intros Hdbg Hq.
  destruct d as [s ic dc r sd c de p ka q b cl sp th wf wt].
  cbn in Hq. destruct q as [|f q]; [contradiction|].
  unfold_stage. rewrite Hdbg. cbn.
  destruct (State_eqb s kPendingDecode); cbn; [|reflexivity].
  destruct (is_null dc); cbn; [reflexivity|].
  destruct p; reflexivity.
Qed.

Lemma queue_filled_only_by_Success (i : Input)
    (d d' : DecryptingAudioDecoder) (u : unit) (out : list Event) :
  perform i d = Returned u d' out ->
  queued_audio_frames_ d = [] ->
  queued_audio_frames_ d' <> [] ->
  exists w buffer_size frames,
    i = FireDeliverFrame w buffer_size kSuccess frames /\
    (1 < length (AudioBuffers.pointers frames))%nat.
Proof.
  intros E Hq Hq'.
  destruct d as [s ic dc r sd c de p ka q b cl sp th wf wt].
  cbn in Hq. subst q.
  destruct i; invert_run E; finish_run E; try congruence.
  all: do 3 eexists; (split; [reflexivity|]);
    match goal with
    | Hl : length ?a = length ?ps, Hn : tl ?a <> [] |- _ =>
        rewrite <- Hl; revert Hn; clear;
        destruct a as [|? [|? ?]]; cbn; intros; try congruence; lia
    end.
Qed.

(** C8.  [Decode] on an idle stage whose queue is not empty hands out the
    front frame and removes it, submitting nothing.  On every reachable
    world, whenever a member function submits a decrypt request the queue is
    empty, before and after the call.  A build that checks its DCHECKs
    refuses a decryptor answer delivered while the queue is not empty.  An
    empty queue only becomes non-empty through a [kSuccess] answer carrying
    more than one frame. *)
Theorem output_queue_empty_at_submission :
  (forall (d : DecryptingAudioDecoder) (front : AudioBuffer.t)
          (rest : list AudioBuffer.t) (decode_cb : Callback),
     state_ d = kIdle ->
     decode_cb_ d = NullCallback ->
     queued_audio_frames_ d = front :: rest ->
     is_null decode_cb = false ->
     Decode None decode_cb d =
       Returned tt (set_queued_audio_frames rest d)
         [Run_decode_cb (BindToCurrentLoop decode_cb) kOk (Some front)])
  /\
  (forall (w : World) (i : Input) (u : unit) (d' : DecryptingAudioDecoder)
          (out : list Event),
     Reachable w ->
     enabled i w = true ->
     perform i (stage w) = Returned u d' out ->
     decrypt_requests out <> [] ->
     queued_audio_frames_ (stage w) = [] /\ queued_audio_frames_ d' = [])
  /\
  (dcheck_is_on = true ->
   forall (d : DecryptingAudioDecoder) (buffer_size : Z)
          (status : DecryptorStatus) (frames : AudioBuffers.t),
     queued_audio_frames_ d <> [] ->
     DeliverFrame buffer_size status frames d = Crashed DCheckFailure)
  /\
  (forall (i : Input) (d d' : DecryptingAudioDecoder) (u : unit)
          (out : list Event),
     perform i d = Returned u d' out ->
     queued_audio_frames_ d = [] ->
     queued_audio_frames_ d' <> [] ->
     exists w buffer_size frames,
       i = FireDeliverFrame w buffer_size kSuccess frames /\
       (1 < length (AudioBuffers.pointers frames))%nat).
Proof.
  split; [exact Decode_pops|].
  split; [|split].
  - intros w i u d' out Hw Hen Hrun Hreq.
    eapply submission_finds_queue_empty; try eassumption.
    + unfold enabled in Hen. destruct (fired i) as [k|]; [|exact I].
      apply existsb_Continuation_eqb. eassumption.
    + apply Reachable_single_flight. assumption.
  - intros Hdbg d buffer_size status frames Hq.
    apply DeliverFrame_checks_queue; assumption.
  - exact queue_filled_only_by_Success.
Qed.

(** ** Waiting for a key *)

(** C1.  With no [Reset] pending, a [kNoKey] answer puts the submitted
    buffer back as the pending buffer.  If a key arrived while the request
    was outstanding (the flag is set) the same buffer is submitted again at
    once, the flag is cleared, the state stays [kPendingDecode] and the
    decode callback is not run; otherwise the state becomes
    [kWaitingForKey] and nothing is emitted.  A key arriving during
    [kPendingDecode] only sets the flag; a key arriving during
    [kWaitingForKey] moves the stage back to [kPendingDecode] and submits
    the pending buffer again, without running the decode callback.  On every
    reachable world the decode callbacks run so far, followed by the one
    still held, are exactly the callbacks of the [Decode] calls made, in
    order: no callback is run more than once per call. *)
Theorem NoKey_keeps_buffer_for_retry :
  (forall (d : DecryptingAudioDecoder) (buffer : DecoderBuffer.t)
          (dec : Decryptor) (buffer_size : Z) (frames : AudioBuffers.t),
     awaiting_response d buffer ->
     is_null (reset_cb_ d) = true ->
     decryptor_ d = Some dec ->
     AudioBuffers.empty frames = true ->
     DeliverFrame buffer_size kNoKey frames d =
       if key_added_while_decode_pending_ d
       then Returned tt (set_key_added_while_decode_pending false d)
              [Decryptor_DecryptAndDecodeAudio dec buffer
                 (KDeliverFrame (weak_this_ d) (buffer_size_of buffer))]
       else Returned tt (set_state kWaitingForKey d) [])
  /\
  (forall d : DecryptingAudioDecoder,
     state_ d = kPendingDecode ->
     OnKeyAdded d =
       Returned tt (set_key_added_while_decode_pending true d) [])
  /\
  (forall (d : DecryptingAudioDecoder) (buffer : DecoderBuffer.t)
          (dec : Decryptor),
     state_ d = kWaitingForKey ->
     pending_buffer_to_decode_ d = Some buffer ->
     decryptor_ d = Some dec ->
     OnKeyAdded d =
       Returned tt (set_state kPendingDecode d)
         [Decryptor_DecryptAndDecodeAudio dec buffer
            (KDeliverFrame (weak_this_ d) (buffer_size_of buffer))])
  /\
  (forall w : World,
     Reachable w ->
     decode_cbs_run (history w) ++ decode_cb_held (stage w) =
     decode_cbs_given (inputs w)).
Proof.
  split; [|split; [|split]].
  - intros d buffer dec buffer_size frames (Hs & Hcb & Hp & Hq) Hr Hde Hf.
    destruct d as [s ic dc r sd c de p ka q b cl sp th wf wt].
    cbn in *. subst. unfold buffer_size_of.
    destruct ka; destruct (DecoderBuffer.end_of_stream buffer) eqn:He;
      compute_stage; reflexivity.
  - intros d Hs.
    destruct d as [s ic dc r sd c de p ka q b cl sp th wf wt].
    cbn in *. subst. compute_stage. reflexivity.
  - intros d buffer dec Hs Hp Hde.
    destruct d as [s ic dc r sd c de p ka q b cl sp th wf wt].
    cbn in *. subst. unfold buffer_size_of.
    destruct (DecoderBuffer.end_of_stream buffer) eqn:He;
      compute_stage; reflexivity.
  - exact Reachable_accounts_for_decode_cbs.
Qed.


(** ** Reconstructed timestamps *)

Lemma set_timestamp_helper_same (d : DecryptingAudioDecoder) :
  set_timestamp_helper (timestamp_helper_ d) d = d.
Proof. destruct d; reflexivity. Qed.

Lemma same_payload_refl (f : AudioBuffer.t) : same_payload f f.
Proof. repeat split. Qed.

Lemma same_payload_trans (f g k : AudioBuffer.t) :
  same_payload f g -> same_payload g k -> same_payload f k.
Proof.
  intros (E1 & C1 & S1) (E2 & C2 & S2). repeat split; congruence.
Qed.

Lemma stamped_same_payload (h : AudioTimestampHelper.t) (f : AudioBuffer.t) :
  same_payload f (stamped h f).
Proof. repeat split. Qed.

Lemma stamped_decoded (h : AudioTimestampHelper.t) (f : AudioBuffer.t) :
  decoded_frame f -> decoded_frame (stamped h f).
Proof. intros H. exact H. Qed.

Lemma stamped_duration (h : AudioTimestampHelper.t) (f : AudioBuffer.t) :
  duration_by_count (AudioTimestampHelper.samples_per_second h) (stamped h f).
Proof. reflexivity. Qed.

Lemma duration_same_payload_stamp (rate : Z) (f g : AudioBuffer.t) :
  AudioBuffer.frame_count f = AudioBuffer.frame_count g ->
  AudioBuffer.duration f = AudioBuffer.duration g ->
  duration_by_count rate f -> duration_by_count rate g.
Proof. unfold duration_by_count. intros <- <-. auto. Qed.

(** One turn of the loop on a pointer to a frame it accepts: the object is
    stamped and the helper counts its frames. *)
Lemma EnqueueFrames_loop_step (p : nat) (rest : list nat)
    (objects : list AudioBuffer.t) (d : DecryptingAudioDecoder)
    (f : AudioBuffer.t) (h : AudioTimestampHelper.t) :
  AudioBuffers.object_at objects p = Some f ->
  decoded_frame f ->
  timestamp_helper_ d = Some h ->
  EnqueueFrames_loop (p :: rest) objects d =
  EnqueueFrames_loop rest (AudioBuffers.write p (stamped h f) objects)
    (set_timestamp_helper
       (Some (AudioTimestampHelper.AddFrames (AudioBuffer.frame_count f) h))
       d).
Proof.
  intros Hf (Heos & Hpos) Hh.
  rewrite EnqueueFrames_loop_cons.
  apply Z.ltb_lt in Hpos.
  unfold bind at 1. rewrite Hf. cbv beta iota delta [deref ret].
  unfold bind at 1. rewrite Heos. cbn [negb]. rewrite DCHECK_true.
  cbv beta iota delta [ret].
  unfold bind at 1. rewrite Hpos, DCHECK_true.
  cbv beta iota delta [ret].
  unfold bind at 1. cbv beta iota delta [this].
  unfold bind at 1. rewrite Hh. cbv beta iota delta [deref ret].
  unfold bind at 1. cbv beta iota delta [assign].
  fold (stamped h f).
  match goal with
  | |- context [EnqueueFrames_loop rest ?o ?d1] =>
      destruct (EnqueueFrames_loop rest o d1); reflexivity
  end.
Qed.

Lemma points_to_decoded_write (objects : list AudioBuffer.t) (p q : nat)
    (f g : AudioBuffer.t) :
  AudioBuffers.object_at objects p = Some f ->
  decoded_frame g ->
  points_to_decoded objects q ->
  points_to_decoded (AudioBuffers.write p g objects) q.
Proof.
  intros Hf Hg (k & Hk & Hd).
  destruct (Nat.eq_dec q p) as [->|Hne].
  - exists g. split; [|exact Hg].
    apply object_at_write_same. eapply object_at_Some. eassumption.
  - exists k. split; [|exact Hd].
    rewrite object_at_write_other by assumption. exact Hk.
Qed.

Lemma listed_write_same_payload (objects : list AudioBuffer.t) (p : nat)
    (f g : AudioBuffer.t) (ps : list nat) :
  AudioBuffers.object_at objects p = Some f ->
  same_payload f g ->
  Forall2 same_payload (AudioBuffers.listed objects ps)
    (AudioBuffers.listed (AudioBuffers.write p g objects) ps).
Proof.
  intros Hf Hfg. unfold AudioBuffers.listed.
  induction ps as [|q ps IH]; [constructor|].
  cbn [flat_map].
  destruct (Nat.eq_dec q p) as [->|Hne].
  - rewrite Hf, object_at_write_same
      by (eapply object_at_Some; eassumption).
    cbn. constructor; assumption.
  - rewrite object_at_write_other by assumption.
    destruct (AudioBuffers.object_at objects q); cbn; [|exact IH].
    constructor; [apply same_payload_refl|exact IH].
Qed.

Lemma advanced_same_payload (a b : list AudioBuffer.t) :
  Forall2 same_payload a b -> forall h, advanced h a = advanced h b.
Proof.
  induction 1 as [|f g fs gs (_ & Hc & _) _ IH]; intros h; [reflexivity|].
  cbn. rewrite Hc. apply IH.
Qed.


(** The loop on any answer whose pointers point to frames it accepts, also
    one that lists a buffer more than once: it returns, the helper has
    counted the frames of every list position, every object keeps its
    payload, and every object the list points to ends with a duration of
    [frame_count / sample_rate]. *)
Lemma EnqueueFrames_loop_returns (pointers : list nat) :
  forall (objects : list AudioBuffer.t) (d : DecryptingAudioDecoder)
         (h : AudioTimestampHelper.t),
    timestamp_helper_ d = Some h ->
    Forall (points_to_decoded objects) pointers ->
    exists objects',
      EnqueueFrames_loop pointers objects d =
        Returned objects'
          (set_timestamp_helper
             (Some (advanced h (AudioBuffers.listed objects pointers))) d)
          [] /\
      (forall q f,
         AudioBuffers.object_at objects q = Some f ->
         exists f',
           AudioBuffers.object_at objects' q = Some f' /\
           same_payload f f' /\
           (duration_by_count (AudioTimestampHelper.samples_per_second h) f ->
            duration_by_count (AudioTimestampHelper.samples_per_second h)
              f')) /\
      (forall q,
         In q pointers ->
         exists f',
           AudioBuffers.object_at objects' q = Some f' /\
           duration_by_count (AudioTimestampHelper.samples_per_second h) f').
Proof.
  induction pointers as [|p ps IH]; intros objects d h Hh Hwf.
  - exists objects. cbn [EnqueueFrames_loop].
    change (AudioBuffers.listed objects []) with (@nil AudioBuffer.t).
    cbn [advanced]. rewrite <- Hh, set_timestamp_helper_same.
    split; [reflexivity|]. split; [|intros q []].
    intros q f Hf. exists f. split; [exact Hf|].
    split; [apply same_payload_refl|auto].
  - inversion Hwf as [|? ? (f & Hf & Hdec) Hwf']; subst.
    rewrite (EnqueueFrames_loop_step p ps objects d f h Hf Hdec Hh).
    set (objects1 := AudioBuffers.write p (stamped h f) objects).
    set (h1 := AudioTimestampHelper.AddFrames (AudioBuffer.frame_count f) h).
    assert (Hp1 : AudioBuffers.object_at objects1 p = Some (stamped h f))
      by (apply object_at_write_same; eapply object_at_Some; eassumption).
    destruct (IH objects1
                (set_timestamp_helper (Some h1) d) h1)
      as (objects' & E & Hkeep & Hdur).
    + destruct d; reflexivity.
    + eapply Forall_impl; [|exact Hwf'].
      intros q Hq. eapply points_to_decoded_write; eassumption.
    + change (AudioTimestampHelper.samples_per_second h1)
        with (AudioTimestampHelper.samples_per_second h) in Hkeep, Hdur.
      exists objects'.
      rewrite (listed_cons objects p ps f Hf).
      cbn [advanced]. fold h1.
      split; [|split].
      * assert (Hadv : advanced h1 (AudioBuffers.listed objects1 ps) =
                       advanced h1 (AudioBuffers.listed objects ps)).
        { symmetry. apply advanced_same_payload.
          apply listed_write_same_payload with (f := f);
            [exact Hf|apply stamped_same_payload]. }
        rewrite E, Hadv. destruct d; reflexivity.
      * intros q g Hg.
        destruct (Nat.eq_dec q p) as [->|Hne].
        -- assert (g = f) by congruence. subst g.
           destruct (Hkeep p _ Hp1) as (f' & Hf' & Hpay & Hgood).
           exists f'. split; [exact Hf'|]. split.
           ++ eapply same_payload_trans;
                [apply (stamped_same_payload h f)|exact Hpay].
           ++ intros _. apply Hgood. apply stamped_duration.
        -- apply Hkeep. unfold objects1.
           rewrite object_at_write_other by assumption. exact Hg.
      * intros q [<-|Hq].
        -- destruct (Hkeep p _ Hp1) as (f' & Hf' & _ & Hgood).
           exists f'. split; [exact Hf'|].
           apply Hgood. apply stamped_duration.
        -- apply Hdur. exact Hq.
Qed.

Lemma frames_in_length (frames : AudioBuffers.t) :
  decoded_answer frames ->
  length (frames_in frames) = length (AudioBuffers.pointers frames).
Proof.
  intros Hwf. apply listed_length.
  eapply Forall_impl; [|exact Hwf].
  intros p (f & Hf & _). eapply object_at_Some. eassumption.
Qed.


(** A [kSuccess] answer whose pointers point to frames the stage accepts,
    also one that lists a buffer more than once, with no [Reset] pending:
    the stage takes it, counts the frames of every list position, hands the
    front of the list to the decode callback and queues the others; each of
    them has its payload and a duration of [frame_count / sample_rate]. *)
Lemma DeliverFrame_Success_shared (d : DecryptingAudioDecoder)
    (buffer : DecoderBuffer.t) (h : AudioTimestampHelper.t)
    (frames : AudioBuffers.t) (buffer_size : Z) :
  awaiting_response d buffer ->
  is_null (reset_cb_ d) = true ->
  timestamp_helper_ d = Some h ->
  AudioBuffers.pointers frames <> [] ->
  decoded_answer frames ->
  exists (front : AudioBuffer.t) (queued : list AudioBuffer.t),
    DeliverFrame buffer_size kSuccess frames d =
      Returned tt
        (set_queued_audio_frames queued
           (set_decode_cb NullCallback
              (set_state kIdle
                 (set_timestamp_helper
                    (Some (advanced h (frames_in frames)))
                    (set_pending_buffer_to_decode None
                       (set_key_added_while_decode_pending false d))))))
        [Run_decode_cb (decode_cb_ d) kOk (Some front)] /\
    Forall2 same_payload (frames_in frames) (front :: queued) /\
    Forall (duration_by_count (AudioTimestampHelper.samples_per_second h))
           (front :: queued).
Proof.
  intros (Hs & Hcb & Hp & Hq) Hr Hh Hne Hwf.
  assert (Hempty : AudioBuffers.empty frames = false).
  { unfold AudioBuffers.empty.
    destruct (AudioBuffers.pointers frames); [contradiction|reflexivity]. }
  destruct d as [s ic dc r sd c de p ka q b cl sp th wf wt].
  cbn in Hs, Hcb, Hp, Hq, Hr, Hh. subst.
  match goal with
  | |- exists front queued, DeliverFrame ?n ?st ?fr ?d0 = _ /\ _ =>
      destruct (EnqueueFrames_loop_returns (AudioBuffers.pointers frames)
                  (AudioBuffers.store frames)
                  (set_queued_audio_frames (frames_in frames)
                     (set_pending_buffer_to_decode None
                        (set_key_added_while_decode_pending false d0)))
                  h eq_refl Hwf)
        as (objects' & E & Hkeep & Hdur)
  end.
  assert (Hall : Forall2 same_payload (frames_in frames)
                   (AudioBuffers.listed objects'
                      (AudioBuffers.pointers frames)) /\
                 Forall (duration_by_count
                           (AudioTimestampHelper.samples_per_second h))
                        (AudioBuffers.listed objects'
                           (AudioBuffers.pointers frames))).
  { clear E Hne Hempty. unfold frames_in, decoded_answer in *.
    induction (AudioBuffers.pointers frames) as [|p0 ps IH].
    - split; constructor.
    - inversion Hwf as [|? ? (f & Hf & _) Hwf']; subst.
      destruct (Hkeep p0 f Hf) as (f' & Hf' & Hpay & _).
      destruct (Hdur p0 (or_introl eq_refl)) as (f'' & Hf'' & Hgood).
      assert (f'' = f') by congruence. subst f''.
      rewrite (listed_cons _ _ _ _ Hf), (listed_cons _ _ _ _ Hf').
      destruct (IH Hwf') as [IH1 IH2].
      { intros q Hq. apply Hdur. right. exact Hq. }
      split; constructor; assumption. }
  destruct Hall as [Hpay Hgood].
  destruct (AudioBuffers.listed objects' (AudioBuffers.pointers frames))
    as [|front queued] eqn:Hl.
  { exfalso. inversion Hpay as [Hnil|]. 
    pose proof (frames_in_length frames Hwf) as Hlen.
    rewrite <- Hnil in Hlen.
    destruct (AudioBuffers.pointers frames); [contradiction|discriminate]. }
  exists front, queued.
  split; [|split; assumption].
  compute_stage. fold (frames_in frames).
  cbn in E. rewrite E.
  compute_stage. rewrite Hl.
  compute_stage. reflexivity.
Qed.

Lemma bind_Returned {A B : Type} (m : M A) (k : A -> M B)
    (d d1 : DecryptingAudioDecoder) (a : A) (out1 : list Event) :
  m d = Returned a d1 out1 ->
  bind m k d =
  match k a d1 with
  | Returned b d2 out2 => Returned b d2 (out1 ++ out2)
  | Crashed f => Crashed f
  end.
Proof. intros E. unfold bind. rewrite E. reflexivity. Qed.





















(** ** Reset outside a pending decode *)

(** X1.  [Reset] on a stage that waits for a key aborts the decode callback
    at once, drops the pending buffer and runs the closure; a key that
    arrives afterwards finds the stage idle and does nothing. *)
Theorem Reset_while_waiting_for_key (d : DecryptingAudioDecoder)
    (closure : Callback) (dec : Decryptor)
    (helper : AudioTimestampHelper.t) :
  state_ d = kWaitingForKey ->
  is_null (decode_cb_ d) = false ->
  is_null (init_cb_ d) = true ->
  is_null (reset_cb_ d) = true ->
  decryptor_ d = Some dec ->
  timestamp_helper_ d = Some helper ->
  let d' :=
    set_reset_cb NullCallback
      (set_state kIdle
         (set_timestamp_helper
            (Some (AudioTimestampHelper.SetBaseTimestamp kNoTimestamp helper))
            (set_decode_cb NullCallback
               (set_pending_buffer_to_decode None d)))) in
  Reset closure d =
    Returned tt d'
      [Decryptor_ResetDecoder dec;
       Run_decode_cb (decode_cb_ d) kAborted None;
       Run_reset_cb (BindToCurrentLoop closure)] /\
  OnKeyAdded d' = Returned tt d' [].
Proof.
  intros Hs Hdc Hi Hr Hde Hh d'. subst d'.
  destruct d as [s ic dc r sd c de p ka q b cl sp th wf wt].
  cbn in Hs, Hdc, Hi, Hr, Hde, Hh. subst.
  apply is_null_true in Hr. subst r.
  split; compute_stage; reflexivity.
Qed.

(** X2.  [Reset] on a stage at rest ([kIdle] or [kDecodeFinished]) asks the
    decryptor to reset and runs the closure at once; the stage is [kIdle]
    with the timestamp base cleared, also when it had finished decoding, so
    that the next [Decode] with a buffer goes to the decryptor again and
    seeds the base from that buffer. *)
Theorem Reset_at_rest_restarts (d : DecryptingAudioDecoder)
    (closure decode_cb : Callback) (dec : Decryptor)
    (helper : AudioTimestampHelper.t) (buffer : DecoderBuffer.t) :
  state_ d = kIdle \/ state_ d = kDecodeFinished ->
  decode_cb_ d = NullCallback ->
  is_null (init_cb_ d) = true ->
  reset_cb_ d = NullCallback ->
  decryptor_ d = Some dec ->
  timestamp_helper_ d = Some helper ->
  queued_audio_frames_ d = [] ->
  is_null decode_cb = false ->
  DecoderBuffer.end_of_stream buffer = false ->
  let d' :=
    set_state kIdle
      (set_timestamp_helper
         (Some (AudioTimestampHelper.SetBaseTimestamp kNoTimestamp helper))
         d) in
  Reset closure d =
    Returned tt d'
      [Decryptor_ResetDecoder dec; Run_reset_cb (BindToCurrentLoop closure)]
  /\
  Decode (Some buffer) decode_cb d' =
    Returned tt
      (set_state kPendingDecode
         (set_pending_buffer_to_decode (Some buffer)
            (set_timestamp_helper
               (Some (AudioTimestampHelper.SetBaseTimestamp
                        (DecoderBuffer.timestamp buffer) helper))
               (set_decode_cb (BindToCurrentLoop decode_cb) d'))))
      [Decryptor_DecryptAndDecodeAudio dec buffer
         (KDeliverFrame (weak_this_ d) (DecoderBuffer.data_size buffer))].
Proof.
  intros Hs Hdc Hi Hr Hde Hh Hq Hcb Heos d'. subst d'.
  destruct d as [s ic dc r sd c de p ka q b cl sp th wf wt].
  cbn in Hs, Hdc, Hi, Hr, Hde, Hh, Hq. subst.
  split.
  - destruct Hs as [-> | ->]; compute_stage; reflexivity.
  - compute_stage. reflexivity.
Qed.

(** ** What a checked build maintains *)

(** The loop of [EnqueueFrames] leaves the stage with a timestamp helper. *)
Lemma EnqueueFrames_loop_keeps_helper (pointers : list nat) :
  forall (objects objects' : list AudioBuffer.t)
         (d d' : DecryptingAudioDecoder) (out : list Event),
    EnqueueFrames_loop pointers objects d = Returned objects' d' out ->
    timestamp_helper_ d <> None -> timestamp_helper_ d' <> None.
Proof.
  induction pointers as [|p rest IH]; intros objects objects' d d' out E Hh.
  - cbn in E. inversion E; subst. assumption.
  - rewrite EnqueueFrames_loop_cons in E.
    cbv beta delta [DCHECK bind ret this assign crash deref] in E.
    destruct (AudioBuffers.object_at objects p) as [f|]; [|discriminate].
    cbn in E.
    destruct (dcheck_is_on && negb (negb (AudioBuffer.end_of_stream f)));
      [discriminate|].
    cbn in E.
    destruct (dcheck_is_on && negb (0 <? AudioBuffer.frame_count f)%Z);
      [discriminate|].
    cbn in E.
    destruct (timestamp_helper_ d) as [h|] eqn:Eh; [|discriminate].
    cbn in E.
    match type of E with
    | context [EnqueueFrames_loop rest ?o1 ?d1] =>
        destruct (EnqueueFrames_loop rest o1 d1) as [q d2 o|] eqn:Er;
          [|discriminate]
    end.
    cbn in E. inversion E; subst.
    eapply IH; [exact Er|].
    destruct d; cbn. discriminate.
Qed.

(** Path analysis in a build that checks its DCHECKs. *)
Ltac break_checked_in H :=
  match type of H with
  | context [match EnqueueFrames_loop ?ps ?objects ?d1 with _ => _ end] =>
      let Hq := fresh "Hloop" in
      let Hk := fresh "Hkeeps" in
      let h := fresh "h" in
      destruct (EnqueueFrames_loop ps objects d1) as [? ? ?|] eqn:Hq;
      [pose proof (EnqueueFrames_loop_keeps_helper _ _ _ _ _ _ Hq) as Hk;
       apply EnqueueFrames_loop_effect in Hq;
       destruct Hq as (-> & (h & ->) & Hq) | ]
  | context [match ?x with _ => _ end] =>
      lazymatch x with
      | context [match _ with _ => _ end] => fail
      | _ => destruct x eqn:?
      end
  end.

Ltac invert_checked_run H Hdbg :=
  cbv beta delta
    [Initialize InitializeDecoder Decode DecodePendingBuffer DoReset Reset
     Stop SetDecryptor UpdateDecoderConfig FinishInitialization EnqueueFrames
     DeliverFrame OnKeyAdded via_weak perform GetDecodeOutput Destructor
     DCHECK CHECK bind ret this assign emit crash deref ResetAndReturn Run]
    in H;
  rewrite ?Hdbg in H;
  cbn in H;
  repeat (first [ discriminate H
                | break_checked_in H; cbn in H ]).

Ltac use_state_facts :=
  repeat match goal with
         | H : ?x = ?x -> _ |- _ => specialize (H eq_refl)
         | H : (?x = ?x \/ _) -> _ |- _ => specialize (H (or_introl eq_refl))
         | H : (_ \/ ?x = ?x) -> _ |- _ => specialize (H (or_intror eq_refl))
         | H : _ /\ _ |- _ => destruct H
         end.

Ltac consistent_finish :=
  repeat match goal with
         | |- _ /\ _ => split
         | |- _ -> _ => intro
         | H : _ \/ _ |- _ => destruct H
         | H : _ /\ _ |- _ => destruct H
         | H : ?P, F : ?P -> _ |- _ => specialize (F H)
         end;
  try discriminate; try congruence; auto.

(** One member function preserves the consistency of the members. *)
Lemma perform_consistent (i : Input) (d d' : DecryptingAudioDecoder)
    (u : unit) (out : list Event) :
  dcheck_is_on = true ->
  perform i d = Returned u d' out ->
  consistent d -> consistent d'.
Proof.
  intros Hdbg E C.
  destruct d as [s ic dc r sd c de p ka q b cl sp th wf wt].
  unfold consistent in *.
  destruct i; invert_checked_run E Hdbg; finish_run E; bool_facts;
    destruct C as (A1 & A2 & A3 & A4 & A6 & A5);
    destruct s; cbn in *; try discriminate;
    use_state_facts; consistent_finish.
Qed.

Lemma Reachable_consistent (w : World) :
  dcheck_is_on = true -> Reachable w -> consistent (stage w).
Proof.
  intros Hdbg. induction 1 as [sd|i w w' Hw IH Hstep].
  - unfold consistent. cbn. consistent_finish.
  - apply world_step_inv in Hstep.
    destruct Hstep as (_ & u & d' & out & Hrun & ->).
    cbn [stage]. eapply perform_consistent; eassumption.
Qed.

(** Writes the stage of an outcome as one record. *)
Ltac flatten_stage_in H :=
  cbv beta iota delta
    [set_state set_init_cb set_decode_cb set_reset_cb
     set_set_decryptor_ready_cb set_config set_decryptor
     set_pending_buffer_to_decode set_key_added_while_decode_pending
     set_queued_audio_frames set_output_format set_timestamp_helper
     set_weak_factory set_weak_this
     state_ init_cb_ decode_cb_ reset_cb_ set_decryptor_ready_cb_ config_
     decryptor_ pending_buffer_to_decode_ key_added_while_decode_pending_
     queued_audio_frames_ bits_per_channel_ channel_layout_
     samples_per_second_ timestamp_helper_ weak_factory_ weak_this_] in H.

(** Runs the call of the goal to its outcome, which is a return. *)
Ltac answer_computed :=
  match goal with
  | |- exists d' out, ?t = _ =>
      let E := fresh "E" in
      destruct t as [[] ? ?|?] eqn:E;
      [eexists; eexists; reflexivity|exfalso; eval_in E; discriminate E]
  end.

(** A consistent stage with a request pending takes every well-formed
    answer. *)
Lemma DeliverFrame_accepted (d : DecryptingAudioDecoder) (buffer_size : Z)
    (status : DecryptorStatus) (frames : AudioBuffers.t) :
  consistent d ->
  state_ d = kPendingDecode ->
  (status = kSuccess <-> AudioBuffers.pointers frames <> []) ->
  decoded_answer frames ->
  exists d' out,
    DeliverFrame buffer_size status frames d = Returned tt d' out.
Proof.
  intros C Hs Hst Hwf.
  assert (Hempty : status <> kSuccess -> AudioBuffers.empty frames = true).
  { intros Hn. unfold AudioBuffers.empty.
    destruct (AudioBuffers.pointers frames) as [|x xs]; [reflexivity|].
    exfalso. apply Hn. apply Hst. discriminate. }
  destruct d as [s ic dc r sd c de p ka q b cl sp th wf wt].
  unfold consistent in C. cbn in * |-. subst s.
  destruct C as (A1 & A2 & A3 & A4 & A6 & A5). cbn in * |-. use_state_facts.
  subst q.
  destruct th as [h|]; [|congruence].
  destruct de as [dec|]; [|congruence].
  destruct p as [buffer|]; [|congruence].
  destruct (is_null r) eqn:Hr.
  - destruct status.
    + match goal with
      | |- exists d' out, DeliverFrame ?n _ ?fr ?d0 = _ =>
          destruct (DeliverFrame_Success_shared d0 buffer h fr n)
            as (front & queued & E & _);
            [repeat split; assumption|exact Hr|reflexivity
            |apply Hst; reflexivity|exact Hwf|]
      end.
      eexists. eexists. exact E.
    + specialize (Hempty ltac:(discriminate)).
      destruct ka; answer_computed.
    + specialize (Hempty ltac:(discriminate)).
      destruct (DecoderBuffer.end_of_stream buffer) eqn:Heos;
        answer_computed.
    + specialize (Hempty ltac:(discriminate)).
      answer_computed.
  - answer_computed.
Qed.

(** ** A pending request has its answer on the way *)

Lemma In_remove_first_other (k k' : Continuation) (ks : list Continuation) :
  k <> k' -> In k ks -> In k (remove_first k' ks).
Proof.
  intros Hne. induction ks as [|k0 ks IH]; [intros []|].
  intros [->|Hin]; cbn.
  - destruct (Continuation_eqb k' k) eqn:He.
    + apply Continuation_eqb_eq in He. congruence.
    + left. reflexivity.
  - destruct (Continuation_eqb k' k0); [assumption|].
    right. apply IH. assumption.
Qed.

Ltac outstanding_finish :=
  first
    [ discriminate
    | congruence
    | apply Nat.eqb_refl
    | assumption
    | eexists; apply in_or_app; right; left; reflexivity
    | match goal with
      | H : exists n, In _ _ |- _ =>
          let n := fresh "n" in
          destruct H as (n & H); exists n; rewrite ?app_nil_r;
          first [ exact H
                | apply In_remove_first_other;
                  [intros Q; inversion Q; subst; congruence|exact H] ]
      end ].

Lemma perform_request_outstanding (i : Input)
    (d d' : DecryptingAudioDecoder) (u : unit) (out : list Event)
    (ks : list Continuation) :
  dcheck_is_on = true ->
  perform i d = Returned u d' out ->
  consistent d ->
  request_outstanding d ks ->
  request_outstanding d' (after_firing i ks ++ flat_map handed_out out).
Proof.
  intros Hdbg E C R.
  destruct d as [s ic dc r sd c de p ka q b cl sp th wf wt].
  unfold consistent, request_outstanding, weak_valid, after_firing in *.
  destruct i; invert_checked_run E Hdbg; finish_run E; bool_facts;
    unfold weak_valid in *;
    destruct C as (A1 & A2 & A3 & A4 & A6 & A5);
    destruct R as (R1 & R2);
    destruct s; cbn in *; try discriminate;
    use_state_facts;
    (split; [intros G1 G2|intros G]);
    try (specialize (R1 ltac:(discriminate) ltac:(discriminate)));
    try (specialize (R2 eq_refl));
    outstanding_finish.
Qed.

Lemma Reachable_request_outstanding (w : World) :
  dcheck_is_on = true ->
  Reachable w -> request_outstanding (stage w) (continuations w).
Proof.
  intros Hdbg. induction 1 as [sd|i w w' Hw IH Hstep].
  - split; cbn; [congruence|discriminate].
  - pose proof (Reachable_consistent _ Hdbg Hw) as C.
    apply world_step_inv in Hstep.
    destruct Hstep as (_ & u & d' & out & Hrun & ->).
    cbn [stage continuations].
    eapply perform_request_outstanding; eassumption.
Qed.

(** An answer bound to a valid weak pointer finds its request pending. *)
Lemma valid_answer_finds_request (w : World) (wp : WeakPtr) (n : Z) :
  dcheck_is_on = true ->
  Reachable w ->
  In (KDeliverFrame wp n) (continuations w) ->
  weak_valid wp (stage w) = true ->
  state_ (stage w) = kPendingDecode.
Proof.
  intros Hdbg Hw Hin Hv.
  destruct (Reachable_single_flight _ Hw) as (N & F & _).
  destruct (Reachable_consistent _ Hdbg Hw) as (_ & _ & A3 & _).
  pose proof (decrypts_remove_deliver (KDeliverFrame wp n) _ eq_refl Hin)
    as Hd.
  assert (Hone : decrypts (continuations w) = 1%nat) by lia.
  destruct (F Hone) as [(_ & _ & T)|(L1 & L2 & _)].
  - rewrite Forall_forall in T. specialize (T _ Hin).
    unfold dead in T. cbn in T. congruence.
  - destruct (A3 L1) as [G|G]; [exact G|contradiction].
Qed.

(** X3.  In a build that checks its DCHECKs the callbacks the stage holds
    tell its state, on every reachable world: an [Initialize] callback is
    held only in [kDecryptorRequested] and [kPendingDecoderInit]; the decode
    callback is held exactly in [kPendingDecode] and [kWaitingForKey], and
    then the pending buffer is held too and nothing is queued; a reset
    closure is held only in [kPendingDecode]; and in [kPendingDecode]
    exactly one decrypt request is outstanding. *)
Theorem callbacks_held_only_in_their_states (w : World) :
  dcheck_is_on = true ->
  Reachable w ->
  (is_null (init_cb_ (stage w)) = false ->
   state_ (stage w) = kDecryptorRequested \/
   state_ (stage w) = kPendingDecoderInit) /\
  (is_null (decode_cb_ (stage w)) = false <->
   state_ (stage w) = kPendingDecode \/ state_ (stage w) = kWaitingForKey) /\
  (state_ (stage w) = kPendingDecode \/ state_ (stage w) = kWaitingForKey ->
   pending_buffer_to_decode_ (stage w) <> None /\
   queued_audio_frames_ (stage w) = []) /\
  (is_null (reset_cb_ (stage w)) = false ->
   state_ (stage w) = kPendingDecode) /\
  (state_ (stage w) = kPendingDecode -> outstanding_decrypts w = 1%nat).
Proof.
  intros Hdbg Hw.
  destruct (Reachable_consistent _ Hdbg Hw) as (A1 & A2 & A3 & A4 & A6 & A5).
  split; [exact A6|]. split; [|split; [|split; [exact A4|]]].
  - split; [exact A3|]. intros G. apply A2. exact G.
  - intros G. apply A2. exact G.
  - intros G.
    destruct (Reachable_single_flight _ Hw) as (N & _).
    destruct (Reachable_request_outstanding _ Hdbg Hw) as (_ & R).
    destruct (R G) as (n & Hin).
    pose proof (decrypts_remove_deliver (KDeliverFrame _ n) _ eq_refl Hin)
      as Hd.
    unfold outstanding_decrypts. fold (decrypts (continuations w)). lia.
Qed.

(** X4.  In a build that checks its DCHECKs, the answer to a decrypt request
    of a reachable world is always taken, whatever its status, provided it
    is well formed: frames come with [kSuccess] and only with it, and each
    of them is a non-empty frame that is not an end-of-stream frame.  An
    answer whose weak pointer is still valid finds the stage in
    [kPendingDecode]. *)
Theorem decryptor_answer_accepted (w : World) (wp : WeakPtr)
    (buffer_size : Z) (status : DecryptorStatus)
    (frames : AudioBuffers.t) :
  dcheck_is_on = true ->
  Reachable w ->
  enabled (FireDeliverFrame wp buffer_size status frames) w = true ->
  (status = kSuccess <-> AudioBuffers.pointers frames <> []) ->
  decoded_answer frames ->
  (weak_valid wp (stage w) = true -> state_ (stage w) = kPendingDecode) /\
  exists w',
    world_step (FireDeliverFrame wp buffer_size status frames) w = Some w'.
Proof.
  intros Hdbg Hw Hen Hst Hwf.
  assert (Hin : In (KDeliverFrame wp buffer_size) (continuations w))
    by (apply existsb_Continuation_eqb; exact Hen).
  pose proof (valid_answer_finds_request _ _ _ Hdbg Hw Hin) as Hpend.
  split; [exact Hpend|].
  unfold world_step. rewrite Hen. cbn [perform]. unfold via_weak.
  destruct (weak_valid wp (stage w)) eqn:Hv.
  - destruct (DeliverFrame_accepted (stage w) buffer_size status frames
                (Reachable_consistent _ Hdbg Hw) (Hpend eq_refl) Hst Hwf)
      as (d' & out & ->).
    eexists. reflexivity.
  - eexists. reflexivity.
Qed.

(** X5.  In a build that checks its DCHECKs, [Decode] is accepted on every
    reachable stage at rest, given a callback and, in [kIdle], a buffer
    exactly when nothing is queued.  Either the callback is run at once and
    the state stays, or the buffer is submitted: the stage is in
    [kPendingDecode], holds the buffer and the callback, and exactly one
    decrypt request is outstanding. *)
Theorem Decode_accepted_at_rest (w : World)
    (buffer : option DecoderBuffer.t) (decode_cb : Callback) :
  dcheck_is_on = true ->
  Reachable w ->
  state_ (stage w) = kIdle \/ state_ (stage w) = kDecodeFinished ->
  is_null decode_cb = false ->
  (state_ (stage w) = kIdle ->
   (queued_audio_frames_ (stage w) = [] <-> buffer <> None)) ->
  exists w',
    world_step (CallDecode buffer decode_cb) w = Some w' /\
    ((state_ (stage w') = state_ (stage w) /\
      is_null (decode_cb_ (stage w')) = true /\
      decode_cbs_run (history w') =
        decode_cbs_run (history w) ++ [BindToCurrentLoop decode_cb]) \/
     (state_ (stage w') = kPendingDecode /\
      buffer <> None /\
      pending_buffer_to_decode_ (stage w') = buffer /\
      decode_cb_ (stage w') = BindToCurrentLoop decode_cb /\
      outstanding_decrypts w' = 1%nat)).
Proof.
  intros Hdbg Hw Hs Hcb Hq.
  pose proof (Reachable_consistent _ Hdbg Hw) as C.
  destruct (Reachable_single_flight _ Hw) as (N & F & _).
  destruct w as [d ks hist ins].
  unfold world_step, enabled, outstanding_decrypts.
  cbn [fired stage history inputs continuations perform] in *.
  destruct C as (A1 & A2 & A3 & A4 & A6 & A5).
  destruct (is_null (decode_cb_ d)) eqn:Hdc;
    [|destruct (A3 eq_refl) as [G|G]; destruct Hs; congruence].
  assert (Hn : decrypts ks = 0%nat).
  { assert (Hn : decrypts ks = 0%nat \/ decrypts ks = 1%nat) by lia.
    destruct Hn as [Hn|Hn]; [exact Hn|].
    destruct (F Hn) as [(T & _)|(L & _)]; [|congruence].
    destruct Hs; congruence. }
  destruct (A1 ltac:(destruct Hs as [-> | ->]; reflexivity))
    as (Hth & Hde & Hic).
  destruct (timestamp_helper_ d) as [h|] eqn:Eh; [|congruence].
  destruct (decryptor_ d) as [dec|] eqn:Ede; [|congruence].
  destruct Hs as [Hs|Hs].
  - destruct (queued_audio_frames_ d) as [|front rest] eqn:Eq.
    + destruct buffer as [b|];
        [|exfalso; exact (proj1 (Hq Hs) eq_refl eq_refl)].
      rewrite (Decode_submits d b decode_cb dec h) by assumption.
      eexists. split; [reflexivity|]. right.
      cbn [stage continuations after_firing fired flat_map handed_out app].
      fold (decrypts (ks ++ [KDeliverFrame (weak_this_ d) (buffer_size_of b)])).
      rewrite decrypts_app, Hn.
      destruct d; repeat split; discriminate.
    + destruct buffer as [b|];
        [discriminate (proj2 (Hq Hs) ltac:(discriminate))|].
      destruct d as [s ic dc r sd c de p ka q bb cl sp th wf wt].
      cbn in Hs, Eq, Hdc. subst.
      match goal with
      | |- context [Decode ?b ?cb ?d] =>
          destruct (Decode b cb d) as [[] d' out|f] eqn:E
      end; eval_in E; [|discriminate E].
      inversion E; subst; clear E.
      eexists. split; [reflexivity|]. left.
      cbn [stage history]. rewrite decode_cbs_run_app.
      repeat split.
  - destruct d as [s ic dc r sd c de p ka q bb cl sp th wf wt].
    cbn in Hs, Hdc. subst.
    match goal with
    | |- context [Decode ?b ?cb ?d] =>
        destruct (Decode b cb d) as [[] d' out|f] eqn:E
    end; eval_in E; [|discriminate E].
    inversion E; subst; clear E.
    eexists. split; [reflexivity|]. left.
    cbn [stage history]. rewrite decode_cbs_run_app.
    repeat split.
Qed.

Lemma reset_cbs_run_app (a b : list Event) :
  reset_cbs_run (a ++ b) = reset_cbs_run a ++ reset_cbs_run b.
Proof. unfold reset_cbs_run. apply flat_map_app. Qed.

Lemma reset_cbs_given_app (a b : list Input) :
  reset_cbs_given (a ++ b) = reset_cbs_given a ++ reset_cbs_given b.
Proof. unfold reset_cbs_given. apply flat_map_app. Qed.

(** Rules out the cases that contradict the state at hand. *)
Ltac exclude_states :=
  use_state_facts;
  repeat match goal with
         | H : _ \/ _ |- _ => destruct H
         | H : _ /\ _ |- _ => destruct H
         end;
  congruence.

(** X6.  In a build that checks its DCHECKs, [Reset] is accepted on every
    reachable stage that decodes and holds no reset closure.  While a
    request is pending the closure is only stored; in every other state it
    is run before [Reset] returns, and the stage is then [kIdle] and holds
    neither a decode callback nor a reset closure. *)
Theorem Reset_accepted_while_decoding (w : World) (closure : Callback) :
  dcheck_is_on = true ->
  Reachable w ->
  decoding_state (state_ (stage w)) = true ->
  is_null (reset_cb_ (stage w)) = true ->
  exists w',
    world_step (CallReset closure) w = Some w' /\
    if State_eqb (state_ (stage w)) kPendingDecode
    then state_ (stage w') = kPendingDecode /\
         reset_cb_ (stage w') = BindToCurrentLoop closure /\
         reset_cbs_run (history w') = reset_cbs_run (history w)
    else state_ (stage w') = kIdle /\
         is_null (reset_cb_ (stage w')) = true /\
         is_null (decode_cb_ (stage w')) = true /\
         reset_cbs_run (history w') =
           reset_cbs_run (history w) ++ [BindToCurrentLoop closure].
Proof.
  intros Hdbg Hw Hs Hr.
  pose proof (Reachable_consistent _ Hdbg Hw) as C.
  destruct w as [d ks hist ins].
  unfold world_step, enabled.
  cbn [fired stage history inputs continuations perform] in *.
  destruct C as (A1 & A2 & A3 & A4 & A6 & A5).
  destruct (A1 Hs) as (Hth & Hde & Hic).
  destruct d as [s ic dc r sd c de p ka q bb cl sp th wf wt].
  cbn in * |-.
  destruct th as [h|]; [|congruence].
  destruct de as [dec|]; [|congruence].
  destruct (is_null dc) eqn:Hdc; destruct s; try discriminate Hs;
    try exclude_states;
    match goal with
    | |- context [Reset ?c ?d] =>
        destruct (Reset c d) as [[] d' out|f] eqn:E
    end;
    eval_in E; try discriminate E;
    inversion E; subst; clear E;
    (eexists; split; [reflexivity|]);
    cbn; rewrite reset_cbs_run_app; cbn; rewrite ?app_nil_r;
    repeat split; assumption.
Qed.

Lemma Continuation_eqb_refl (k : Continuation) : Continuation_eqb k k = true.
Proof.
  destruct k as [[n|]|[n|]|[n|] z|[n|]]; cbn;
    rewrite ?Nat.eqb_refl, ?Z.eqb_refl; reflexivity.
Qed.

Lemma In_enabled (i : Input) (k : Continuation) (w : World) :
  fired i = Some k -> In k (continuations w) -> enabled i w = true.
Proof.
  intros Hk Hin. unfold enabled. rewrite Hk.
  apply existsb_exists. exists k. split; [exact Hin|].
  apply Continuation_eqb_refl.
Qed.

(** X7.  In a build that checks its DCHECKs, a deferred [Reset] always
    completes.  While a reset closure is held, on a reachable world, the
    stage is in [kPendingDecode] and the answer to its request is on the
    way, bound to the stage's weak pointer; when it arrives, whatever its
    status and frames, the decode callback is run with [kAborted] and then
    the closure, and the stage is [kIdle] with neither of them held. *)
Theorem deferred_Reset_completes (w : World) :
  dcheck_is_on = true ->
  Reachable w ->
  is_null (reset_cb_ (stage w)) = false ->
  state_ (stage w) = kPendingDecode /\
  exists buffer_size : Z,
    In (KDeliverFrame (weak_this_ (stage w)) buffer_size) (continuations w) /\
    forall (status : DecryptorStatus) (frames : AudioBuffers.t),
    exists w',
      world_step
        (FireDeliverFrame (weak_this_ (stage w)) buffer_size status frames)
        w = Some w' /\
      state_ (stage w') = kIdle /\
      is_null (reset_cb_ (stage w')) = true /\
      is_null (decode_cb_ (stage w')) = true /\
      history w' =
        history w ++
        [Run_decode_cb (decode_cb_ (stage w)) kAborted None;
         Run_reset_cb (reset_cb_ (stage w))].
Proof.
  intros Hdbg Hw Hr.
  destruct (Reachable_consistent _ Hdbg Hw) as (A1 & A2 & A3 & A4 & A6 & A5).
  destruct (Reachable_request_outstanding _ Hdbg Hw) as (R1 & R2).
  pose proof (A4 Hr) as Hs.
  split; [exact Hs|].
  destruct (R2 Hs) as (n & Hin). exists n. split; [exact Hin|].
  intros status frames.
  unfold world_step.
  rewrite (In_enabled
             (FireDeliverFrame (weak_this_ (stage w)) n status frames)
             _ _ eq_refl Hin).
  specialize (R1 ltac:(congruence) ltac:(congruence)).
  cbn [perform]. unfold via_weak. rewrite R1.
  destruct (A1 ltac:(rewrite Hs; reflexivity)) as (Hth & Hde & Hic).
  destruct (A2 (or_introl Hs)) as (Hdc & Hp & Hq).
  destruct w as [d ks hist ins].
  cbn [stage history inputs continuations] in *.
  destruct d as [s ic dc r sd c de p ka q bb cl sp th wf wt].
  cbn in * |-. subst.
  destruct th as [h|]; [|congruence].
  destruct p as [b|]; [|congruence].
  match goal with
  | |- context [DeliverFrame ?n ?st ?fr ?d] =>
      destruct (DeliverFrame n st fr d) as [[] d' out|f] eqn:E
  end; eval_in E; [|discriminate E].
  inversion E; subst; clear E.
  eexists. split; [reflexivity|]. cbn. repeat split.
Qed.

(** X8.  In a build that checks its DCHECKs the key-added flag is set only
    while a request is pending (or left over on a stopped stage), on every
    reachable world: a key that arrived before a buffer was submitted does
    not count for it.  A buffer submitted on an idle stage and answered with
    [kNoKey], with no key arriving in between, is not submitted again: the
    stage waits for a key and keeps the buffer and the decode callback. *)
Theorem key_before_request_not_counted (w : World) :
  dcheck_is_on = true ->
  Reachable w ->
  (key_added_while_decode_pending_ (stage w) = true ->
   state_ (stage w) = kPendingDecode \/ state_ (stage w) = kStopped) /\
  (forall (buffer : DecoderBuffer.t) (decode_cb : Callback)
          (buffer_size : Z) (frames : AudioBuffers.t),
     state_ (stage w) = kIdle ->
     queued_audio_frames_ (stage w) = [] ->
     is_null decode_cb = false ->
     AudioBuffers.empty frames = true ->
     exists d' dec,
       (Decode (Some buffer) decode_cb ;;
        DeliverFrame buffer_size kNoKey frames) (stage w) =
         Returned tt d'
           [Decryptor_DecryptAndDecodeAudio dec buffer
              (KDeliverFrame (weak_this_ (stage w))
                 (buffer_size_of buffer))] /\
       state_ d' = kWaitingForKey /\
       pending_buffer_to_decode_ d' = Some buffer /\
       decode_cb_ d' = BindToCurrentLoop decode_cb).
Proof.
  intros Hdbg Hw.
  destruct (Reachable_consistent _ Hdbg Hw) as (A1 & A2 & A3 & A4 & A6 & A5).
  split.
  - intros Hk. destruct (A5 Hk) as [G|(G & _)]; [left|right]; exact G.
  - intros buffer decode_cb buffer_size frames Hs Hq Hcb Hf.
    destruct (A1 ltac:(rewrite Hs; reflexivity)) as (Hth & Hde & Hic).
    destruct (stage w) as [s ic dc r sd c de p ka q bb cl sp th wf wt].
    cbn in * |-. subst.
    destruct th as [h|]; [|congruence].
    destruct de as [dec|]; [|congruence].
    destruct (is_null dc) eqn:Hdc; [|exclude_states].
    destruct (is_null r) eqn:Hr; [|exclude_states].
    destruct ka; [exclude_states|].
    match goal with
    | |- context [bind (Decode ?b ?cb) ?k ?d] =>
        rewrite (bind_Returned (Decode b cb) k d _ _ _
                   (Decode_submits d buffer decode_cb dec h
                      eq_refl Hdc eq_refl eq_refl eq_refl Hcb))
    end.
    match goal with
    | |- context [DeliverFrame ?n ?st ?fr ?d] =>
        destruct (DeliverFrame n st fr d) as [[] d' out|f] eqn:E
    end; eval_in E; [|discriminate E].
    inversion E; subst; clear E.
    eexists. eexists. split; [reflexivity|]. repeat split.
Qed.

(** ** Reset closures *)

Ltac null_facts :=
  repeat match goal with
         | H : is_null ?x = _ |- context [is_null ?x] => rewrite H
         | H : negb (is_null ?x) = true |- context [is_null ?x] =>
             apply negb_true_iff in H; rewrite H
         | H : negb (is_null ?x) = false |- context [is_null ?x] =>
             apply negb_false_iff in H; rewrite H
         end.

(** With the DCHECKs on, every member function hands back exactly the reset
    closures it was given or held, each once. *)
Lemma perform_accounts_for_reset_cbs (i : Input)
    (d d' : DecryptingAudioDecoder) (u : unit) (out : list Event) :
  dcheck_is_on = true ->
  perform i d = Returned u d' out ->
  reset_cbs_run out ++ reset_cb_held d' =
  reset_cb_held d ++ reset_cbs_given [i].
Proof.
  intros Hdbg E.
  destruct d as [s ic dc r sd c de p ka q b cl sp th wf wt].
  unfold reset_cb_held.
  destruct i; invert_checked_run E Hdbg; finish_run E;
    rewrite ?app_nil_r; null_facts; reflexivity.
Qed.

Lemma Reachable_accounts_for_reset_cbs (w : World) :
  dcheck_is_on = true ->
  Reachable w ->
  reset_cbs_run (history w) ++ reset_cb_held (stage w) =
  reset_cbs_given (inputs w).
Proof.
  intros Hdbg. induction 1 as [sd|i w w' Hw IH Hstep].
  - reflexivity.
  - apply world_step_inv in Hstep.
    destruct Hstep as (_ & u & d' & out & Hrun & ->).
    cbn [history stage inputs].
    rewrite reset_cbs_run_app, reset_cbs_given_app, <- app_assoc.
    rewrite (perform_accounts_for_reset_cbs _ _ _ _ _ Hdbg Hrun).
    rewrite app_assoc, IH. reflexivity.
Qed.

(** X9.  In a build that checks its DCHECKs, on every reachable world the
    reset closures run so far, followed by the one still held, are exactly
    the closures of the [Reset] calls made, in order: every closure is run
    once or is the one still held, and none is run twice. *)
Theorem Reset_closures_accounted (w : World) :
  dcheck_is_on = true ->
  Reachable w ->
  reset_cbs_run (history w) ++ reset_cb_held (stage w) =
    reset_cbs_given (inputs w) /\
  (is_null (reset_cb_ (stage w)) = true ->
   reset_cbs_run (history w) = reset_cbs_given (inputs w)).
Proof.
  intros Hdbg Hw.
  pose proof (Reachable_accounts_for_reset_cbs _ Hdbg Hw) as Hacc.
  split; [exact Hacc|].
  intros Hr. unfold reset_cb_held in Hacc. rewrite Hr, app_nil_r in Hacc.
  exact Hacc.
Qed.

(** X10.  After [Stop] nothing the caller gave is left pending: on the world
    that [Stop] leaves, every callback given to [Decode] so far has been
    run, in order and once each; in a build that checks its DCHECKs the same
    holds of the closures given to [Reset]; and the last thing [Stop] does
    is to post its own closure. *)
Theorem Stop_leaves_nothing_pending (w w1 : World) (closure : Callback) :
  Reachable w ->
  world_step (CallStop closure) w = Some w1 ->
  decode_cbs_run (history w1) = decode_cbs_given (inputs w1) /\
  (dcheck_is_on = true ->
   reset_cbs_run (history w1) = reset_cbs_given (inputs w1)) /\
  exists before, history w1 = before ++ [PostTask closure].
Proof.
  intros Hw Hstep.
  assert (Hw1 : Reachable w1) by (eapply Reachable_step; eassumption).
  pose proof (Reachable_accounts_for_decode_cbs _ Hw1) as Hdec.
  apply world_step_inv in Hstep.
  destruct Hstep as (_ & u & d' & out & Hrun & ->).
  cbn [perform] in Hrun. rewrite Stop_eq in Hrun.
  inversion Hrun; subst; clear Hrun.
  split; [|split].
  - unfold decode_cb_held in Hdec. cbn [stage] in Hdec.
    change (decode_cb_ (stopped (stage w))) with NullCallback in Hdec.
    cbn [is_null] in Hdec. rewrite app_nil_r in Hdec. exact Hdec.
  - intros Hdbg.
    pose proof (Reachable_accounts_for_reset_cbs _ Hdbg Hw1) as Hres.
    unfold reset_cb_held in Hres. cbn [stage] in Hres.
    change (reset_cb_ (stopped (stage w))) with NullCallback in Hres.
    cbn [is_null] in Hres. rewrite app_nil_r in Hres. exact Hres.
  - cbn [history]. unfold Stop_events.
    eexists. rewrite !app_assoc. reflexivity.
Qed.

(** ** After Stop *)

Lemma perform_released (i : Input) (d d' : DecryptingAudioDecoder)
    (u : unit) (out : list Event) (ks : list Continuation) :
  perform i d = Returned u d' out ->
  match fired i with Some k => In k ks | None => True end ->
  Forall (fun k => weak_issued (weak_factory_ d) (weak_of k)) ks ->
  released d ks ->
  released d' (after_firing i ks ++ flat_map handed_out out) /\
  (weak_factory_ d <> 0%nat ->
   Forall (fun e => contacts_decryptor e = false) out).
Proof.
  intros E Hen Hks R.
  destruct d as [s ic dc r sd c de p ka q b cl sp th wf wt].
  unfold released in *.
  destruct i; invert_run E; finish_run E; sf_norm; bool_facts;
    (split; intros G);
    try (specialize (R G); destruct R as ((T1 & T2 & T3) & T4));
    try sf_contradiction;
    try solve [repeat constructor];
    try solve [split; [sf_torn_down|assumption]].
Qed.


Lemma Reachable_released (w : World) :
  Reachable w -> released (stage w) (continuations w).
Proof.
  induction 1 as [sd|i w w' Hw IH Hstep].
  - intros G. cbn in G. congruence.
  - pose proof (Reachable_weak_ptrs_issued _ Hw) as (_ & Hks).
    apply world_step_inv in Hstep.
    destruct Hstep as (Hen & u & d' & out & Hrun & ->).
    cbn [stage continuations].
    eapply perform_released; try eassumption.
    unfold enabled in Hen. destruct (fired i) as [k|]; [|exact I].
    apply existsb_Continuation_eqb. assumption.
Qed.

(** [Stop] invalidates the weak pointers for good. *)
Lemma Stop_invalidates (w : World) (closure : Callback) :
  Reachable w ->
  In (CallStop closure) (inputs w) ->
  weak_factory_ (stage w) <> 0%nat.
Proof.
  induction 1 as [sd|i w w' Hw IH Hstep]; [intros []|].
  intros Hin.
  destruct (world_step_issues_weak_ptrs _ _ _ Hstep
              (Reachable_weak_ptrs_issued _ Hw)) as (Hle & _).
  apply world_step_inv in Hstep.
  destruct Hstep as (_ & u & d' & out & Hrun & ->).
  cbn [stage inputs] in *.
  apply in_app_or in Hin. destruct Hin as [Hin|[->|[]]].
  - specialize (IH Hin). lia.
  - cbn [perform] in Hrun. rewrite Stop_eq in Hrun.
    inversion Hrun; subst. destruct (stage w); cbn. discriminate.
Qed.

(** X11.  [Stop] is final, in every build.  On a reachable world on which
    [Stop] has been called the stage is in [kStopped] and has released its
    decryptor, and whatever input runs to completion afterwards leaves it
    so: the state stays [kStopped] and no call on the decryptor or on the
    decryptor-ready callback is made.  In a build that checks its DCHECKs
    [Decode] and [Reset] are then fatal. *)
Theorem Stop_is_final (w : World) (closure : Callback) :
  Reachable w ->
  In (CallStop closure) (inputs w) ->
  state_ (stage w) = kStopped /\
  decryptor_ (stage w) = None /\
  (forall (i : Input) (w' : World),
     world_step i w = Some w' ->
     state_ (stage w') = kStopped /\
     decryptor_ (stage w') = None /\
     exists out,
       history w' = history w ++ out /\
       Forall (fun e => contacts_decryptor e = false) out) /\
  (dcheck_is_on = true ->
   forall (buffer : option DecoderBuffer.t) (cb : Callback),
     world_step (CallDecode buffer cb) w = None /\
     world_step (CallReset cb) w = None).
Proof.
  intros Hw Hin.
  pose proof (Stop_invalidates _ _ Hw Hin) as Hgen.
  destruct (Reachable_released _ Hw Hgen) as ((Hs & Hde & _) & _).
  split; [exact Hs|]. split; [exact Hde|]. split.
  - intros i w' Hstep.
    assert (Hw' : Reachable w') by (eapply Reachable_step; eassumption).
    pose proof (Stop_invalidates w' closure Hw') as Hgen'.
    pose proof (Reachable_weak_ptrs_issued _ Hw) as (_ & Hks).
    apply world_step_inv in Hstep.
    destruct Hstep as (Hen & u & d' & out & Hrun & ->).
    cbn [stage history inputs] in *.
    destruct (Reachable_released _ Hw'
                (Hgen' ltac:(apply in_or_app; left; exact Hin)))
      as ((Hs' & Hde' & _) & _).
    cbn [stage] in Hs', Hde'.
    split; [exact Hs'|]. split; [exact Hde'|].
    exists out. split; [reflexivity|].
    eapply (perform_released i (stage w) d' u out (continuations w));
      try eassumption.
    + unfold enabled in Hen. destruct (fired i) as [k|]; [|exact I].
      apply existsb_Continuation_eqb. assumption.
    + apply Reachable_released. exact Hw.
  - intros Hdbg buffer cb.
    unfold world_step, enabled. cbn [fired perform].
    destruct (stage w) as [s ic dc r sd c de p ka q b cl sp th wf wt].
    cbn in Hs. subst s.
    split; unfold_stage; rewrite Hdbg; reflexivity.
Qed.

(** ** The queue across Reset *)

(** X12.  The queued frames are touched by [Decode], [GetDecodeOutput] and
    the decryptor's answer only; every other member function leaves them as
    they are.  In particular [Reset] does not drop them: frames queued
    before a [Reset] are still handed out by the [Decode] calls after it,
    with the timestamps they were given before. *)
Theorem queue_survives_Reset :
  (forall (i : Input) (d d' : DecryptingAudioDecoder) (u : unit)
          (out : list Event),
     touches_queue i = false ->
     perform i d = Returned u d' out ->
     queued_audio_frames_ d' = queued_audio_frames_ d)
  /\
  (forall (d : DecryptingAudioDecoder) (closure decode_cb : Callback)
          (dec : Decryptor) (helper : AudioTimestampHelper.t)
          (front : AudioBuffer.t) (rest : list AudioBuffer.t),
     state_ d = kIdle ->
     decode_cb_ d = NullCallback ->
     is_null (init_cb_ d) = true ->
     reset_cb_ d = NullCallback ->
     decryptor_ d = Some dec ->
     timestamp_helper_ d = Some helper ->
     queued_audio_frames_ d = front :: rest ->
     is_null decode_cb = false ->
     (Reset closure ;; Decode None decode_cb) d =
       Returned tt
         (set_queued_audio_frames rest
            (set_timestamp_helper
               (Some (AudioTimestampHelper.SetBaseTimestamp kNoTimestamp
                        helper))
               d))
         [Decryptor_ResetDecoder dec;
          Run_reset_cb (BindToCurrentLoop closure);
          Run_decode_cb (BindToCurrentLoop decode_cb) kOk (Some front)]).
Proof.
  split.
  - intros i d d' u out Hi E.
    destruct d as [s ic dc r sd c de p ka q b cl sp th wf wt].
    destruct i; try discriminate Hi; invert_run E; finish_run E; reflexivity.
  - intros d closure decode_cb dec helper front rest
      Hs Hdc Hi Hr Hde Hh Hq Hcb.
    destruct d as [s ic dc r sd c de p ka q b cl sp th wf wt].
    cbn in Hs, Hdc, Hi, Hr, Hde, Hh, Hq. subst.
    compute_stage. reflexivity.
Qed.

(** ** Initialization that fails *)

(** X13.  When no decryptor is available ([SetDecryptor] with a null
    decryptor), or when the decryptor cannot initialise its decoder
    ([FinishInitialization] with failure), the [Initialize] callback is run
    with [DECODER_ERROR_NOT_SUPPORTED] and the stage is [kStopped]; nothing
    else is emitted, in particular no key callback is registered.  In a
    build that checks its DCHECKs a stopped stage accepts neither [Decode]
    nor [Reset]. *)
Theorem initialization_failure_stops :
  (forall d : DecryptingAudioDecoder,
     state_ d = kDecryptorRequested ->
     is_null (init_cb_ d) = false ->
     is_null (set_decryptor_ready_cb_ d) = false ->
     SetDecryptor None d =
       Returned tt
         (set_state kStopped
            (set_init_cb NullCallback
               (set_set_decryptor_ready_cb NullCallback d)))
         [Run_init_cb (init_cb_ d) DECODER_ERROR_NOT_SUPPORTED])
  /\
  (forall d : DecryptingAudioDecoder,
     state_ d = kPendingDecoderInit ->
     is_null (init_cb_ d) = false ->
     is_null (reset_cb_ d) = true ->
     is_null (decode_cb_ d) = true ->
     FinishInitialization false d =
       Returned tt
         (set_state kStopped (set_init_cb NullCallback d))
         [Run_init_cb (init_cb_ d) DECODER_ERROR_NOT_SUPPORTED])
  /\
  (dcheck_is_on = true ->
   forall (d : DecryptingAudioDecoder) (buffer : option DecoderBuffer.t)
          (cb : Callback),
     state_ d = kStopped ->
     Decode buffer cb d = Crashed DCheckFailure /\
     Reset cb d = Crashed DCheckFailure).
Proof.
  split; [|split].
  - intros d Hs Hi Hsd.
    destruct d as [s ic dc r sd c de p ka q b cl sp th wf wt].
    cbn in Hs, Hi, Hsd. subst. compute_stage. reflexivity.
  - intros d Hs Hi Hr Hdc.
    destruct d as [s ic dc r sd c de p ka q b cl sp th wf wt].
    cbn in Hs, Hi, Hr, Hdc. subst. compute_stage. reflexivity.
  - intros Hdbg d buffer cb Hs.
    destruct d as [s ic dc r sd c de p ka q b cl sp th wf wt].
    cbn in Hs. subst.
    split; unfold_stage; rewrite Hdbg; reflexivity.
Qed.

(** ** Timestamps across a configuration change *)

(** X14.  Re-initialisation replaces the timestamp helper: after
    [Initialize] with a new valid configuration and the decryptor's
    confirmation, the helper is a fresh one at the sample rate of the new
    configuration, with no base timestamp and no frames counted, whatever
    the old helper had accumulated.  The first buffer decoded afterwards
    seeds the base with its own timestamp.  The frames queued before stay
    queued. *)
Theorem reinitialization_restarts_timestamps (d : DecryptingAudioDecoder)
    (status_cb : Callback) (config : AudioDecoderConfig.t)
    (dec : Decryptor) :
  state_ d <> kUninitialized ->
  decryptor_ d = Some dec ->
  is_null (decode_cb_ d) = true ->
  is_null (reset_cb_ d) = true ->
  IsValidConfig config = true ->
  AudioDecoderConfig.is_encrypted config = true ->
  exists (d' : DecryptingAudioDecoder) (out : list Event),
    (Initialize config status_cb ;; FinishInitialization true) d =
      Returned tt d' out /\
    state_ d' = kIdle /\
    timestamp_helper_ d' =
      Some (AudioTimestampHelper.new
              (AudioDecoderConfig.samples_per_second config)) /\
    queued_audio_frames_ d' = queued_audio_frames_ d /\
    forall (buffer : DecoderBuffer.t) (decode_cb : Callback),
      queued_audio_frames_ d = [] ->
      is_null decode_cb = false ->
      DecoderBuffer.end_of_stream buffer = false ->
      exists d'' out',
        Decode (Some buffer) decode_cb d' = Returned tt d'' out' /\
        timestamp_helper_ d'' =
          Some (AudioTimestampHelper.SetBaseTimestamp
                  (DecoderBuffer.timestamp buffer)
                  (AudioTimestampHelper.new
                     (AudioDecoderConfig.samples_per_second config))).
Proof.
  intros Hs Hde Hdc Hr Hv He.
  destruct d as [s ic dc r sd c de p ka q b cl sp th wf wt].
  cbn in * |-. subst.
  assert (Hu : State_eqb s kUninitialized = false)
    by (destruct s; try reflexivity; contradiction).
  apply is_null_true in Hdc. apply is_null_true in Hr. subst.
  match goal with
  | |- exists d' out, ?t = _ /\ _ =>
      destruct t as [[] d' out|f] eqn:E; eval_in E; [|discriminate E]
  end.
  flatten_stage_in E. inversion E; subst; clear E.
  eexists. eexists. split; [reflexivity|].
  split; [reflexivity|]. split; [reflexivity|]. split; [reflexivity|].
  intros buffer decode_cb Hq Hcb Heos. cbn in Hq. subst q.
  match goal with
  | |- exists d'' out', ?t = _ /\ _ =>
      destruct t as [[] d'' out'|f] eqn:E; eval_in E; [|discriminate E]
  end.
  flatten_stage_in E. inversion E; subst; clear E.
  eexists. eexists. split; reflexivity.
Qed.

(** ** Destruction *)

(** X15.  The destructor asserts that the stage was never initialised or has
    been stopped.  [Stop] followed by destruction is accepted on every
    stage, in every build; in a build that checks its DCHECKs destruction in
    any other state is fatal, so that a stage that has been initialised must
    be stopped before it is destroyed. *)
Theorem Destructor_after_Stop :
  (forall (d : DecryptingAudioDecoder) (closure : Callback),
     (Stop closure ;; Destructor) d =
       Returned tt (stopped d) (Stop_events d closure))
  /\
  (forall d : DecryptingAudioDecoder,
     state_ d = kUninitialized \/ state_ d = kStopped ->
     Destructor d = Returned tt d [])
  /\
  (dcheck_is_on = true ->
   forall d : DecryptingAudioDecoder,
     state_ d <> kUninitialized -> state_ d <> kStopped ->
     Destructor d = Crashed DCheckFailure).
Proof.
  split; [|split].
  - intros d closure.
    rewrite (bind_Returned _ _ _ _ _ _ (Stop_eq d closure)).
    unfold Destructor, stopped. cbn.
    rewrite DCHECK_true. cbn. rewrite app_nil_r. reflexivity.
  - intros d Hs. unfold Destructor.
    destruct d as [s ic dc r sd c de p ka q b cl sp th wf wt].
    cbn in Hs. destruct Hs; subst; cbn; rewrite DCHECK_true; reflexivity.
  - intros Hdbg d Hu Hst. unfold Destructor, DCHECK.
    destruct d as [s ic dc r sd c de p ka q b cl sp th wf wt].
    cbn in Hu, Hst. rewrite Hdbg.
    destruct s; try contradiction; reflexivity.
Qed.

(** ** An error of the decryptor *)




(** ** Timestamps while waiting for a key *)

(** X17.  The timestamp helper is changed by [Decode], [Reset], the
    confirmation of the decoder's initialisation and the decryptor's answer
    only.  An answer other than [kSuccess], with no [Reset] pending, leaves
    it as it is: neither a [kNoKey] answer, nor the arrival of a key and the
    retry it triggers, nor an answer asking for more data moves the running
    timestamp. *)
Theorem timestamps_change_only_by_decoding :
  (forall (i : Input) (d d' : DecryptingAudioDecoder) (u : unit)
          (out : list Event),
     touches_timestamps i = false ->
     perform i d = Returned u d' out ->
     timestamp_helper_ d' = timestamp_helper_ d)
  /\
  (forall (w : WeakPtr) (buffer_size : Z) (status : DecryptorStatus)
          (frames : AudioBuffers.t) (d d' : DecryptingAudioDecoder)
          (u : unit) (out : list Event),
     status <> kSuccess ->
     is_null (reset_cb_ d) = true ->
     perform (FireDeliverFrame w buffer_size status frames) d =
       Returned u d' out ->
     timestamp_helper_ d' = timestamp_helper_ d).
Proof.
  split.
  - intros i d d' u out Hi E.
    destruct d as [s ic dc r sd c de p ka q b cl sp th wf wt].
    destruct i; try discriminate Hi; invert_run E; finish_run E; reflexivity.
  - intros w buffer_size status frames d d' u out Hst Hr E.
    destruct d as [s ic dc r sd c de p ka q b cl sp th wf wt].
    cbn in Hr.
    destruct status; try contradiction;
      invert_run E; finish_run E; first [reflexivity|congruence].
Qed.

End Stage.

(** ** The statements at sample inputs *)

Lemma sample_idle_reached :
  option_map stage
    (world_steps true sample_IsValidConfig sample_inputs_to_idle
       (created (CallerCallback 0))) = Some sample_idle.
Proof. reflexivity. Qed.

Lemma sample_pending_reached :
  option_map stage
    (world_steps true sample_IsValidConfig
       (sample_inputs_to_idle ++
        [CallDecode (Some (sample_buffer false 0%Q)) (CallerCallback 2)])
       (created (CallerCallback 0))) =
  Some (sample_pending false false NullCallback).
Proof. reflexivity. Qed.

Lemma NeedMoreData_then_DecodeFinished_witness :
  (exists d',
     DeliverFrame true 3 kNeedMoreData (AudioBuffers.of_list [])
       (sample_pending true false NullCallback) =
     Returned tt d'
       [Run_decode_cb (BindToCurrentLoop (CallerCallback 2)) kOk
          (Some AudioBuffer.CreateEOSBuffer)] /\
     state_ d' = kDecodeFinished) /\
  (exists d',
     DeliverFrame true 3 kNeedMoreData (AudioBuffers.of_list [])
       (sample_pending false false NullCallback) =
     Returned tt d'
       [Run_decode_cb (BindToCurrentLoop (CallerCallback 2)) kNotEnoughData
          None] /\
     state_ d' = kIdle) /\
  Decode true None (CallerCallback 3) (set_state kDecodeFinished sample_idle) =
  Returned tt (set_state kDecodeFinished sample_idle)
    [Run_decode_cb (BindToCurrentLoop (CallerCallback 3)) kOk
       (Some AudioBuffer.CreateEOSBuffer)].
Proof.
  destruct (NeedMoreData_then_DecodeFinished true) as [H1 H2].
  split; [|split].
  - eexists. split.
    + exact (H1 (sample_pending true false NullCallback)
                (sample_buffer true 0%Q) 3%Z (AudioBuffers.of_list [])
                (conj eq_refl (conj eq_refl (conj eq_refl eq_refl)))
                eq_refl eq_refl).
    + reflexivity.
  - eexists. split.
    + exact (H1 (sample_pending false false NullCallback)
                (sample_buffer false 0%Q) 3%Z (AudioBuffers.of_list [])
                (conj eq_refl (conj eq_refl (conj eq_refl eq_refl)))
                eq_refl eq_refl).
    + reflexivity.
  - exact (H2 (set_state kDecodeFinished sample_idle) None (CallerCallback 3)
              eq_refl eq_refl eq_refl).
Defined.

Lemma Initialize_rejects_config_witness :
  (sample_IsValidConfig sample_clear_config = false \/
   AudioDecoderConfig.is_encrypted sample_clear_config = false) /\
  Initialize true sample_IsValidConfig sample_clear_config (CallerCallback 9)
    sample_idle =
  Returned tt
    (set_init_cb NullCallback
       (set_weak_this (GetWeakPtr sample_idle) sample_idle))
    [Run_init_cb (BindToCurrentLoop (CallerCallback 9))
       DECODER_ERROR_NOT_SUPPORTED].
Proof.
  split; [right; reflexivity|].
  exact (proj1 (Initialize_rejects_config true sample_IsValidConfig
                  sample_idle sample_clear_config (CallerCallback 9)
                  (or_intror eq_refl) eq_refl eq_refl)).
Defined.

Lemma decoder_initialized_with_S16_witness :
  AudioDecoderConfig.sample_format sample_config = kSampleFormatF32 /\
  (exists d' dec cfg k,
     perform true sample_IsValidConfig
       (FireSetDecryptor (Some 0%nat) (Some 7%nat))
       (set_state kDecryptorRequested
          (set_config sample_config
             (set_init_cb (BindToCurrentLoop (CallerCallback 1))
                (set_weak_this (Some 0%nat)
                   (constructed (CallerCallback 0)))))) =
       Returned tt d' [Decryptor_InitializeAudioDecoder dec cfg k] /\
     AudioDecoderConfig.sample_format cfg = kSampleFormatS16) /\
  (exists d',
     (Initialize true sample_IsValidConfig sample_config (CallerCallback 1) ;;
      SetDecryptor true (Some 7%nat) ;;
      FinishInitialization true true) (constructed (CallerCallback 0)) =
     Returned tt d'
       [Run_set_decryptor_ready_cb (CallerCallback 0)
          (Some (KSetDecryptor (Some 0%nat)));
        Decryptor_InitializeAudioDecoder 7%nat (forced_S16 sample_config)
          (KFinishInitialization (Some 0%nat));
        Decryptor_RegisterNewKeyCB 7%nat (KOnKeyAdded (Some 0%nat));
        Run_init_cb (BindToCurrentLoop (CallerCallback 1)) PIPELINE_OK] /\
     bits_per_channel d' = 16%Z /\
     channel_layout d' = 3%Z /\
     samples_per_second d' = 48000%Z) /\
  (exists d',
     (Initialize true sample_IsValidConfig sample_config (CallerCallback 5) ;;
      FinishInitialization true true) sample_idle =
     Returned tt d'
       [Decryptor_DeinitializeDecoder 7%nat;
        Decryptor_InitializeAudioDecoder 7%nat (forced_S16 sample_config)
          (KFinishInitialization (Some 0%nat));
        Decryptor_RegisterNewKeyCB 7%nat (KOnKeyAdded (Some 0%nat));
        Run_init_cb (BindToCurrentLoop (CallerCallback 5)) PIPELINE_OK] /\
     bits_per_channel d' = 16%Z).
Proof.
  destruct (decoder_initialized_with_S16 true sample_IsValidConfig)
    as (Halways & _ & Hfirst & Hagain).
  split; [reflexivity|]. split; [|split].
  - match goal with
    | |- exists d' dec cfg k, ?run = _ /\ _ =>
        destruct run as [[] d' out|f] eqn:E;
          [|vm_compute in E; discriminate E]
    end.
    pose proof (Halways (FireSetDecryptor (Some 0%nat) (Some 7%nat))
                  _ _ _ _ E) as Hs16.
    vm_compute in E. injection E as <- <-.
    do 4 eexists. split; [reflexivity|].
    eapply Hs16. left. reflexivity.
  - destruct (Hfirst (CallerCallback 0) (CallerCallback 1) sample_config
                7%nat eq_refl eq_refl eq_refl)
      as (d' & E & _ & Hb & Hc & Hr).
    exists d'. repeat split; assumption.
  - destruct (Hagain sample_idle (CallerCallback 5) sample_config 7%nat
                ltac:(discriminate) eq_refl eq_refl eq_refl eq_refl eq_refl)
      as (d' & E & _ & Hb & _).
    exists d'. split; assumption.
Defined.

Lemma Reset_deferred_until_response_witness :
  Reset true (CallerCallback 5) (sample_pending false false NullCallback) =
    Returned tt
      (set_reset_cb (BindToCurrentLoop (CallerCallback 5))
         (sample_pending false false NullCallback))
      [Decryptor_ResetDecoder 7%nat] /\
  (exists d',
     DeliverFrame true 3 kSuccess
       (AudioBuffers.of_list [sample_frame 100 5%Q])
       (sample_pending false false (BindToCurrentLoop (CallerCallback 5))) =
     Returned tt d'
       [Run_decode_cb (BindToCurrentLoop (CallerCallback 2)) kAborted None;
        Run_reset_cb (BindToCurrentLoop (CallerCallback 5))] /\
     state_ d' = kIdle /\
     pending_buffer_to_decode_ d' = None /\
     option_map AudioTimestampHelper.base_timestamp (timestamp_helper_ d') =
       Some kNoTimestamp /\
     exists d'' out,
       Decode true (Some (sample_buffer false 4%Q)) (CallerCallback 6) d' =
         Returned tt d'' out /\
       option_map AudioTimestampHelper.base_timestamp (timestamp_helper_ d'') =
         Some (Some 4%Q)).
Proof.
  destruct (Reset_deferred_until_response true) as [H1 H2].
  split.
  - exact (H1 (sample_pending false false NullCallback) (CallerCallback 5)
              7%nat eq_refl eq_refl eq_refl eq_refl eq_refl).
  - destruct (H2 (sample_pending false false
                    (BindToCurrentLoop (CallerCallback 5)))
                 (sample_buffer false 0%Q)
                 (seeded (sample_buffer false 0%Q)
                    (AudioTimestampHelper.new 48000%Z))
                 3%Z kSuccess (AudioBuffers.of_list [sample_frame 100 5%Q])
                 (conj eq_refl (conj eq_refl (conj eq_refl eq_refl)))
                 eq_refl eq_refl eq_refl) as [E Hnext].
    eexists. split; [exact E|].
    repeat split.
    destruct (Hnext (sample_buffer false 4%Q) (CallerCallback 6) 7%nat
                eq_refl eq_refl eq_refl) as (d'' & out & E' & Hh).
    exists d'', out. split; [exact E'|]. rewrite Hh. reflexivity.
Defined.

Lemma NoKey_keeps_buffer_for_retry_witness :
  DeliverFrame true 3 kNoKey (AudioBuffers.of_list [])
    (sample_pending false true NullCallback) =
    Returned tt
      (set_key_added_while_decode_pending false
         (sample_pending false true NullCallback))
      [Decryptor_DecryptAndDecodeAudio 7%nat (sample_buffer false 0%Q)
         (KDeliverFrame (Some 0%nat) 3)] /\
  DeliverFrame true 3 kNoKey (AudioBuffers.of_list [])
    (sample_pending false false NullCallback) =
    Returned tt
      (set_state kWaitingForKey (sample_pending false false NullCallback))
      [] /\
  OnKeyAdded true (sample_pending false false NullCallback) =
    Returned tt
      (set_key_added_while_decode_pending true
         (sample_pending false false NullCallback)) [] /\
  OnKeyAdded true
    (set_state kWaitingForKey (sample_pending false false NullCallback)) =
    Returned tt
      (set_state kPendingDecode
         (set_state kWaitingForKey (sample_pending false false NullCallback)))
      [Decryptor_DecryptAndDecodeAudio 7%nat (sample_buffer false 0%Q)
         (KDeliverFrame (Some 0%nat) 3)] /\
  (exists w,
     world_steps true sample_IsValidConfig
       (sample_inputs_to_idle ++
        [CallDecode (Some (sample_buffer false 0%Q)) (CallerCallback 2);
         FireDeliverFrame (Some 0%nat) 3 kNoKey (AudioBuffers.of_list []);
         FireOnKeyAdded (Some 0%nat);
         FireDeliverFrame (Some 0%nat) 3 kSuccess
           (AudioBuffers.of_list [sample_frame 100 5%Q])])
       (created (CallerCallback 0)) = Some w /\
     decode_cbs_run (history w) ++ decode_cb_held (stage w) =
       [BindToCurrentLoop (CallerCallback 2)] /\
     decode_cb_held (stage w) = []).
Proof.
  destruct (NoKey_keeps_buffer_for_retry true sample_IsValidConfig)
    as (H1 & H2 & H3 & H4).
  split; [|split; [|split; [|split]]].
  - exact (H1 (sample_pending false true NullCallback)
              (sample_buffer false 0%Q) 7%nat 3%Z (AudioBuffers.of_list [])
              (conj eq_refl (conj eq_refl (conj eq_refl eq_refl)))
              eq_refl eq_refl eq_refl).
  - exact (H1 (sample_pending false false NullCallback)
              (sample_buffer false 0%Q) 7%nat 3%Z (AudioBuffers.of_list [])
              (conj eq_refl (conj eq_refl (conj eq_refl eq_refl)))
              eq_refl eq_refl eq_refl).
  - exact (H2 (sample_pending false false NullCallback) eq_refl).
  - exact (H3 (set_state kWaitingForKey
                 (sample_pending false false NullCallback))
              (sample_buffer false 0%Q) 7%nat eq_refl eq_refl eq_refl).
  - match goal with
    | |- exists w, ?run = Some w /\ _ =>
        destruct run as [w|] eqn:E; [|vm_compute in E; discriminate E]
    end.
    exists w.
    pose proof (world_steps_Reachable true sample_IsValidConfig _ _ _
                  (Reachable_created true sample_IsValidConfig _) E)
      as [Hw _].
    pose proof (H4 w Hw) as Hacc.
    vm_compute in E. injection E as <-.
    split; [reflexivity|]. split; [rewrite Hacc|]; reflexivity.
Defined.

Lemma Stop_completes_and_cancels_witness :
  exists w w1,
    world_steps true sample_IsValidConfig
      [CallInitialize sample_config (CallerCallback 1)]
      (created (CallerCallback 0)) = Some w /\
    continuations w = [KSetDecryptor (Some 0%nat)] /\
    world_step true sample_IsValidConfig (CallStop (CallerCallback 4)) w =
      Some w1 /\
    history w1 =
      [Run_set_decryptor_ready_cb (CallerCallback 0)
         (Some (KSetDecryptor (Some 0%nat)));
       Run_set_decryptor_ready_cb (CallerCallback 0) None;
       Run_init_cb (BindToCurrentLoop (CallerCallback 1))
         DECODER_ERROR_NOT_SUPPORTED;
       PostTask (CallerCallback 4)] /\
    perform true sample_IsValidConfig
      (FireSetDecryptor (Some 0%nat) (Some 7%nat)) (stage w1) =
      Returned tt (stage w1) [].
Proof.
  destruct (Stop_completes_and_cancels true sample_IsValidConfig)
    as [_ Hdead].
  match goal with
  | |- exists w w1, ?run = Some w /\ _ =>
      destruct run as [w|] eqn:E; [|vm_compute in E; discriminate E]
  end.
  pose proof (world_steps_Reachable true sample_IsValidConfig _ _ _
                (Reachable_created true sample_IsValidConfig _) E)
    as [Hw _].
  destruct (world_step true sample_IsValidConfig (CallStop (CallerCallback 4))
              w) as [w1|] eqn:E1.
  - pose proof (Hdead w w1 w1 (CallerCallback 4) [] Hw E1 eq_refl
                  (FireSetDecryptor (Some 0%nat) (Some 7%nat))
                  (KSetDecryptor (Some 0%nat)) eq_refl) as Hdrop.
    vm_compute in E. injection E as <-.
    vm_compute in E1. injection E1 as <-.
    do 2 eexists.
    split; [reflexivity|]. split; [reflexivity|]. split; [reflexivity|].
    split; [reflexivity|].
    apply Hdrop. left. left. reflexivity.
  - exfalso. vm_compute in E. injection E as <-.
    vm_compute in E1. discriminate E1.
Defined.

Lemma single_flight_decode_witness :
  (exists w,
     world_steps true sample_IsValidConfig
       (sample_inputs_to_idle ++
        [CallDecode (Some (sample_buffer false 0%Q)) (CallerCallback 2)])
       (created (CallerCallback 0)) = Some w /\
     outstanding_decrypts w = 1%nat /\
     is_null (decode_cb_ (stage w)) = false /\
     world_step true sample_IsValidConfig
       (CallDecode (Some (sample_buffer false 1%Q)) (CallerCallback 3)) w =
       None) /\
  Decode false (Some (sample_buffer false 1%Q)) (CallerCallback 3)
    (sample_pending false false NullCallback) = Crashed CheckFailure /\
  Decode true (Some (sample_buffer false 1%Q)) (CallerCallback 3)
    (sample_pending false false NullCallback) = Crashed DCheckFailure /\
  Decode true None (CallerCallback 3)
    (set_decode_cb (BindToCurrentLoop (CallerCallback 2)) sample_idle) =
    Crashed CheckFailure /\
  (exists w,
     world_steps true sample_IsValidConfig sample_inputs_to_idle
       (created (CallerCallback 0)) = Some w /\
     state_ (stage w) = kIdle /\
     is_null (decode_cb_ (stage w)) = true).
Proof.
  destruct (single_flight_decode true sample_IsValidConfig)
    as (Hsingle & Hoverlap & Hstate & Hidle).
  split; [|split; [|split; [|split]]].
  - match goal with
    | |- exists w, ?run = Some w /\ _ =>
        destruct run as [w|] eqn:E; [|vm_compute in E; discriminate E]
    end.
    pose proof (world_steps_Reachable true sample_IsValidConfig _ _ _
                  (Reachable_created true sample_IsValidConfig _) E)
      as [Hw _].
    destruct (Hsingle w Hw) as [Hle Hheld].
    vm_compute in E. injection E as <-.
    eexists. split; [reflexivity|]. split; [reflexivity|].
    split; [|reflexivity].
    apply Hheld; [reflexivity|discriminate].
  - destruct (single_flight_decode false sample_IsValidConfig)
      as (_ & Hrelease & _).
    destruct (Hrelease (sample_pending false false NullCallback)
                (Some (sample_buffer false 1%Q)) (CallerCallback 3) eq_refl)
      as [(f & Ef) _].
    rewrite Ef. vm_compute in Ef. injection Ef as <-. reflexivity.
  - exact (Hstate eq_refl (sample_pending false false NullCallback)
             (Some (sample_buffer false 1%Q)) (CallerCallback 3)
             ltac:(discriminate) ltac:(discriminate)).
  - exact (proj2 (Hoverlap
                    (set_decode_cb (BindToCurrentLoop (CallerCallback 2))
                       sample_idle)
                    None (CallerCallback 3) eq_refl)
                 (or_introl eq_refl) eq_refl).
  - match goal with
    | |- exists w, ?run = Some w /\ _ =>
        destruct run as [w|] eqn:E; [|vm_compute in E; discriminate E]
    end.
    pose proof (world_steps_Reachable true sample_IsValidConfig _ _ _
                  (Reachable_created true sample_IsValidConfig _) E)
      as [Hw _].
    pose proof (Hidle eq_refl w None (CallerCallback 3) Hw) as Hnull.
    vm_compute in E. injection E as <-.
    eexists. split; [reflexivity|]. split; [reflexivity|].
    apply Hnull. left. reflexivity.
Defined.

Lemma output_queue_empty_at_submission_witness :
  Decode true None (CallerCallback 3)
    (set_queued_audio_frames [sample_frame 50 9%Q] sample_idle) =
    Returned tt (set_queued_audio_frames [] sample_idle)
      [Run_decode_cb (BindToCurrentLoop (CallerCallback 3)) kOk
         (Some (sample_frame 50 9%Q))] /\
  (exists w d' out,
     world_steps true sample_IsValidConfig sample_inputs_to_idle
       (created (CallerCallback 0)) = Some w /\
     perform true sample_IsValidConfig
       (CallDecode (Some (sample_buffer false 0%Q)) (CallerCallback 2))
       (stage w) = Returned tt d' out /\
     decrypt_requests out = [sample_buffer false 0%Q] /\
     queued_audio_frames_ (stage w) = [] /\
     queued_audio_frames_ d' = []) /\
  DeliverFrame true 3 kSuccess (AudioBuffers.of_list [sample_frame 100 5%Q])
    (set_queued_audio_frames [sample_frame 50 9%Q]
       (sample_pending false false NullCallback)) = Crashed DCheckFailure /\
  (exists d' out,
     perform true sample_IsValidConfig
       (FireDeliverFrame (Some 0%nat) 3 kSuccess
          (AudioBuffers.of_list [sample_frame 100 5%Q; sample_frame 50 9%Q]))
       (sample_pending false false NullCallback) = Returned tt d' out /\
     length (queued_audio_frames_ d') = 1%nat).
Proof.
  destruct (output_queue_empty_at_submission true sample_IsValidConfig)
    as (Hpop & Hempty & Hcheck & Hfill).
  split; [|split; [|split]].
  - exact (Hpop (set_queued_audio_frames [sample_frame 50 9%Q] sample_idle)
             (sample_frame 50 9%Q) [] (CallerCallback 3)
             eq_refl eq_refl eq_refl eq_refl).
  - match goal with
    | |- exists w d' out, ?run = Some w /\ _ =>
        destruct run as [w|] eqn:E; [|vm_compute in E; discriminate E]
    end.
    pose proof (world_steps_Reachable true sample_IsValidConfig _ _ _
                  (Reachable_created true sample_IsValidConfig _) E)
      as [Hw _].
    destruct (perform true sample_IsValidConfig
                (CallDecode (Some (sample_buffer false 0%Q))
                   (CallerCallback 2)) (stage w))
      as [[] d' out|f] eqn:E1.
    + assert (Hreq : decrypt_requests out = [sample_buffer false 0%Q]).
      { vm_compute in E. injection E as <-.
        vm_compute in E1. injection E1 as <- <-. reflexivity. }
      assert (Hne : decrypt_requests out <> [])
        by (rewrite Hreq; discriminate).
      destruct (Hempty w
                  (CallDecode (Some (sample_buffer false 0%Q))
                     (CallerCallback 2))
                  tt d' out Hw eq_refl E1 Hne) as [Hq Hq'].
      exists w, d', out. repeat split; assumption.
    + exfalso. vm_compute in E. injection E as <-.
      vm_compute in E1. discriminate E1.
  - exact (Hcheck eq_refl
             (set_queued_audio_frames [sample_frame 50 9%Q]
                (sample_pending false false NullCallback))
             3%Z kSuccess (AudioBuffers.of_list [sample_frame 100 5%Q])
             ltac:(discriminate)).
  - destruct (perform true sample_IsValidConfig
                (FireDeliverFrame (Some 0%nat) 3 kSuccess
                   (AudioBuffers.of_list
                      [sample_frame 100 5%Q; sample_frame 50 9%Q]))
                (sample_pending false false NullCallback))
      as [[] d' out|f] eqn:E1.
    + assert (Hlen : length (queued_audio_frames_ d') = 1%nat).
      { vm_compute in E1. injection E1 as <- <-. reflexivity. }
      destruct (Hfill _ _ d' tt out E1 eq_refl
                  ltac:(destruct (queued_audio_frames_ d');
                        [discriminate Hlen|discriminate]))
        as (w' & n & frames & Hi & Hgt).
      exists d', out. split; [reflexivity|exact Hlen].
    + exfalso. vm_compute in E1. discriminate E1.
Defined.

(** Discharges what a statement asks of a sample answer. *)
Ltac sample_answer :=
  unfold answers_decoded, answers_alias_free, decoded_answer, alias_free,
    points_to_decoded, decoded_frame;
  cbn;
  repeat first
    [ apply Forall_nil | apply Forall_cons | apply NoDup_nil
    | apply NoDup_cons | split | eexists | reflexivity | discriminate
    | (cbn; intuition discriminate) ].



(** ** Further statements at sample inputs *)

Lemma Reset_while_waiting_for_key_witness :
  exists d',
    Reset true (CallerCallback 5)
      (set_state kWaitingForKey (sample_pending false false NullCallback)) =
      Returned tt d'
        [Decryptor_ResetDecoder 7%nat;
         Run_decode_cb (BindToCurrentLoop (CallerCallback 2)) kAborted None;
         Run_reset_cb (BindToCurrentLoop (CallerCallback 5))] /\
    state_ d' = kIdle /\
    pending_buffer_to_decode_ d' = None /\
    OnKeyAdded true d' = Returned tt d' [].
Proof.
  destruct (Reset_while_waiting_for_key true
              (set_state kWaitingForKey
                 (sample_pending false false NullCallback))
              (CallerCallback 5) 7%nat
              (seeded (sample_buffer false 0%Q)
                 (AudioTimestampHelper.new 48000%Z))
              eq_refl eq_refl eq_refl eq_refl eq_refl eq_refl) as [H1 H2].
  eexists. split; [exact H1|]. split; [reflexivity|].
  split; [reflexivity|exact H2].
Defined.

Lemma Reset_at_rest_restarts_witness :
  exists d' d'',
    Reset true (CallerCallback 5) (set_state kDecodeFinished sample_idle) =
      Returned tt d'
        [Decryptor_ResetDecoder 7%nat;
         Run_reset_cb (BindToCurrentLoop (CallerCallback 5))] /\
    state_ d' = kIdle /\
    Decode true (Some (sample_buffer false 4%Q)) (CallerCallback 6) d' =
      Returned tt d''
        [Decryptor_DecryptAndDecodeAudio 7%nat (sample_buffer false 4%Q)
           (KDeliverFrame (Some 0%nat) 3)] /\
    state_ d'' = kPendingDecode.
Proof.
  destruct (Reset_at_rest_restarts true
              (set_state kDecodeFinished sample_idle)
              (CallerCallback 5) (CallerCallback 6) 7%nat
              (AudioTimestampHelper.new 48000%Z) (sample_buffer false 4%Q)
              (or_intror eq_refl) eq_refl eq_refl eq_refl eq_refl eq_refl
              eq_refl eq_refl eq_refl) as [H1 H2].
  eexists. eexists. split; [exact H1|]. split; [reflexivity|].
  split; [exact H2|reflexivity].
Defined.

Lemma queue_survives_Reset_witness :
  touches_queue (CallReset (CallerCallback 5)) = false /\
  (Reset true (CallerCallback 5) ;; Decode true None (CallerCallback 6))
    (set_queued_audio_frames [sample_frame 50 9%Q] sample_idle) =
    Returned tt
      (set_queued_audio_frames []
         (set_timestamp_helper
            (Some (AudioTimestampHelper.SetBaseTimestamp kNoTimestamp
                     (AudioTimestampHelper.new 48000%Z)))
            (set_queued_audio_frames [sample_frame 50 9%Q] sample_idle)))
      [Decryptor_ResetDecoder 7%nat;
       Run_reset_cb (BindToCurrentLoop (CallerCallback 5));
       Run_decode_cb (BindToCurrentLoop (CallerCallback 6)) kOk
         (Some (sample_frame 50 9%Q))].
Proof.
  split; [reflexivity|].
  exact (proj2 (queue_survives_Reset true sample_IsValidConfig)
           (set_queued_audio_frames [sample_frame 50 9%Q] sample_idle)
           (CallerCallback 5) (CallerCallback 6) 7%nat
           (AudioTimestampHelper.new 48000%Z) (sample_frame 50 9%Q) []
           eq_refl eq_refl eq_refl eq_refl eq_refl eq_refl eq_refl eq_refl).
Defined.

Lemma initialization_failure_stops_witness :
  (exists d',
     SetDecryptor true None
       (set_state kDecryptorRequested
          (set_init_cb (BindToCurrentLoop (CallerCallback 1))
             (constructed (CallerCallback 0)))) =
       Returned tt d'
         [Run_init_cb (BindToCurrentLoop (CallerCallback 1))
            DECODER_ERROR_NOT_SUPPORTED] /\
     state_ d' = kStopped) /\
  (exists d',
     FinishInitialization true false
       (set_state kPendingDecoderInit
          (set_init_cb (BindToCurrentLoop (CallerCallback 1)) sample_idle)) =
       Returned tt d'
         [Run_init_cb (BindToCurrentLoop (CallerCallback 1))
            DECODER_ERROR_NOT_SUPPORTED] /\
     state_ d' = kStopped /\
     Decode true (Some (sample_buffer false 0%Q)) (CallerCallback 2) d' =
       Crashed DCheckFailure /\
     Reset true (CallerCallback 5) d' = Crashed DCheckFailure).
Proof.
  destruct (initialization_failure_stops true) as (H1 & H2 & H3).
  split.
  - eexists. split.
    + exact (H1 (set_state kDecryptorRequested
                   (set_init_cb (BindToCurrentLoop (CallerCallback 1))
                      (constructed (CallerCallback 0))))
                eq_refl eq_refl eq_refl).
    + reflexivity.
  - eexists. split.
    + exact (H2 (set_state kPendingDecoderInit
                   (set_init_cb (BindToCurrentLoop (CallerCallback 1))
                      sample_idle))
                eq_refl eq_refl eq_refl eq_refl).
    + split; [reflexivity|]. split.
      * refine (proj1 (H3 eq_refl _ _ _ _)). reflexivity.
      * refine (proj2 (H3 eq_refl _ None _ _)). reflexivity.
Defined.

Lemma reinitialization_restarts_timestamps_witness :
  exists d' out,
    (Initialize true sample_IsValidConfig sample_config (CallerCallback 5) ;;
     FinishInitialization true true)
      (set_timestamp_helper
         (Some (AudioTimestampHelper.AddFrames 100
                  (AudioTimestampHelper.SetBaseTimestamp (Some 2%Q)
                     (AudioTimestampHelper.new 44100%Z))))
         sample_idle) = Returned tt d' out /\
    timestamp_helper_ d' = Some (AudioTimestampHelper.new 48000%Z) /\
    exists d'' out',
      Decode true (Some (sample_buffer false 4%Q)) (CallerCallback 6) d' =
        Returned tt d'' out' /\
      timestamp_helper_ d'' =
        Some (AudioTimestampHelper.SetBaseTimestamp (Some 4%Q)
                (AudioTimestampHelper.new 48000%Z)).
Proof.
  destruct (reinitialization_restarts_timestamps true sample_IsValidConfig
              (set_timestamp_helper
                 (Some (AudioTimestampHelper.AddFrames 100
                          (AudioTimestampHelper.SetBaseTimestamp (Some 2%Q)
                             (AudioTimestampHelper.new 44100%Z))))
                 sample_idle)
              (CallerCallback 5) sample_config 7%nat
              ltac:(discriminate) eq_refl eq_refl eq_refl eq_refl eq_refl)
    as (d' & out & E & _ & Hh & _ & Hnext).
  exists d', out. split; [exact E|]. split; [exact Hh|].
  exact (Hnext (sample_buffer false 4%Q) (CallerCallback 6)
           eq_refl eq_refl eq_refl).
Defined.

Lemma Destructor_after_Stop_witness :
  (Stop (CallerCallback 4) ;; Destructor true)
    (sample_pending false false NullCallback) =
    Returned tt (stopped (sample_pending false false NullCallback))
      [Decryptor_DeinitializeDecoder 7%nat;
       Run_decode_cb (BindToCurrentLoop (CallerCallback 2)) kAborted None;
       PostTask (CallerCallback 4)] /\
  Destructor true (constructed (CallerCallback 0)) =
    Returned tt (constructed (CallerCallback 0)) [] /\
  Destructor true sample_idle = Crashed DCheckFailure.
Proof.
  destruct (Destructor_after_Stop true) as (H1 & H2 & H3).
  split; [|split].
  - exact (H1 (sample_pending false false NullCallback) (CallerCallback 4)).
  - exact (H2 (constructed (CallerCallback 0)) (or_introl eq_refl)).
  - exact (H3 eq_refl sample_idle ltac:(discriminate) ltac:(discriminate)).
Defined.

(** Runs the sample inputs of the goal; the world they lead to is
    reachable. *)
Ltac sample_world w E Hw :=
  match goal with
  | |- context [world_steps ?dbg ?valid ?calls ?w0] =>
      destruct (world_steps dbg valid calls w0) as [w|] eqn:E;
      [|vm_compute in E; discriminate E];
      pose proof (proj1 (world_steps_Reachable dbg valid _ _ _
                           (Reachable_created dbg valid _) E)) as Hw
  end.

(** A fact about the world the sample inputs lead to, by running them. *)
Ltac by_running E := vm_compute in E; injection E as <-; reflexivity.

Lemma callbacks_held_only_in_their_states_witness :
  exists w,
    world_steps true sample_IsValidConfig
      (sample_inputs_to_idle ++
       [CallDecode (Some (sample_buffer false 0%Q)) (CallerCallback 2);
        CallReset (CallerCallback 5)])
      (created (CallerCallback 0)) = Some w /\
    is_null (reset_cb_ (stage w)) = false /\
    state_ (stage w) = kPendingDecode /\
    is_null (decode_cb_ (stage w)) = false /\
    outstanding_decrypts w = 1%nat.
Proof.
  sample_world w E Hw.
  destruct (callbacks_held_only_in_their_states true sample_IsValidConfig
              w eq_refl Hw) as (_ & Hd & _ & Hr & Hp).
  assert (Hheld : is_null (reset_cb_ (stage w)) = false) by by_running E.
  exists w. split; [reflexivity|]. split; [exact Hheld|].
  split; [exact (Hr Hheld)|].
  split; [exact (proj2 Hd (or_introl (Hr Hheld)))|exact (Hp (Hr Hheld))].
Defined.

Lemma decryptor_answer_accepted_witness :
  exists w w',
    world_steps true sample_IsValidConfig
      (sample_inputs_to_idle ++
       [CallDecode (Some (sample_buffer false 0%Q)) (CallerCallback 2)])
      (created (CallerCallback 0)) = Some w /\
    enabled
      (FireDeliverFrame (Some 0%nat) 3 kSuccess
         (AudioBuffers.of_list [sample_frame 100 5%Q])) w =
      true /\
    state_ (stage w) = kPendingDecode /\
    world_step true sample_IsValidConfig
      (FireDeliverFrame (Some 0%nat) 3 kSuccess
         (AudioBuffers.of_list [sample_frame 100 5%Q])) w =
      Some w'.
Proof.
  sample_world w E Hw.
  assert (Hen : enabled
                  (FireDeliverFrame (Some 0%nat) 3 kSuccess
                     (AudioBuffers.of_list [sample_frame 100 5%Q])) w =
                true) by by_running E.
  assert (Hv : weak_valid (Some 0%nat) (stage w) = true) by by_running E.
  assert (Hst : kSuccess = kSuccess <->
                AudioBuffers.pointers
                  (AudioBuffers.of_list [sample_frame 100 5%Q]) <> [])
    by (split; [discriminate|reflexivity]).
  assert (Hwf : decoded_answer (AudioBuffers.of_list [sample_frame 100 5%Q]))
    by sample_answer.
  destruct (decryptor_answer_accepted true sample_IsValidConfig w
              (Some 0%nat) 3%Z kSuccess
              (AudioBuffers.of_list [sample_frame 100 5%Q])
              eq_refl Hw Hen Hst Hwf)
    as (Hp & w' & Hstep).
  exists w, w'. split; [reflexivity|]. split; [exact Hen|].
  split; [exact (Hp Hv)|exact Hstep].
Defined.

Lemma Decode_accepted_at_rest_witness :
  exists w w',
    world_steps true sample_IsValidConfig sample_inputs_to_idle
      (created (CallerCallback 0)) = Some w /\
    state_ (stage w) = kIdle /\
    queued_audio_frames_ (stage w) = [] /\
    world_step true sample_IsValidConfig
      (CallDecode (Some (sample_buffer false 0%Q)) (CallerCallback 2)) w =
      Some w' /\
    ((state_ (stage w') = state_ (stage w) /\
      is_null (decode_cb_ (stage w')) = true /\
      decode_cbs_run (history w') =
        decode_cbs_run (history w) ++
        [BindToCurrentLoop (CallerCallback 2)]) \/
     (state_ (stage w') = kPendingDecode /\
      Some (sample_buffer false 0%Q) <> None /\
      pending_buffer_to_decode_ (stage w') =
        Some (sample_buffer false 0%Q) /\
      decode_cb_ (stage w') = BindToCurrentLoop (CallerCallback 2) /\
      outstanding_decrypts w' = 1%nat)).
Proof.
  sample_world w E Hw.
  assert (Hs : state_ (stage w) = kIdle) by by_running E.
  assert (Hq : queued_audio_frames_ (stage w) = []) by by_running E.
  assert (Hb : state_ (stage w) = kIdle ->
               (queued_audio_frames_ (stage w) = [] <->
                Some (sample_buffer false 0%Q) <> None))
    by (intros _; split; [discriminate|intros _; exact Hq]).
  destruct (Decode_accepted_at_rest true sample_IsValidConfig w
              (Some (sample_buffer false 0%Q)) (CallerCallback 2)
              eq_refl Hw (or_introl Hs) eq_refl Hb)
    as (w' & Hstep & Hres).
  exists w, w'. split; [reflexivity|]. split; [exact Hs|].
  split; [exact Hq|]. split; [exact Hstep|exact Hres].
Defined.

Lemma Reset_accepted_while_decoding_witness :
  exists w w',
    world_steps true sample_IsValidConfig sample_inputs_to_idle
      (created (CallerCallback 0)) = Some w /\
    decoding_state (state_ (stage w)) = true /\
    is_null (reset_cb_ (stage w)) = true /\
    world_step true sample_IsValidConfig (CallReset (CallerCallback 5)) w =
      Some w' /\
    state_ (stage w') = kIdle /\
    is_null (reset_cb_ (stage w')) = true /\
    reset_cbs_run (history w') =
      reset_cbs_run (history w) ++ [BindToCurrentLoop (CallerCallback 5)].
Proof.
  sample_world w E Hw.
  assert (Hs : state_ (stage w) = kIdle) by by_running E.
  assert (Hr : is_null (reset_cb_ (stage w)) = true) by by_running E.
  assert (Hd : decoding_state (state_ (stage w)) = true)
    by (rewrite Hs; reflexivity).
  destruct (Reset_accepted_while_decoding true sample_IsValidConfig w
              (CallerCallback 5) eq_refl Hw Hd Hr)
    as (w' & Hstep & Hres).
  rewrite Hs in Hres. cbn [State_eqb] in Hres.
  destruct Hres as (Hs' & Hr' & _ & Hrun).
  exists w, w'. split; [reflexivity|]. split; [exact Hd|].
  split; [exact Hr|]. split; [exact Hstep|]. split; [exact Hs'|].
  split; [exact Hr'|exact Hrun].
Defined.

Lemma deferred_Reset_completes_witness :
  exists w w',
    world_steps true sample_IsValidConfig
      (sample_inputs_to_idle ++
       [CallDecode (Some (sample_buffer false 0%Q)) (CallerCallback 2);
        CallReset (CallerCallback 5)])
      (created (CallerCallback 0)) = Some w /\
    is_null (reset_cb_ (stage w)) = false /\
    state_ (stage w) = kPendingDecode /\
    world_step true sample_IsValidConfig
      (FireDeliverFrame (Some 0%nat) 3 kError (AudioBuffers.of_list [])) w =
      Some w' /\
    state_ (stage w') = kIdle /\
    history w' =
      history w ++
      [Run_decode_cb (BindToCurrentLoop (CallerCallback 2)) kAborted None;
       Run_reset_cb (BindToCurrentLoop (CallerCallback 5))].
Proof.
  sample_world w E Hw.
  assert (Hheld : is_null (reset_cb_ (stage w)) = false) by by_running E.
  assert (Hwt : weak_this_ (stage w) = Some 0%nat) by by_running E.
  assert (Hdc : decode_cb_ (stage w) = BindToCurrentLoop (CallerCallback 2))
    by by_running E.
  assert (Hrc : reset_cb_ (stage w) = BindToCurrentLoop (CallerCallback 5))
    by by_running E.
  assert (Hks : continuations w =
                [KOnKeyAdded (Some 0%nat); KDeliverFrame (Some 0%nat) 3])
    by by_running E.
  destruct (deferred_Reset_completes true sample_IsValidConfig w
              eq_refl Hw Hheld) as (Hs & n & Hin & Hall).
  assert (Hn : n = 3%Z).
  { rewrite Hwt, Hks in Hin.
    destruct Hin as [Hin|[Hin|[]]]; [discriminate Hin|].
    injection Hin as <-. reflexivity. }
  subst n.
  destruct (Hall kError (AudioBuffers.of_list [])) as (w' & Hstep & Hs' & _ & _ & Hh).
  rewrite Hwt in Hstep. rewrite Hdc, Hrc in Hh.
  exists w, w'. split; [reflexivity|]. split; [exact Hheld|].
  split; [exact Hs|]. split; [exact Hstep|]. split; [exact Hs'|exact Hh].
Defined.

Lemma key_before_request_not_counted_witness :
  exists w d',
    world_steps true sample_IsValidConfig
      (sample_inputs_to_idle ++ [FireOnKeyAdded (Some 0%nat)])
      (created (CallerCallback 0)) = Some w /\
    state_ (stage w) = kIdle /\
    key_added_while_decode_pending_ (stage w) = false /\
    (Decode true (Some (sample_buffer false 0%Q)) (CallerCallback 2) ;;
     DeliverFrame true 3 kNoKey (AudioBuffers.of_list [])) (stage w) =
      Returned tt d'
        [Decryptor_DecryptAndDecodeAudio 7%nat (sample_buffer false 0%Q)
           (KDeliverFrame (Some 0%nat) 3)] /\
    state_ d' = kWaitingForKey.
Proof.
  sample_world w E Hw.
  assert (Hs : state_ (stage w) = kIdle) by by_running E.
  assert (Hq : queued_audio_frames_ (stage w) = []) by by_running E.
  assert (Hk : key_added_while_decode_pending_ (stage w) = false)
    by by_running E.
  assert (Hwt : weak_this_ (stage w) = Some 0%nat) by by_running E.
  destruct (key_before_request_not_counted true sample_IsValidConfig w
              eq_refl Hw) as (_ & Hnext).
  destruct (Hnext (sample_buffer false 0%Q) (CallerCallback 2) 3%Z
              (AudioBuffers.of_list []) Hs Hq eq_refl eq_refl) as (d' & dec & Hrun & Hs' & _).
  assert (Hdec : dec = 7%nat).
  { clear - E Hrun. vm_compute in E. injection E as <-.
    vm_compute in Hrun. injection Hrun as _ Hd. exact (eq_sym Hd). }
  subst dec. rewrite Hwt in Hrun.
  exists w, d'. split; [reflexivity|]. split; [exact Hs|].
  split; [exact Hk|]. split; [exact Hrun|exact Hs'].
Defined.

Lemma Reset_closures_accounted_witness :
  exists w,
    world_steps true sample_IsValidConfig
      (sample_inputs_to_idle ++
       [CallReset (CallerCallback 5);
        CallDecode (Some (sample_buffer false 0%Q)) (CallerCallback 2);
        CallReset (CallerCallback 6);
        FireDeliverFrame (Some 0%nat) 3 kSuccess
          (AudioBuffers.of_list [sample_frame 100 5%Q])])
      (created (CallerCallback 0)) = Some w /\
    is_null (reset_cb_ (stage w)) = true /\
    reset_cbs_run (history w) =
      [BindToCurrentLoop (CallerCallback 5);
       BindToCurrentLoop (CallerCallback 6)].
Proof.
  sample_world w E Hw.
  destruct (Reset_closures_accounted true sample_IsValidConfig w
              eq_refl Hw) as (_ & Hall).
  assert (Hr : is_null (reset_cb_ (stage w)) = true) by by_running E.
  assert (Hg : reset_cbs_given (inputs w) =
               [BindToCurrentLoop (CallerCallback 5);
                BindToCurrentLoop (CallerCallback 6)]) by by_running E.
  exists w. split; [reflexivity|]. split; [exact Hr|].
  rewrite (Hall Hr). exact Hg.
Defined.

Lemma Stop_is_final_witness :
  exists w w',
    world_steps true sample_IsValidConfig
      (sample_inputs_to_idle ++
       [CallDecode (Some (sample_buffer false 0%Q)) (CallerCallback 2);
        CallStop (CallerCallback 4)])
      (created (CallerCallback 0)) = Some w /\
    In (CallStop (CallerCallback 4)) (inputs w) /\
    state_ (stage w) = kStopped /\
    decryptor_ (stage w) = None /\
    world_step true sample_IsValidConfig
      (CallInitialize sample_clear_config (CallerCallback 9)) w = Some w' /\
    state_ (stage w') = kStopped /\
    world_step true sample_IsValidConfig
      (CallDecode (Some (sample_buffer false 1%Q)) (CallerCallback 3)) w =
      None.
Proof.
  sample_world w E Hw.
  assert (Hin : In (CallStop (CallerCallback 4)) (inputs w)).
  { clear Hw. vm_compute in E. injection E as <-.
    cbn. do 4 right. left. reflexivity. }
  destruct (Stop_is_final true sample_IsValidConfig w (CallerCallback 4)
              Hw Hin) as (Hs & Hde & Hlater & Hfatal).
  destruct (world_step true sample_IsValidConfig
              (CallInitialize sample_clear_config (CallerCallback 9)) w)
    as [w'|] eqn:Hstep;
    [|exfalso; clear - E Hstep; vm_compute in E; injection E as <-;
      vm_compute in Hstep; discriminate Hstep].
  destruct (Hlater _ _ Hstep) as (Hs' & _).
  exists w, w'. split; [reflexivity|]. split; [exact Hin|].
  split; [exact Hs|]. split; [exact Hde|]. split; [exact Hstep|].
  split; [exact Hs'|].
  exact (proj1 (Hfatal eq_refl (Some (sample_buffer false 1%Q))
                  (CallerCallback 3))).
Defined.

Lemma Stop_leaves_nothing_pending_witness :
  exists w w1,
    world_steps true sample_IsValidConfig
      (sample_inputs_to_idle ++
       [CallDecode (Some (sample_buffer false 0%Q)) (CallerCallback 2);
        CallReset (CallerCallback 5)])
      (created (CallerCallback 0)) = Some w /\
    world_step true sample_IsValidConfig (CallStop (CallerCallback 4)) w =
      Some w1 /\
    decode_cbs_run (history w1) = [BindToCurrentLoop (CallerCallback 2)] /\
    reset_cbs_run (history w1) = [BindToCurrentLoop (CallerCallback 5)].
Proof.
  sample_world w E Hw.
  destruct (world_step true sample_IsValidConfig
              (CallStop (CallerCallback 4)) w) as [w1|] eqn:Hstep;
    [|exfalso; clear - E Hstep; vm_compute in E; injection E as <-;
      vm_compute in Hstep; discriminate Hstep].
  destruct (Stop_leaves_nothing_pending true sample_IsValidConfig w w1
              (CallerCallback 4) Hw Hstep) as (Hdec & Hres & _).
  assert (Hg : decode_cbs_given (inputs w1) =
               [BindToCurrentLoop (CallerCallback 2)] /\
               reset_cbs_given (inputs w1) =
               [BindToCurrentLoop (CallerCallback 5)]).
  { clear - E Hstep. vm_compute in E. injection E as <-.
    vm_compute in Hstep. injection Hstep as <-. split; reflexivity. }
  exists w, w1. split; [reflexivity|]. split; [exact Hstep|].
  split; [rewrite Hdec; exact (proj1 Hg)|].
  rewrite (Hres eq_refl). exact (proj2 Hg).
Defined.


Lemma timestamps_change_only_by_decoding_witness :
  touches_timestamps (FireOnKeyAdded (Some 0%nat)) = false /\
  (exists d',
     perform true sample_IsValidConfig (FireOnKeyAdded (Some 0%nat))
       (set_state kWaitingForKey (sample_pending false false NullCallback)) =
       Returned tt d'
         [Decryptor_DecryptAndDecodeAudio 7%nat (sample_buffer false 0%Q)
            (KDeliverFrame (Some 0%nat) 3)] /\
     timestamp_helper_ d' =
       timestamp_helper_ (sample_pending false false NullCallback)) /\
  (exists d',
     perform true sample_IsValidConfig
       (FireDeliverFrame (Some 0%nat) 3 kNoKey (AudioBuffers.of_list []))
       (sample_pending false false NullCallback) = Returned tt d' [] /\
     timestamp_helper_ d' =
       timestamp_helper_ (sample_pending false false NullCallback)).
Proof.
  destruct (timestamps_change_only_by_decoding true sample_IsValidConfig)
    as [H1 H2].
  split; [reflexivity|]. split.
  - destruct (perform true sample_IsValidConfig
                (FireOnKeyAdded (Some 0%nat))
                (set_state kWaitingForKey
                   (sample_pending false false NullCallback)))
      as [[] d' out|f] eqn:E; [|vm_compute in E; discriminate E].
    pose proof (H1 (FireOnKeyAdded (Some 0%nat)) _ _ _ _ eq_refl E) as Hh.
    assert (Hout : out =
                   [Decryptor_DecryptAndDecodeAudio 7%nat
                      (sample_buffer false 0%Q)
                      (KDeliverFrame (Some 0%nat) 3)])
      by (clear - E; vm_compute in E; injection E as _ <-; reflexivity).
    subst out. exists d'. split; [reflexivity|exact Hh].
  - destruct (perform true sample_IsValidConfig
                (FireDeliverFrame (Some 0%nat) 3 kNoKey (AudioBuffers.of_list []))
                (sample_pending false false NullCallback))
      as [[] d' out|f] eqn:E; [|vm_compute in E; discriminate E].
    assert (Hst : kNoKey <> kSuccess) by discriminate.
    pose proof (H2 (Some 0%nat) 3%Z kNoKey (AudioBuffers.of_list [])
                  (sample_pending false false NullCallback) _ _ _
                  Hst eq_refl E) as Hh.
    assert (Hout : out = [])
      by (clear - E; vm_compute in E; injection E as _ <-; reflexivity).
    subst out. exists d'. split; [reflexivity|exact Hh].
Defined.
